(** * UTSK: upcoming TV shows for Kometa

    A shallow embedding of the decision logic of [UTSK.py]: the air-window
    filter ([find_upcoming_shows]), the title matcher ([_normalize],
    [_base_show_title], [_title_matches]), the trailer selector
    ([search_trailer_on_youtube]), the date mini-language ([format_date]) and
    the collection document builder ([create_collection_yaml]).

    Conventions of the embedding.
    - A Python [str] is a [string]; the character classes and the case
      mappings are the ASCII ones (code points below 128), every other
      character is left alone and belongs to no class.
    - A Python [int] is a [Z]; a JSON number that may be a float (a video
      duration, the UTC offset) is an exact rational [Q].
    - An aware [datetime] is its number of microseconds since the epoch, a [Z];
      the range check of [datetime] (years 1 to 9999) is not modelled.
    - A key that may be missing from a JSON object is an [option], and
      [dict.get] is the projection; for the keys read with [get(k) or d],
      [None] stands for a [null] as well.
    - A Python [dict], whose iteration order is its insertion order, is an
      association list updated in place ([dict_set]). *)

From Stdlib Require Import String Ascii List ZArith QArith Bool Lia DecimalString.
From Stdlib Require Import Qround Sorted Permutation.
Import ListNotations.
Open Scope string_scope.
Open Scope Z_scope.

(* ================================================================== *)
(** * Python strings *)
(* ================================================================== *)

Module PyStr.

Definition code (c : ascii) : N := N_of_ascii c.

Definition in_range (lo hi : N) (c : ascii) : bool :=
  ((lo <=? code c) && (code c <=? hi))%N.

(** [str.isspace] and the class [\s] on ASCII: TAB..CR, FS..US and SPACE. *)
Definition isspace (c : ascii) : bool := in_range 9 13 c || in_range 28 32 c.

(** The class [\d] on ASCII. *)
Definition isdigit (c : ascii) : bool := in_range 48 57 c.

Definition isupper (c : ascii) : bool := in_range 65 90 c.
Definition islower (c : ascii) : bool := in_range 97 122 c.

Definition lower_char (c : ascii) : ascii :=
  if isupper c then ascii_of_N (code c + 32) else c.

Definition upper_char (c : ascii) : ascii :=
  if islower c then ascii_of_N (code c - 32) else c.

Fixpoint map_str (f : ascii -> ascii) (s : string) : string :=
  match s with
  | EmptyString => EmptyString
  | String c s' => String (f c) (map_str f s')
  end.

(** [s.lower()] and [s.upper()]. *)
Definition lower : string -> string := map_str lower_char.
Definition upper : string -> string := map_str upper_char.

(** [s.lstrip()], [s.rstrip()] and [s.strip()] with no argument. *)
Fixpoint lstrip (s : string) : string :=
  match s with
  | EmptyString => EmptyString
  | String c s' => if isspace c then lstrip s' else s
  end.

Fixpoint rstrip (s : string) : string :=
  match s with
  | EmptyString => EmptyString
  | String c s' =>
      match rstrip s' with
      | EmptyString => if isspace c then EmptyString else String c EmptyString
      | r => String c r
      end
  end.

Definition strip (s : string) : string := rstrip (lstrip s).

(** [sub in s]. *)
Fixpoint contains (sub s : string) : bool :=
  String.prefix sub s ||
  match s with
  | EmptyString => false
  | String _ s' => contains sub s'
  end.

(** [any(k in s for k in ks)]. *)
Definition contains_any (ks : list string) (s : string) : bool :=
  existsb (fun k => contains k s) ks.

(** [s.replace(old, new)]: every occurrence, leftmost first, without
    overlap.  [skip] counts the characters of the occurrence being replaced
    that are still to be dropped. *)
Fixpoint replace_from (skip : nat) (old new s : string) : string :=
  match s with
  | EmptyString => EmptyString
  | String c s' =>
      match skip with
      | S k => replace_from k old new s'
      | O =>
          if String.prefix old s
          then new ++ replace_from (String.length old - 1) old new s'
          else String c (replace_from 0 old new s')
      end
  end.

Fixpoint intersperse (new s : string) : string :=
  match s with
  | EmptyString => new
  | String c s' => new ++ String c (intersperse new s')
  end.

Definition replace (old new s : string) : string :=
  match old with
  | EmptyString => intersperse new s
  | _ => replace_from 0 old new s
  end.

(** [str(n)] for an [int]. *)
Definition str_of_Z (n : Z) : string := NilEmpty.string_of_int (Z.to_int n).

(** [", ".join(l)]. *)
Definition join (sep : string) (l : list string) : string := String.concat sep l.

(** [f"{n:02d}"] for [0 <= n]. *)
Definition pad2 (n : Z) : string :=
  if n <? 10 then "0" ++ str_of_Z n else str_of_Z n.

(** [f"{n:04d}"] for [0 <= n]. *)
Definition pad4 (n : Z) : string :=
  if n <? 10 then "000" ++ str_of_Z n
  else if n <? 100 then "00" ++ str_of_Z n
  else if n <? 1000 then "0" ++ str_of_Z n
  else str_of_Z n.

End PyStr.
Import PyStr.

(* ================================================================== *)
(** * Python dictionaries *)
(* ================================================================== *)

(** A [dict] with string keys: the items in insertion order, no key twice. *)
Definition dict (V : Type) : Type := list (string * V).

Definition keys {V} (d : dict V) : list string := map fst d.

(** [d.get(k)]. *)
Fixpoint dict_lookup {V} (d : dict V) (k : string) : option V :=
  match d with
  | [] => None
  | (k', v) :: d' => if String.eqb k' k then Some v else dict_lookup d' k
  end.

(** [k in d]. *)
Definition dict_has {V} (d : dict V) (k : string) : bool :=
  match dict_lookup d k with
  | Some _ => true
  | None => false
  end.

(** [d[k] = v]: a key that is there keeps its place, a new one goes last. *)
Fixpoint dict_set {V} (k : string) (v : V) (d : dict V) : dict V :=
  match d with
  | [] => [(k, v)]
  | (k', v') :: d' =>
      if String.eqb k' k then (k', v) :: d' else (k', v') :: dict_set k v d'
  end.

(** The dictionary that [d.pop(k, default)] leaves. *)
Definition dict_remove {V} (k : string) (d : dict V) : dict V :=
  filter (fun kv => negb (String.eqb (fst kv) k)) d.

(* ================================================================== *)
(** * Title matcher *)
(* ================================================================== *)

(** The class [[a-z0-9]]. *)
Definition is_norm_char (c : ascii) : bool := islower c || isdigit c.

(** [re.sub(r'[^a-z0-9]+', ' ', s)]: every maximal run of characters outside
    the class becomes one space.  [in_run] tells that the run the scan is in
    has already been replaced. *)
Fixpoint collapse_runs (in_run : bool) (s : string) : string :=
  match s with
  | EmptyString => EmptyString
  | String c s' =>
      if is_norm_char c then String c (collapse_runs false s')
      else if in_run then collapse_runs true s'
      else String " " (collapse_runs true s')
  end.

Definition _normalize (s : string) : string :=
  strip (collapse_runs false (lower s)).

Definition is_open (c : ascii) : bool := Ascii.eqb c "(" || Ascii.eqb c "[".
Definition is_close (c : ascii) : bool := Ascii.eqb c ")" || Ascii.eqb c "]".

(** A match of [[\(\[]\d{4}[\)\]]] at the head of [s]: what follows it. *)
Definition year_token (s : string) : option string :=
  match s with
  | String o (String d1 (String d2 (String d3 (String d4 (String c rest))))) =>
      if is_open o && isdigit d1 && isdigit d2 && isdigit d3 && isdigit d4
         && is_close c
      then Some rest else None
  | _ => None
  end.

(** A match of [\s*[\(\[]\d{4}[\)\]]\s*] at the head of [s]: its length.
    Both stars are greedy, and giving back white space cannot help, since the
    character after a shorter run is a white space and not a bracket. *)
Definition match_year (s : string) : option nat :=
  match year_token (lstrip s) with
  | Some rest => Some (String.length s - String.length (lstrip rest))%nat
  | None => None
  end.

(** [re.sub(r'\s*[\(\[]\d{4}[\)\]]\s*', ' ', s)]; [skip] as in
    [replace_from]. *)
Fixpoint sub_year (skip : nat) (s : string) : string :=
  match s with
  | EmptyString => EmptyString
  | String c s' =>
      match skip with
      | S k => sub_year k s'
      | O =>
          match match_year s with
          | Some n => String " " (sub_year (n - 1) s')
          | None => String c (sub_year 0 s')
          end
      end
  end.

Definition _base_show_title (show_title : string) : string :=
  strip (sub_year 0 show_title).

(** The Python function returns [base and base in vt], used as a truth
    value: the empty base is falsy. *)
Definition _title_matches (video_title show_title : string) : bool :=
  let base := _normalize (_base_show_title show_title) in
  let vt := _normalize video_title in
  negb (String.eqb base "") && contains base vt.

(* ================================================================== *)
(** * Calendar arithmetic of [datetime] *)
(* ================================================================== *)

Module Calendar.

Record date := mkdate { year : Z; month : Z; day : Z }.

Definition is_leap (y : Z) : bool :=
  (y mod 4 =? 0) && (negb (y mod 100 =? 0) || (y mod 400 =? 0)).

Definition days_in_month (y m : Z) : Z :=
  if m =? 2 then (if is_leap y then 29 else 28)
  else if (m =? 4) || (m =? 6) || (m =? 9) || (m =? 11) then 30
  else 31.

(** Days of the year [y] before the first of month [m]. *)
Definition days_before_month (y m : Z) : Z :=
  fold_left (fun acc k => if k <? m then acc + days_in_month y k else acc)
            [1; 2; 3; 4; 5; 6; 7; 8; 9; 10; 11] 0.

Definition days_before_year (y : Z) : Z :=
  let p := y - 1 in p * 365 + p / 4 - p / 100 + p / 400.

(** [date.toordinal()]: 0001-01-01 is day 1. *)
Definition toordinal (d : date) : Z :=
  days_before_year (year d) + days_before_month (year d) (month d) + day d.

(** [date.weekday()]: Monday is 0. *)
Definition weekday (d : date) : Z := (toordinal d + 6) mod 7.

(** [date.fromordinal(n)], the algorithm of the [datetime] module. *)
Definition fromordinal (n : Z) : date :=
  let n := n - 1 in
  let n400 := n / 146097 in
  let n := n mod 146097 in
  let n100 := n / 36524 in
  let n := n mod 36524 in
  let n4 := n / 1461 in
  let n := n mod 1461 in
  let n1 := n / 365 in
  let n := n mod 365 in
  let y := n400 * 400 + 1 + n100 * 100 + n4 * 4 + n1 in
  if (n1 =? 4) || (n100 =? 4) then mkdate (y - 1) 12 31
  else
    let m := Z.shiftr (n + 50) 5 in
    let preceding := days_before_month y m in
    if n <? preceding
    then mkdate y (m - 1) (n - (preceding - days_in_month y (m - 1)) + 1)
    else mkdate y m (n - preceding + 1).

(** Ordinal of 1970-01-01. *)
Definition epoch_ordinal : Z := 719163.

Definition us_per_day : Z := 86400000000.
Definition us_per_hour : Z := 3600000000.

(** [dt.date()] of a [datetime] given in microseconds since the epoch. *)
Definition date_of_instant (t : Z) : date :=
  fromordinal (t / us_per_day + epoch_ordinal).

(** [d.isoformat()]. *)
Definition isoformat (d : date) : string :=
  pad4 (year d) ++ "-" ++ pad2 (month d) ++ "-" ++ pad2 (day d).

(** [timedelta(days=n)] for an [int]. *)
Definition timedelta_days (n : Z) : Z := n * us_per_day.

(** Rounding to the nearest integer, halves to the even one, as [timedelta]
    rounds a fractional number of microseconds. *)
Definition round_half_even (q : Q) : Z :=
  let f := Qfloor q in
  let r := (q - inject_Z f)%Q in
  match Qcompare r (1 # 2) with
  | Lt => f
  | Gt => f + 1
  | Eq => if Z.even f then f else f + 1
  end.

(** [timedelta(hours=h)] for a number [h], read as an exact rational. *)
Definition timedelta_hours (h : Q) : Z :=
  round_half_even (h * inject_Z us_per_hour)%Q.

Definition month_names : list string :=
  ["January"; "February"; "March"; "April"; "May"; "June"; "July";
   "August"; "September"; "October"; "November"; "December"].

Definition day_names : list string :=
  ["Monday"; "Tuesday"; "Wednesday"; "Thursday"; "Friday"; "Saturday";
   "Sunday"].

Definition month_name (m : Z) : string :=
  nth (Z.to_nat (m - 1)) month_names "".

Definition day_name (w : Z) : string := nth (Z.to_nat w) day_names "".

(** The first three letters: the abbreviated names of the C locale. *)
Definition abbrev (s : string) : string := String.substring 0 3 s.

End Calendar.
Import Calendar.

(* ================================================================== *)
(** * Date formatting *)
(* ================================================================== *)

Definition digit_val (c : ascii) : option Z :=
  if isdigit c then Some (Z.of_N (code c) - 48) else None.

Definition digits2 (a b : ascii) : option Z :=
  match digit_val a, digit_val b with
  | Some x, Some y => Some (10 * x + y)
  | _, _ => None
  end.

(** The month field of [strptime]: [1[0-2]|0[1-9]|[1-9]]. *)
Definition month_field (s : string) : option Z :=
  match s with
  | String a EmptyString =>
      match digit_val a with
      | Some x => if 1 <=? x then Some x else None
      | None => None
      end
  | String a (String b EmptyString) =>
      match digits2 a b with
      | Some x => if (1 <=? x) && (x <=? 12) then Some x else None
      | None => None
      end
  | _ => None
  end.

(** The day field of [strptime]: [3[0-1]|[1-2]\d|0[1-9]|[1-9]| [1-9]]. *)
Definition day_field (s : string) : option Z :=
  match s with
  | String a EmptyString =>
      match digit_val a with
      | Some x => if 1 <=? x then Some x else None
      | None => None
      end
  | String a (String b EmptyString) =>
      if Ascii.eqb a " "
      then match digit_val b with
           | Some x => if 1 <=? x then Some x else None
           | None => None
           end
      else match digits2 a b with
           | Some x => if (1 <=? x) && (x <=? 31) then Some x else None
           | None => None
           end
  | _ => None
  end.

(** The text before the first ["-"] and the text after it. *)
Fixpoint split_dash (s : string) : option (string * string) :=
  match s with
  | EmptyString => None
  | String c s' =>
      if Ascii.eqb c "-" then Some (EmptyString, s')
      else match split_dash s' with
           | Some (a, b) => Some (String c a, b)
           | None => None
           end
  end.

(** [datetime.strptime(s, "%Y-%m-%d")]; [None] is its [ValueError]. *)
Definition strptime_ymd (s : string) : option date :=
  match s with
  | String y1 (String y2 (String y3 (String y4 (String dash rest)))) =>
      match digits2 y1 y2, digits2 y3 y4, split_dash rest with
      | Some hi, Some lo, Some (mp, dp) =>
          match month_field mp, day_field dp with
          | Some m, Some d =>
              let y := 100 * hi + lo in
              if Ascii.eqb dash "-" && (1 <=? y) && (d <=? days_in_month y m)
              then Some (mkdate y m d) else None
          | _, _ => None
          end
      | _, _, _ => None
      end
  | _ => None
  end.

(** [sorted(l, key=len, reverse=True)]: a stable sort, so that keys of one
    length keep the order they have in [l]. *)
Fixpoint insert_by_len (x : string) (l : list string) : list string :=
  match l with
  | [] => [x]
  | y :: l' =>
      if (String.length x <? String.length y)%nat
      then y :: insert_by_len x l'
      else x :: l
  end.

Definition sorted_by_len_desc (l : list string) : list string :=
  fold_right insert_by_len [] l.

(** [enumerate(l)]. *)
Fixpoint enumerate_from {A} (i : nat) (l : list A) : list (nat * A) :=
  match l with
  | [] => []
  | x :: l' => (i, x) :: enumerate_from (S i) l'
  end.

Definition enumerate {A} (l : list A) : list (nat * A) := enumerate_from 0 l.

(** [d[k]] for a key known to be in [d]. *)
Definition dict_item (d : dict string) (k : string) : string :=
  match dict_lookup d k with
  | Some v => v
  | None => ""
  end.

Section FormatDate.

(** What the C library makes of a conversion that is not one of the portable
    ones below: given the date and the text after the ["%"], the output and
    how many characters the conversion takes, or [None] when Python raises
    [ValueError]. *)
Variable libc_directive : date -> string -> option (string * nat).

(** One conversion of [strftime], in the C locale; the year of ["%Y"] is
    written on four digits, as for the years from 1000 on. *)
Definition directive (dt : date) (rest : string) : option (string * nat) :=
  match rest with
  | String "b" _ => Some (abbrev (month_name (month dt)), 1%nat)
  | String "B" _ => Some (month_name (month dt), 1%nat)
  | String "m" _ => Some (pad2 (month dt), 1%nat)
  | String "A" _ => Some (day_name (weekday dt), 1%nat)
  | String "a" _ => Some (abbrev (day_name (weekday dt)), 1%nat)
  | String "d" _ => Some (pad2 (day dt), 1%nat)
  | String "Y" _ => Some (pad4 (year dt), 1%nat)
  | String "y" _ => Some (pad2 (year dt mod 100), 1%nat)
  | String "%" _ => Some ("%", 1%nat)
  | _ => libc_directive dt rest
  end.

(** [dt.strftime(fmt)]; [skip] counts the characters of the current
    conversion still to be dropped. *)
Fixpoint strftime_from (skip : nat) (dt : date) (fmt : string) : option string :=
  match fmt with
  | EmptyString => Some EmptyString
  | String c rest =>
      match skip with
      | S k => strftime_from k dt rest
      | O =>
          if Ascii.eqb c "%"
          then match directive dt rest with
               | Some (out, n) =>
                   option_map (String.append out) (strftime_from n dt rest)
               | None => None
               end
          else option_map (String c) (strftime_from 0 dt rest)
      end
  end.

Definition strftime (dt : date) (fmt : string) : option string :=
  strftime_from 0 dt fmt.

(** The dictionary [format_mapping], in the order of the source. *)
Definition format_mapping (dt : date) : dict string :=
  [ ("mmm", "%b"); ("mmmm", "%B"); ("mm", "%m"); ("m", "%-m");
    ("dddd", "%A"); ("ddd", "%a"); ("dd", "%d"); ("d", str_of_Z (day dt));
    ("yyyy", "%Y"); ("yyy", "%Y"); ("yy", "%y"); ("y", "%y") ].

Definition patterns (dt : date) : list string :=
  sorted_by_len_desc (map fst (format_mapping dt)).

Definition marker (i : nat) : string :=
  "@@" ++ str_of_Z (Z.of_nat i) ++ "@@".

(** The first loop: [temp_format] and [replacements] after the pattern of
    index [i]. *)
Definition mark_step (dt : date) (st : string * list (string * string))
    (ip : nat * string) : string * list (string * string) :=
  let '(temp_format, replacements) := st in
  let '(i, pattern) := ip in
  if contains pattern temp_format
  then (replace pattern (marker i) temp_format,
        (replacements ++ [(marker i, dict_item (format_mapping dt) pattern)])%list)
  else st.

Definition mark_patterns (dt : date) (date_format : string)
  : string * list (string * string) :=
  fold_left (mark_step dt) (enumerate (patterns dt)) (date_format, []).

(** The second loop. *)
Definition fill_markers (temp_format : string)
    (replacements : list (string * string)) : string :=
  fold_left (fun fmt mr => replace (fst mr) (snd mr) fmt)
            replacements temp_format.

Definition strftime_format (dt : date) (date_format : string) : string :=
  let '(temp_format, replacements) := mark_patterns dt date_format in
  fill_markers temp_format replacements.

(** [format_date]; the outer [None] is the [ValueError] of [strptime], which
    is raised outside the [try]. *)
Definition format_date (yyyy_mm_dd date_format : string) (capitalize : bool)
  : option string :=
  match strptime_ymd yyyy_mm_dd with
  | None => None
  | Some dt_obj =>
      match strftime dt_obj (strftime_format dt_obj date_format) with
      | Some result => Some (if capitalize then upper result else result)
      | None => Some yyyy_mm_dd
      end
  end.

End FormatDate.

(** The conversions of the GNU C library that the mapping relies on beyond
    the portable ones: ["%-m"], the month without padding.  Any other
    conversion is copied as it is. *)
Definition glibc_directive (dt : date) (rest : string) : option (string * nat) :=
  match rest with
  | String "-" (String "m" _) => Some (str_of_Z (month dt), 2%nat)
  | _ => Some ("%", 0%nat)
  end.

(** A C library that accepts the portable conversions only. *)
Definition strict_directive (dt : date) (rest : string) : option (string * nat) :=
  None.

(* ================================================================== *)
(** * Trailer selection *)
(* ================================================================== *)

(** One record of the search output: the keys [id], [title], [uploader] and
    [duration] of the JSON object, each of which may be missing or [null]. *)
Record VideoInfo := mkVideo {
  vi_id : option string;
  vi_title : option string;
  vi_uploader : option string;
  vi_duration : option Q
}.

(** One line of the standard output: a JSON object, or a line on which
    [json.loads] raises [JSONDecodeError]. *)
Inductive Line :=
| NotJson
| Json (info : VideoInfo).

(** What [subprocess.run] does for one search term: it raises
    [TimeoutExpired], it raises another exception, or it returns with a
    return code and the lines of the stripped standard output. *)
Inductive Run :=
| TimeoutExpired
| Failed
| Completed (returncode : Z) (stdout : list Line).

(** The dictionary [best]. *)
Record Trailer := mkTrailer {
  video_id : string;
  video_title : string;
  duration : string;
  uploader : string;
  url : string;
  is_official : bool
}.

Definition avoid_keywords : list string :=
  [ "reaction"; "review"; "breakdown"; "analysis"; "explained"; "easter eggs";
    "theory"; "predictions"; "recap"; "commentary"; "first time watching";
    "blind reaction"; "behind the scenes"; "fan made"; "concept";
    "music video"; "news"; "interview" ].

Definition official_channels : list string :=
  [ "netflix"; "hbo"; "max"; "amazon"; "prime video"; "disney"; "marvel";
    "lucasfilm"; "apple tv"; "paramount"; "showtime"; "starz"; "fx"; "amc";
    "peacock"; "universal"; "sony pictures"; "warner bros"; "20th century";
    "lionsgate"; "bbc"; "itv"; "channel 4"; "hulu" ].

(** [x or default] for an optional string. *)
Definition or_else (x : option string) (default : string) : string :=
  match x with
  | Some s => if String.eqb s "" then default else s
  | None => default
  end.

(** [year] as a truth value: [None] and [0] are falsy. *)
Definition year_known (year : option Z) : option Z :=
  match year with
  | Some y => if y =? 0 then None else Some y
  | None => None
  end.

(** The list [search_terms], the [None] entries removed. *)
Definition search_terms (show_title : string) (year : option Z) : list string :=
  app
    match year_known year with
    | Some y =>
        [ show_title ++ " " ++ str_of_Z y ++ " trailer";
          show_title ++ " " ++ str_of_Z y ++ " official trailer";
          show_title ++ " " ++ str_of_Z y ++ " teaser" ]
    | None => []
    end
    [ show_title ++ " trailer";
      show_title ++ " official trailer";
      show_title ++ " teaser";
      show_title ++ " official teaser";
      show_title ++ " first look" ].

(** [if dur and not (10 <= float(dur) <= 900): continue]. *)
Definition duration_rejects (dur : option Q) : bool :=
  match dur with
  | Some d => negb (Qeq_bool d 0) && negb (Qle_bool 10 d && Qle_bool d 900)
  | None => false
  end.

(** [skip_channels and any(ch.lower() in up.lower() for ch in skip_channels)]. *)
Definition channel_skipped (skip_channels : list string) (up : string) : bool :=
  existsb (fun ch => contains (lower ch) (lower up)) skip_channels.

Definition info_title (info : VideoInfo) : string := or_else (vi_title info) "".
Definition info_vid (info : VideoInfo) : string := or_else (vi_id info) "".
Definition info_up (info : VideoInfo) : string :=
  or_else (vi_uploader info) "Unknown".

(** The chain of [continue] statements: [true] when the candidate is
    dropped. *)
Definition rejected (show_title : string) (skip_channels : list string)
    (info : VideoInfo) : bool :=
  if String.eqb (info_title info) "" || String.eqb (info_vid info) "" then true
  else if channel_skipped skip_channels (info_up info) then true
  else if contains_any avoid_keywords (lower (info_title info)) then true
  else if duration_rejects (vi_duration info) then true
  else negb (_title_matches (info_title info) show_title).

Definition score (year : option Z) (info : VideoInfo) : Z :=
  let tl := lower (info_title info) in
  (if contains "official" tl then 3 else 0)
  + (if contains "trailer" tl then 2 else 0)
  + (if contains "teaser" tl then 1 else 0)
  + (if existsb (fun ch => contains ch (lower (info_up info))) official_channels
     then 3 else 0)
  + match year_known year with
    | Some y => if contains (str_of_Z y) tl then 2 else 0
    | None => 0
    end.

(** [int(dur)]: truncation towards zero. *)
Definition int_of_Q (q : Q) : Z := Z.quot (Qnum q) (Zpos (Qden q)).

Definition duration_str (dur : option Q) : string :=
  let d := match dur with Some q => int_of_Q q | None => 0 end in
  if d =? 0 then "Unknown"
  else str_of_Z (d / 60) ++ ":" ++ pad2 (d mod 60).

Definition trailer_of (info : VideoInfo) : Trailer :=
  {| video_id := info_vid info;
     video_title := info_title info;
     duration := duration_str (vi_duration info);
     uploader := info_up info;
     url := "https://www.youtube.com/watch?v=" ++ info_vid info;
     is_official := true |}.

Definition is_nil {A} (l : list A) : bool :=
  match l with
  | [] => true
  | _ => false
  end.

(** The running pair [(best, best_score)]. *)
Definition Best : Type := option Trailer * Z.

(** The body of the inner loop, for one line of output. *)
Definition examine (show_title : string) (year : option Z)
    (skip_channels : list string) (st : Best) (line : Line) : Best :=
  match line with
  | NotJson => st
  | Json info =>
      if rejected show_title skip_channels info then st
      else if snd st <? score year info
           then (Some (trailer_of info), score year info)
           else st
  end.

(** The body of the outer loop, for one search term; [yt_search] is the
    search backend. *)
Definition try_term (yt_search : string -> Run) (show_title : string)
    (year : option Z) (skip_channels : list string) (st : Best)
    (term : string) : Best :=
  match yt_search term with
  | TimeoutExpired => st
  | Failed => st
  | Completed returncode stdout =>
      if negb (returncode =? 0) || is_nil stdout then st
      else fold_left (examine show_title year skip_channels) stdout st
  end.

(** [search_trailer_on_youtube]; the arguments [imdb_id], which the function
    does not use, and [debug], which only prints, are left out. *)
Definition search_trailer_on_youtube (yt_search : string -> Run)
    (show_title : string) (year : option Z) (skip_channels : list string)
  : option Trailer :=
  fst (fold_left (try_term yt_search show_title year skip_channels)
                 (search_terms show_title year) (None, -1)).

(* ================================================================== *)
(** * Air-window filter *)
(* ================================================================== *)

(** A series of the tracker.  [id] and [title] are read with [series[...]],
    the other keys with [series.get(...)]. *)
Record Series := mkSeries {
  id : Z;
  title : string;
  status : option string;
  monitored : option bool;
  tvdbId : option Z;
  imdbId : option string;
  series_year : option Z;
  path : option string
}.

Record Episode := mkEpisode {
  seasonNumber : option Z;
  episodeNumber : option Z;
  airDateUtc : option string
}.

(** The dictionary [show_dict]. *)
Record Show := mkShow {
  show_title : string;
  show_tvdbId : option Z;
  show_path : string;
  show_imdbId : string;
  show_year : option Z;
  airDate : string
}.

(** The process: the readings that the clock will give, in microseconds
    since the epoch, and how many have been taken. *)
Record World := mkWorld {
  clock : nat -> Z;
  reads : nat
}.

Inductive Exc :=
| ValueError.

(** Computations that read the clock and may raise. *)
Definition M (A : Type) : Type := World -> (A + Exc) * World.

Definition ret {A} (a : A) : M A := fun w => (inl a, w).

Definition raise {A} (e : Exc) : M A := fun w => (inr e, w).

Definition bind {A B} (m : M A) (k : A -> M B) : M B :=
  fun w =>
    match m w with
    | (inl a, w') => k a w'
    | (inr e, w') => (inr e, w')
    end.

Notation "x <- m ;; k" := (bind m (fun x => k))
  (at level 61, m at next level, right associativity).

(** [datetime.now(timezone.utc)]. *)
Definition datetime_now : M Z :=
  fun w => (inl (clock w (reads w)), mkWorld (clock w) (S (reads w))).

(** A [for] loop that threads an accumulator. *)
Fixpoint for_each {A S} (l : list A) (body : S -> A -> M S) (acc : S) : M S :=
  match l with
  | [] => ret acc
  | x :: l' => acc' <- body acc x ;; for_each l' body acc'
  end.

Definition eq_some (x : option Z) (n : Z) : bool :=
  match x with
  | Some v => v =? n
  | None => false
  end.

(** The inner loop with its [break]: the first episode 1 of season 1. *)
Definition first_episode (episodes : list Episode) : option Episode :=
  find (fun ep => eq_some (seasonNumber ep) 1 && eq_some (episodeNumber ep) 1)
       episodes.

Section AirWindow.

(** [datetime.fromisoformat], read as microseconds since the epoch of the
    wall-clock time that the text gives; [None] is its [ValueError]. *)
Variable fromisoformat : string -> option Z.

(** [convert_utc_to_local]; the outer [None] of the result is Python's. *)
Definition convert_utc_to_local (utc_date_str : option string) (utc_offset : Q)
  : M (option Z) :=
  match utc_date_str with
  | None => ret None
  | Some EmptyString => ret None
  | Some str =>
      let clean_date_str := replace "Z" "" str in
      match fromisoformat clean_date_str with
      | None => raise ValueError
      | Some utc_date => ret (Some (utc_date + timedelta_hours utc_offset))
      end
  end.

(** The tracker: the answer of [get_sonarr_series] and, for a series id, the
    answer of [get_sonarr_episodes]. *)
Record Tracker := mkTracker {
  all_series : list Series;
  episodes_of : Z -> list Episode
}.

(** The body of the loop over [all_series]. *)
Definition visit_series (sonarr : Tracker) (cutoff_date now_local : Z)
    (utc_offset : Q) (skip_unmonitored : bool)
    (upcoming_shows : list Show) (series : Series) : M (list Show) :=
  if match status series with
     | Some s => String.eqb s "upcoming"
     | None => false
     end
  then
    if skip_unmonitored
       && negb match monitored series with Some b => b | None => true end
    then ret upcoming_shows
    else
      let episodes := episodes_of sonarr (id series) in
      match first_episode episodes with
      | None => ret upcoming_shows
      | Some ep =>
          match airDateUtc ep with
          | None => ret upcoming_shows
          | Some EmptyString => ret upcoming_shows
          | Some air_date_str =>
              local <- convert_utc_to_local (Some air_date_str) utc_offset ;;
              match local with
              | None => ret upcoming_shows (* not reached: the text is truthy *)
              | Some air_date =>
                  if (now_local <? air_date) && (air_date <=? cutoff_date)
                  then
                    ret (upcoming_shows ++
                         [ {| show_title := title series;
                              show_tvdbId := tvdbId series;
                              show_path :=
                                match path series with
                                | Some p => p
                                | None => ""
                                end;
                              show_imdbId :=
                                match imdbId series with
                                | Some i => i
                                | None => ""
                                end;
                              show_year := series_year series;
                              airDate :=
                                isoformat (date_of_instant air_date) |} ])%list
                  else ret upcoming_shows
              end
          end
      end
  else ret upcoming_shows.

(** The first two statements of [find_upcoming_shows]: the pair
    [(cutoff_date, now_local)]. *)
Definition air_window (future_days_upcoming_shows : Z) (utc_offset : Q)
  : M (Z * Z) :=
  t1 <- datetime_now ;;
  let cutoff_date := t1 + timedelta_days future_days_upcoming_shows in
  t2 <- datetime_now ;;
  let now_local := t2 + timedelta_hours utc_offset in
  ret (cutoff_date, now_local).

(** [find_upcoming_shows], without the printing of [debug]. *)
Definition find_upcoming_shows (sonarr : Tracker)
    (future_days_upcoming_shows : Z) (utc_offset : Q)
    (skip_unmonitored : bool) : M (list Show * list Show) :=
  let skipped_shows : list Show := [] in
  window <- air_window future_days_upcoming_shows utc_offset ;;
  upcoming_shows <-
    for_each (all_series sonarr)
             (visit_series sonarr (fst window) (snd window) utc_offset
                           skip_unmonitored) [] ;;
  ret (upcoming_shows, skipped_shows).

End AirWindow.

(* ================================================================== *)
(** * Collection document *)
(* ================================================================== *)

(** [sorted(l)] for a list of [int]. *)
Fixpoint insert_Z (x : Z) (l : list Z) : list Z :=
  match l with
  | [] => [x]
  | y :: l' => if x <=? y then x :: l else y :: insert_Z x l'
  end.

Definition sorted_Z (l : list Z) : list Z := fold_right insert_Z [] l.

(** [s.get('tvdbId')] as a truth value. *)
Definition truthy_id (x : option Z) : option Z :=
  match x with
  | Some n => if n =? 0 then None else Some n
  | None => None
  end.

(** [[s['tvdbId'] for s in shows if s.get('tvdbId')]]. *)
Fixpoint tvdb_ids_of (shows : list Show) : list Z :=
  match shows with
  | [] => []
  | s :: shows' =>
      match truthy_id (show_tvdbId s) with
      | Some n => n :: tvdb_ids_of shows'
      | None => tvdb_ids_of shows'
      end
  end.

Section Collection.

(** The values of the settings file, and [str] on them. *)
Variable Value : Type.
Variable str_of_value : Value -> string.

(** What is handed to [yaml.dump]: a value of the settings as it is, a
    string, a [QuotedString] (written between double quotes), a boolean or a
    mapping in the order of its items. *)
#[warnings="-register-all"]
Inductive node :=
| Plain (v : Value)
| Str (s : string)
| Quoted (s : string)
| Flag (b : bool)
| Map (items : list (node * node)).

(** A mapping with string keys. *)
Definition map_node (d : dict node) : node :=
  Map (map (fun kv => (Str (fst kv), snd kv)) d).

(** The keys of the settings that the function reads. *)
Record Config := mkConfig {
  future_days_upcoming_shows : option Value;
  collection_upcoming_shows : option (dict Value)
}.

(** The loop that copies [collection_config] into [collection_data]. *)
Definition copy_config (collection_config : dict Value)
    (collection_data : dict node) : dict node :=
  fold_left
    (fun data kv =>
       if String.eqb (fst kv) "sort_title"
       then dict_set (fst kv) (Quoted (str_of_value (snd kv))) data
       else dict_set (fst kv) (Plain (snd kv)) data)
    collection_config collection_data.

Definition reserved_keys : list string :=
  ["summary"; "sort_title"; "sync_mode"; "tvdb_show"].

Definition is_reserved (k : string) : bool :=
  existsb (String.eqb k) reserved_keys.

(** The loop that copies the other keys into [ordered_collection]. *)
Definition copy_others (collection_data ordered_collection : dict node)
  : dict node :=
  fold_left
    (fun ordered kv =>
       if negb (is_reserved (fst kv))
       then dict_set (fst kv) (snd kv) ordered
       else ordered)
    collection_data ordered_collection.

Definition lookup_node (d : dict node) (k : string) : node :=
  match dict_lookup d k with
  | Some v => v
  | None => Str ""
  end.

(** [ordered_collection], from the settings section without its
    [collection_name]. *)
Definition ordered_collection_of (collection_config : dict Value)
    (summary tvdb_ids_str : string) : dict node :=
  let collection_data := [("summary", Str summary)] in
  let collection_data := copy_config collection_config collection_data in
  let collection_data := dict_set "sync_mode" (Str "sync") collection_data in
  let collection_data := dict_set "tvdb_show" (Str tvdb_ids_str) collection_data in
  let ordered := [] in
  let ordered := dict_set "summary" (lookup_node collection_data "summary") ordered in
  let ordered :=
    if dict_has collection_data "sort_title"
    then dict_set "sort_title" (lookup_node collection_data "sort_title") ordered
    else ordered in
  let ordered := copy_others collection_data ordered in
  let ordered := dict_set "sync_mode" (lookup_node collection_data "sync_mode") ordered in
  dict_set "tvdb_show" (lookup_node collection_data "tvdb_show") ordered.

Definition collection_name_of (config : Config) : node :=
  match collection_upcoming_shows config with
  | Some section =>
      match dict_lookup section "collection_name" with
      | Some v => Plain v
      | None => Str "Upcoming Shows"
      end
  | None => Str "Upcoming Shows"
  end.

Definition collection_config_of (config : Config) : dict Value :=
  match collection_upcoming_shows config with
  | Some section => dict_remove "collection_name" section
  | None => []
  end.

Definition summary_of (config : Config) : string :=
  "Shows with their first episode premiering within "
  ++ match future_days_upcoming_shows config with
     | Some v => str_of_value v
     | None => "30"
     end
  ++ " days".

Definition tvdb_ids_str_of (tvdb_ids : list Z) : string :=
  join ", " (map str_of_Z (sorted_Z tvdb_ids)).

(** [create_collection_yaml]: the value [data] that is dumped to the file. *)
Definition create_collection_yaml (shows : list Show) (config : Config) : node :=
  let collection_name := collection_name_of config in
  let collection_config := collection_config_of config in
  let summary := summary_of config in
  let label :=
    (Str "plex_search",
     Map [(Str "all", Map [(Str "label", collection_name)])]) in
  if is_nil shows
  then
    Map [(Str "collections",
          Map [(collection_name,
                Map [ label;
                      (Str "item_label.remove", collection_name);
                      (Str "smart_label", Str "random");
                      (Str "build_collection", Flag false) ])])]
  else
    let tvdb_ids := tvdb_ids_of shows in
    if is_nil tvdb_ids
    then
      Map [(Str "collections",
            Map [(collection_name,
                  Map [ label;
                        (Str "non_item_remove_label", collection_name);
                        (Str "build_collection", Flag false) ])])]
    else
      let tvdb_ids_str := tvdb_ids_str_of tvdb_ids in
      let ordered_collection :=
        ordered_collection_of collection_config summary tvdb_ids_str in
      Map [(Str "collections",
            Map [(collection_name, map_node ordered_collection)])].

End Collection.

Arguments Plain {Value} v.
Arguments Str {Value} s.
Arguments Quoted {Value} s.
Arguments Flag {Value} b.
Arguments Map {Value} items.
Arguments map_node {Value} d.
Arguments mkConfig {Value} _ _.
Arguments future_days_upcoming_shows {Value} _.
Arguments collection_upcoming_shows {Value} _.
Arguments copy_config {Value} str_of_value collection_config collection_data.
Arguments copy_others {Value} collection_data ordered_collection.
Arguments lookup_node {Value} d k.
Arguments ordered_collection_of {Value} str_of_value collection_config
  summary tvdb_ids_str.
Arguments collection_name_of {Value} config.
Arguments collection_config_of {Value} config.
Arguments summary_of {Value} str_of_value config.
Arguments create_collection_yaml {Value} str_of_value shows config.

(* ================================================================== *)
(** * The statements of the specification *)
(* ================================================================== *)

(** ** Air window *)

Definition is_upcoming (s : Series) : bool :=
  match status s with
  | Some st => String.eqb st "upcoming"
  | None => false
  end.

(** A missing [monitored] flag counts as monitored. *)
Definition is_monitored (s : Series) : bool :=
  match monitored s with
  | Some b => b
  | None => true
  end.

(** The local air instant of an episode: its UTC instant plus the offset,
    when the time stamp is present. *)
Definition air_instant (fromisoformat : string -> option Z) (utc_offset : Q)
    (ep : Episode) : option Z :=
  match airDateUtc ep with
  | Some str =>
      if String.eqb str "" then None
      else option_map (fun t => t + timedelta_hours utc_offset)
                      (fromisoformat (replace "Z" "" str))
  | None => None
  end.

(** The local air instant of the first episode 1 of season 1 of a series. *)
Definition premiere (fromisoformat : string -> option Z) (sonarr : Tracker)
    (utc_offset : Q) (s : Series) : option Z :=
  match first_episode (episodes_of sonarr (id s)) with
  | Some ep => air_instant fromisoformat utc_offset ep
  | None => None
  end.

(** The condition of the specification for a series to give a show. *)
Definition qualifies (fromisoformat : string -> option Z) (sonarr : Tracker)
    (cutoff now_local : Z) (utc_offset : Q) (skip_unmonitored : bool)
    (s : Series) : bool :=
  is_upcoming s
  && (negb skip_unmonitored || is_monitored s)
  && match premiere fromisoformat sonarr utc_offset s with
     | Some t => (now_local <? t) && (t <=? cutoff)
     | None => false
     end.

(** The show of a series that qualifies. *)
Definition show_of (fromisoformat : string -> option Z) (sonarr : Tracker)
    (utc_offset : Q) (s : Series) : Show :=
  {| show_title := title s;
     show_tvdbId := tvdbId s;
     show_path := match path s with Some p => p | None => "" end;
     show_imdbId := match imdbId s with Some i => i | None => "" end;
     show_year := series_year s;
     airDate :=
       match premiere fromisoformat sonarr utc_offset s with
       | Some t => isoformat (date_of_instant t)
       | None => ""
       end |}.

(** Every time stamp of the tracker that is not empty is one that
    [fromisoformat] reads. *)
Definition timestamp_ok (fromisoformat : string -> option Z) (ep : Episode)
  : bool :=
  match airDateUtc ep with
  | Some str =>
      String.eqb str ""
      || match fromisoformat (replace "Z" "" str) with
         | Some _ => true
         | None => false
         end
  | None => true
  end.

Definition well_formed (fromisoformat : string -> option Z) (sonarr : Tracker)
  : bool :=
  forallb (fun s => forallb (timestamp_ok fromisoformat)
                            (episodes_of sonarr (id s)))
          (all_series sonarr).

(** A reader of the texts [YYYY-MM-DDTHH:MM:SS], enough for the examples. *)
Definition fromisoformat_seconds (s : string) : option Z :=
  match strptime_ymd (String.substring 0 10 s), String.substring 10 9 s with
  | Some d,
    String "T" (String h1 (String h2 (String ":" (String m1 (String m2
      (String ":" (String s1 (String s2 EmptyString)))))))) =>
      match digits2 h1 h2, digits2 m1 m2, digits2 s1 s2 with
      | Some h, Some m, Some sec =>
          if (String.length s =? 19)%nat
          then Some (((toordinal d - epoch_ordinal) * 86400
                      + h * 3600 + m * 60 + sec) * 1000000)
          else None
      | _, _, _ => None
      end
  | _, _ => None
  end.

(** ** Duration filter *)

(** The filter as the specification words it: a known duration outside
    [[10, 900]] is rejected, whatever its value. *)
Definition spec_duration_rejects (dur : option Q) : bool :=
  match dur with
  | Some d => negb (Qle_bool 10 d && Qle_bool d 900)
  | None => false
  end.

(** ** Sample data *)

(** A clock that advances by one microsecond from one reading to the next. *)
Definition ticking_world : World := mkWorld (fun n => Z.of_nat n) 0.

(** A clock that stands still. *)
Definition frozen_world : World := mkWorld (fun _ => 0) 0.

Definition sample_series : list Series :=
  [ mkSeries 1 "Foo" (Some "upcoming") None (Some 77) None (Some 2025)
             (Some "/tv/Foo");
    mkSeries 2 "Bar" (Some "upcoming") (Some false) (Some 78) None (Some 2025)
             (Some "/tv/Bar");
    mkSeries 3 "Baz" (Some "continuing") (Some true) (Some 79) None
             (Some 2025) (Some "/tv/Baz") ].

Definition sample_episodes (series_id : Z) : list Episode :=
  [ mkEpisode (Some 1) (Some 2) None;
    mkEpisode (Some 1) (Some 1) (Some "1970-01-02T23:30:00Z") ].

Definition sample_tracker : Tracker := mkTracker sample_series sample_episodes.

(** ** Trailer selection *)

(** The lines that a search contributes: those of a run that returned with
    code 0. *)
Definition lines_of (r : Run) : list Line :=
  match r with
  | Completed returncode stdout => if returncode =? 0 then stdout else []
  | _ => []
  end.

(** The candidates among the lines. *)
Fixpoint infos (lines : list Line) : list VideoInfo :=
  match lines with
  | [] => []
  | NotJson :: lines' => infos lines'
  | Json info :: lines' => info :: infos lines'
  end.

(** The candidate stream of a show: the candidates of every query variant,
    variant after variant. *)
Definition candidate_stream (yt_search : string -> Run) (show_title : string)
    (year : option Z) : list VideoInfo :=
  flat_map (fun term => infos (lines_of (yt_search term)))
           (search_terms show_title year).

(** The candidates that survive the filters. *)
Definition survivors (yt_search : string -> Run) (show_title : string)
    (year : option Z) (skip_channels : list string) : list VideoInfo :=
  filter (fun info => negb (rejected show_title skip_channels info))
         (candidate_stream yt_search show_title year).

(** The first element of [l] among those of greatest [f]. *)
Fixpoint argmax_first {A} (f : A -> Z) (l : list A) : option A :=
  match l with
  | [] => None
  | x :: l' =>
      match argmax_first f l' with
      | Some y => if f x <? f y then Some y else Some x
      | None => Some x
      end
  end.

(** The running best of a scan from left to right, which only a strictly
    greater value replaces. *)
Definition keep_best {A} (f : A -> Z) (cur x : A) : A :=
  if f cur <? f x then x else cur.

Definition take_better {A} (f : A -> Z) (cur : option A) (x : A) : option A :=
  match cur with
  | Some c => Some (keep_best f c x)
  | None => Some x
  end.

(** The pair [(best, best_score)] when the running best is the candidate
    [cur]. *)
Definition running (year : option Z) (cur : option VideoInfo) : Best :=
  match cur with
  | Some c => (Some (trailer_of c), score year c)
  | None => (None, -1)
  end.

(** A backend that answers the query ["Foo trailer"] only. *)
Definition sample_search (term : string) : Run :=
  if String.eqb term "Foo trailer"
  then Completed 0
         [ Json (mkVideo (Some "a2") (Some "Foo Trailer reaction") (Some "Joe")
                         (Some (120 # 1)%Q));
           NotJson;
           Json (mkVideo (Some "a3") (Some "Foo (2025) Teaser") None
                         (Some 0%Q));
           Json (mkVideo (Some "a1") (Some "Foo Official Trailer")
                         (Some "Netflix") (Some (120 # 1)%Q)) ]
  else Failed.

(** ** Collection document *)

Section CollectionStatements.

Context {Value : Type} (str_of_value : Value -> string).

(** What [copy_config] stores for an item of the settings. *)
Definition stored_item (kv : string * Value) : node Value :=
  if String.eqb (fst kv) "sort_title"
  then Quoted (str_of_value (snd kv))
  else Plain (snd kv).

(** The items [sort_title] of the body, when the settings have the key. *)
Definition sort_title_items (collection_config : dict Value)
  : dict (node Value) :=
  match dict_lookup collection_config "sort_title" with
  | Some v => [("sort_title", Quoted (str_of_value v))]
  | None => []
  end.

Definition plain_items (d : dict Value) : dict (node Value) :=
  map (fun kv => (fst kv, Plain (snd kv))) d.

(** The body of the collection as the specification words it: the templated
    summary, [sort_title], every other key of the settings, [sync_mode],
    [tvdb_show]. *)
Definition claimed_body (collection_config : dict Value)
    (summary tvdb_ids_str : string) : dict (node Value) :=
  ([("summary", Str summary)]
   ++ sort_title_items collection_config
   ++ plain_items
        (filter (fun kv => negb (String.eqb (fst kv) "sort_title"))
                collection_config)
   ++ [("sync_mode", Str "sync"); ("tvdb_show", Str tvdb_ids_str)])%list.

(** The body as the code builds it: a [summary] of the settings replaces the
    templated one, and the keys [summary], [sync_mode] and [tvdb_show] of the
    settings are not copied among the other keys. *)
Definition built_body (collection_config : dict Value)
    (summary tvdb_ids_str : string) : dict (node Value) :=
  ([("summary",
     match dict_lookup collection_config "summary" with
     | Some v => Plain v
     | None => Str summary
     end)]
   ++ sort_title_items collection_config
   ++ plain_items
        (filter (fun kv => negb (is_reserved (fst kv))) collection_config)
   ++ [("sync_mode", Str "sync"); ("tvdb_show", Str tvdb_ids_str)])%list.

(** The document around a body: [collections: {name: body}]. *)
Definition collection_document (config : Config Value)
    (body : dict (node Value)) : node Value :=
  Map [(Str "collections",
        Map [(collection_name_of config, map_node body)])].

(** The section [collection_upcoming_shows] of the settings. *)
Definition section_of (config : Config Value) : dict Value :=
  match collection_upcoming_shows config with
  | Some section => section
  | None => []
  end.

End CollectionStatements.

(** Settings whose collection section gives a [summary] of its own. *)
Definition sample_config : Config string :=
  mkConfig (Some "14")
           (Some [ ("collection_name", "Soon"); ("summary", "Mine");
                   ("sort_title", "+1_Soon"); ("collection_order", "custom") ]).

Definition sample_shows : list Show :=
  [ mkShow "Foo" (Some 77) "/tv/Foo" "" (Some 2025) "2025-03-07";
    mkShow "Bar" None "/tv/Bar" "" None "2025-03-08";
    mkShow "Baz" (Some 5) "/tv/Baz" "" None "2025-03-08" ].

(** ** Date formatting *)

(** The letters that the tokens of the date mini-language are made of. *)
Definition token_char (c : ascii) : bool :=
  Ascii.eqb c "m" || Ascii.eqb c "d" || Ascii.eqb c "y".

Fixpoint all_chars (p : ascii -> bool) (s : string) : bool :=
  match s with
  | EmptyString => true
  | String c s' => p c && all_chars p s'
  end.

(** The value of each token, by the table of the specification: the full
    and the abbreviated name of the month, the month on two digits and
    without padding, the full and the abbreviated name of the day of the week,
    the day on two digits and without padding, the year on four digits (twice)
    and on two digits (twice). *)
Definition token_values (dt : date) : dict string :=
  [ ("mmmm", month_name (month dt));
    ("mmm", abbrev (month_name (month dt)));
    ("mm", pad2 (month dt));
    ("m", str_of_Z (month dt));
    ("dddd", day_name (weekday dt));
    ("ddd", abbrev (day_name (weekday dt)));
    ("dd", pad2 (day dt));
    ("d", str_of_Z (day dt));
    ("yyyy", pad4 (year dt));
    ("yyy", pad4 (year dt));
    ("yy", pad2 (year dt mod 100));
    ("y", pad2 (year dt mod 100)) ].

(** The substitution of the tokens as the specification words it: the
    pattern is read from left to right, the longest token that starts at a
    place is replaced by its value, and any other character is kept. *)
Fixpoint substitute_tokens (skip : nat) (dt : date) (s : string) : string :=
  match s with
  | EmptyString => EmptyString
  | String c s' =>
      match skip with
      | S k => substitute_tokens k dt s'
      | O =>
          match find (fun p => String.prefix p s) (patterns dt) with
          | Some p =>
              dict_item (token_values dt) p
              ++ substitute_tokens (String.length p - 1) dt s'
          | None => String c (substitute_tokens 0 dt s')
          end
      end
  end.

Definition spec_format_date (yyyy_mm_dd date_format : string)
    (capitalize : bool) : option string :=
  match strptime_ymd yyyy_mm_dd with
  | Some dt =>
      let result := substitute_tokens 0 dt date_format in
      Some (if capitalize then upper result else result)
  | None => None
  end.

(** The lengths of a list of strings never increase. *)
Fixpoint longest_first (l : list string) : bool :=
  match l with
  | [] => true
  | x :: l' =>
      forallb (fun y => (String.length y <=? String.length x)%nat) l'
      && longest_first l'
  end.

(** ** Base title *)

(** A year token ([(dddd)], [[dddd]] and the like) occurs somewhere in [s]. *)
Fixpoint has_year_token (s : string) : bool :=
  match s with
  | EmptyString => false
  | String _ s' =>
      match year_token s with
      | Some _ => true
      | None => has_year_token s'
      end
  end.

(** The base title as the specification words it: a year token that ends
    the title is dropped, and nothing else changes. *)
Fixpoint spec_base_title (s : string) : string :=
  match s with
  | EmptyString => EmptyString
  | String c s' =>
      match year_token s with
      | Some EmptyString => EmptyString
      | _ => String c (spec_base_title s')
      end
  end.

(** ** Calendar dates *)

(** A date of the calendar, in the range of [datetime]. *)
Definition valid_date (d : date) : bool :=
  (1 <=? year d) && (year d <=? 9999)
  && (1 <=? month d) && (month d <=? 12)
  && (1 <=? day d) && (day d <=? days_in_month (year d) (month d)).

(** The four digits of [pad4 y] read back as [y]. *)
Definition pad4_reads_back (y : Z) : bool :=
  match pad4 y with
  | String a (String b (String c (String e EmptyString))) =>
      match digits2 a b, digits2 c e with
      | Some hi, Some lo => (hi =? y / 100) && (lo =? y mod 100)
      | _, _ => false
      end
  | _ => false
  end.

(** [pad2 n] has no dash and reads back as [n], as a month or as a day. *)
Definition pad2_reads_back (field : string -> option Z) (n : Z) : bool :=
  all_chars (fun c => negb (Ascii.eqb c "-")) (pad2 n)
  && match field (pad2 n) with
     | Some v => v =? n
     | None => false
     end.

(** The integers from [first] to [last]. *)
Definition Z_range (first last : Z) : list Z :=
  map (fun i => first + Z.of_nat i) (seq 0 (Z.to_nat (last - first + 1))).

(* ================================================================== *)
(** * Further statements: the title matcher *)
(* ================================================================== *)

(** Every white space of [s] is one space followed by a character of
    [[a-z0-9]], and every other character is of [[a-z0-9]]. *)
Fixpoint single_spaced (s : string) : bool :=
  match s with
  | EmptyString => true
  | String c s' =>
      if is_norm_char c then single_spaced s'
      else Ascii.eqb c " "
           && match s' with
              | String d _ => is_norm_char d
              | EmptyString => false
              end
           && single_spaced s'
  end.

(** The texts that [_normalize] returns: words of [[a-z0-9]] separated by
    one space. *)
Definition normal_form (s : string) : bool :=
  match s with
  | EmptyString => true
  | String c _ => is_norm_char c
  end && single_spaced s.

(** As [single_spaced], but a space may end the text. *)
Fixpoint loosely_spaced (s : string) : bool :=
  match s with
  | EmptyString => true
  | String c s' =>
      if is_norm_char c then loosely_spaced s'
      else Ascii.eqb c " "
           && match s' with
              | String d _ => is_norm_char d
              | EmptyString => true
              end
           && loosely_spaced s'
  end.

(** The text is empty or starts with a character of [[a-z0-9]]. *)
Definition starts_normal (s : string) : bool :=
  match s with
  | EmptyString => true
  | String c _ => is_norm_char c
  end.

(** A letter or a digit of ASCII. *)
Definition isalnum (c : ascii) : bool := is_norm_char (lower_char c).

(* ================================================================== *)
(** * The settings read by [main] *)
(* ================================================================== *)

(** [s.split(',')]: the texts between the commas, at least one. *)
Fixpoint split_comma (s : string) : list string :=
  match s with
  | EmptyString => [EmptyString]
  | String c s' =>
      if Ascii.eqb c ","
      then EmptyString :: split_comma s'
      else match split_comma s' with
           | [] => [String c EmptyString]
           | x :: l => String c x :: l
           end
  end.

(** [[ch.strip() for ch in skip_channels.split(',') if ch.strip()]], what
    [main] makes of a [skip_channels] given as one text. *)
Definition parse_skip_channels (skip_channels : string) : list string :=
  map strip
      (filter (fun ch => negb (String.eqb (strip ch) ""))
              (split_comma skip_channels)).

(* ================================================================== *)
(** * The address of the tracker *)
(* ================================================================== *)

(** [s.rstrip('/')]. *)
Fixpoint rstrip_slash (s : string) : string :=
  match s with
  | EmptyString => EmptyString
  | String c s' =>
      match rstrip_slash s' with
      | EmptyString => if Ascii.eqb c "/" then EmptyString else String c EmptyString
      | r => String c r
      end
  end.

(** The text from the index [n] on. *)
Fixpoint drop (n : nat) (s : string) : string :=
  match n, s with
  | O, _ => s
  | S n', String _ s' => drop n' s'
  | S _, EmptyString => EmptyString
  end.

(** The first index from [i] on at which [sub] occurs, where [s] is the text
    from the index [i] on. *)
Fixpoint find_at (sub s : string) (i : nat) : option nat :=
  if String.prefix sub s then Some i
  else match s with
       | EmptyString => None
       | String _ s' => find_at sub s' (S i)
       end.

(** [s.find(sub, start)] for a [sub] that is not empty: the index, or [-1]. *)
Definition str_find (sub s : string) (start : nat) : Z :=
  match find_at sub (drop start s) start with
  | Some i => Z.of_nat i
  | None => -1
  end.

(** The first statements of [process_sonarr_url]: the address without its
    trailing slashes and, when it starts with [http], without what follows
    the host. *)
Definition trim_base_url (base_url : string) : string :=
  let base_url := rstrip_slash base_url in
  if String.prefix "http" base_url
  then
    let protocol_end := str_find "://" base_url 0 + 3 in
    let next_slash := str_find "/" base_url (Z.to_nat protocol_end) in
    if negb (next_slash =? -1)
    then String.substring 0 (Z.to_nat next_slash) base_url
    else base_url
  else base_url.

(** What [requests.get] does: a response with its status code, or a
    [RequestException]. *)
Inductive Response :=
| Status (status_code : Z)
| RequestException.

Definition api_paths : list string := ["/api/v3"; "/sonarr/api/v3"].

(** The loop over [api_paths]; [None] when it ends without a [return]. *)
Fixpoint probe_paths (http_get : string -> Response) (base_url : string)
    (paths : list string) : option string :=
  match paths with
  | [] => None
  | path :: paths' =>
      let test_url := base_url ++ path in
      match http_get (test_url ++ "/health") with
      | Status status_code =>
          if status_code =? 200 then Some test_url
          else probe_paths http_get base_url paths'
      | RequestException => probe_paths http_get base_url paths'
      end
  end.

Inductive UrlError :=
| ConnectionError.

(** [process_sonarr_url]; [http_get] answers for the key of the call. *)
Definition process_sonarr_url (http_get : string -> Response)
    (base_url : string) : string + UrlError :=
  match probe_paths http_get (trim_base_url base_url) api_paths with
  | Some test_url => inl test_url
  | None => inr ConnectionError
  end.

(** The characters that a host, and a scheme, are made of. *)
Definition not_slash (c : ascii) : bool := negb (Ascii.eqb c "/").
Definition not_colon (c : ascii) : bool := negb (Ascii.eqb c ":").

(* ================================================================== *)
(** * Overlay document *)
(* ================================================================== *)

(** [sorted(l)] for a list of [str]. *)
Fixpoint insert_str (x : string) (l : list string) : list string :=
  match l with
  | [] => [x]
  | y :: l' => if String.leb x y then x :: l else y :: insert_str x l'
  end.

Definition sorted_str (l : list string) : list string :=
  fold_right insert_str [] l.

(** [s.add(x)] on a set of [int], kept as a list without repetition. *)
Definition set_add (x : Z) (s : list Z) : list Z :=
  if existsb (Z.eqb x) s then s else (s ++ [x])%list.

(** [d[k].append(v)] on a [defaultdict(list)]. *)
Definition dict_append {V} (k : string) (v : V) (d : dict (list V))
  : dict (list V) :=
  match dict_lookup d k with
  | Some l => dict_set k (l ++ [v])%list d
  | None => dict_set k [v] d
  end.

(** The body of the loop that groups the shows: [all_tvdb_ids] and
    [date_to_tvdb_ids] after one show. *)
Definition group_step (st : list Z * dict (list (option Z))) (s : Show)
  : list Z * dict (list (option Z)) :=
  let '(all_tvdb_ids, date_to_tvdb_ids) := st in
  let all_tvdb_ids :=
    match truthy_id (show_tvdbId s) with
    | Some n => set_add n all_tvdb_ids
    | None => all_tvdb_ids
    end in
  let date_to_tvdb_ids :=
    if negb (String.eqb (airDate s) "")
    then dict_append (airDate s) (show_tvdbId s) date_to_tvdb_ids
    else date_to_tvdb_ids in
  (all_tvdb_ids, date_to_tvdb_ids).

(** [[x for x in l if x]] for a list of [int] or [None]. *)
Fixpoint truthy_ids (l : list (option Z)) : list Z :=
  match l with
  | [] => []
  | x :: l' =>
      match truthy_id x with
      | Some n => n :: truthy_ids l'
      | None => truthy_ids l'
      end
  end.

(** What the function leaves in the output file. *)
Inductive Written (node : Type) :=
| Text (content : string)
| Dump (data : node).

Arguments Text {node} content.
Arguments Dump {node} data.

(** What the function may raise: the [ValueError] of [strptime], and the
    [TypeError] (or [AttributeError]) of a [date_format] that is not a
    [str]. *)
Inductive OverlayError :=
| DateValueError
| FormatTypeError.

Section Overlay.

Variable libc_directive : Calendar.date -> string -> option (string * nat).

(** The values of the settings file, with [str], [bool] and the text of the
    values that are a [str]. *)
Variable Value : Type.
Variable str_of_value : Value -> string.
Variable truthy : Value -> bool.
Variable text_of : Value -> option string.

(** The argument [config_sections]; [None] is a key that is missing. *)
Record Sections := mkSections {
  backdrop : option (dict Value);
  text : option (dict Value)
}.

(** [config_sections.get(k, {})]. *)
Definition section_or_empty (section : option (dict Value)) : dict Value :=
  match section with
  | Some d => d
  | None => []
  end.

(** [d.pop(k, True)] as a truth value. *)
Definition pop_flag (k : string) (d : dict Value) : bool :=
  match dict_lookup d k with
  | Some v => truthy v
  | None => true
  end.

(** [", ".join(str(i) for i in sorted(all_tvdb_ids) if i)]. *)
Definition all_ids_str (all_tvdb_ids : list Z) : string :=
  join ", " (map str_of_Z
               (filter (fun i => negb (i =? 0)) (sorted_Z all_tvdb_ids))).

(** [{"overlay": overlay, "tvdb_show": tvdb_show}]. *)
Definition overlay_block (overlay : dict (node Value)) (tvdb_show : string)
  : node Value :=
  map_node [("overlay", map_node overlay); ("tvdb_show", Str tvdb_show)].

(** A copy of the settings with its [name]. *)
Definition named_config (config : dict Value) (name : string)
  : dict (node Value) :=
  dict_set "name" (Str name) (map (fun kv => (fst kv, Plain (snd kv))) config).

(** [format_date(date_str, date_format, capitalize_dates)] for the value of
    the settings, or the default when the key is missing. *)
Definition format_date_value (date_str : string) (date_format : option Value)
    (capitalize_dates : bool) : string + OverlayError :=
  match date_format with
  | None =>
      match format_date libc_directive date_str "yyyy-mm-dd" capitalize_dates with
      | Some formatted_date => inl formatted_date
      | None => inr DateValueError
      end
  | Some v =>
      match text_of v with
      | Some fmt =>
          match format_date libc_directive date_str fmt capitalize_dates with
          | Some formatted_date => inl formatted_date
          | None => inr DateValueError
          end
      | None =>
          match strptime_ymd date_str with
          | Some _ => inr FormatTypeError
          | None => inr DateValueError
          end
      end
  end.

(** The ids of one date: [sorted(...)] and the join. *)
Definition date_ids_str (date_to_tvdb_ids : dict (list (option Z)))
    (date_str : string) : string :=
  join ", "
    (map str_of_Z
       (sorted_Z (truthy_ids
                    (match dict_lookup date_to_tvdb_ids date_str with
                     | Some l => l
                     | None => []
                     end)))).

(** The body of the loop over the dates. *)
Definition date_block_step (date_to_tvdb_ids : dict (list (option Z)))
    (text_config : dict Value) (date_format : option Value)
    (use_text : string) (capitalize_dates : bool)
    (st : dict (node Value) + OverlayError) (date_str : string)
  : dict (node Value) + OverlayError :=
  match st with
  | inr e => inr e
  | inl overlays_dict =>
      match format_date_value date_str date_format capitalize_dates with
      | inr e => inr e
      | inl formatted_date =>
          let sub_overlay_config :=
            named_config text_config
              ("text(" ++ use_text ++ " " ++ formatted_date ++ ")") in
          let tvdb_ids_str := date_ids_str date_to_tvdb_ids date_str in
          let block_key := "UTSK_" ++ formatted_date in
          inl (dict_set block_key
                 (overlay_block sub_overlay_config tvdb_ids_str)
                 overlays_dict)
      end
  end.

(** [overlays_dict] after the backdrop block. *)
Definition backdrop_block (config_sections : Sections)
    (all_tvdb_ids : list Z) (overlays_dict : dict (node Value))
  : dict (node Value) :=
  let backdrop_config := section_or_empty (backdrop config_sections) in
  let enable_backdrop := pop_flag "enable" backdrop_config in
  let backdrop_config := dict_remove "enable" backdrop_config in
  if enable_backdrop && negb (is_nil all_tvdb_ids)
  then dict_set "backdrop"
         (overlay_block (named_config backdrop_config "backdrop")
                        (all_ids_str all_tvdb_ids))
         overlays_dict
  else overlays_dict.

(** [overlays_dict] after the text blocks. *)
Definition text_blocks (config_sections : Sections)
    (all_tvdb_ids : list Z) (date_to_tvdb_ids : dict (list (option Z)))
    (overlays_dict : dict (node Value)) : dict (node Value) + OverlayError :=
  let text_config := section_or_empty (text config_sections) in
  let enable_text := pop_flag "enable" text_config in
  let text_config := dict_remove "enable" text_config in
  if enable_text && negb (is_nil all_tvdb_ids)
  then
    let date_format := dict_lookup text_config "date_format" in
    let text_config := dict_remove "date_format" text_config in
    let use_text :=
      match dict_lookup text_config "use_text" with
      | Some v => str_of_value v
      | None => "Coming Soon"
      end in
    let text_config := dict_remove "use_text" text_config in
    let capitalize_dates := pop_flag "capitalize_dates" text_config in
    let text_config := dict_remove "capitalize_dates" text_config in
    if negb (is_nil date_to_tvdb_ids)
    then
      fold_left
        (date_block_step date_to_tvdb_ids text_config date_format use_text
                         capitalize_dates)
        (sorted_str (keys date_to_tvdb_ids)) (inl overlays_dict)
    else
      inl (dict_set "UTSK_upcoming_shows"
             (overlay_block
                (named_config text_config ("text(" ++ use_text ++ ")"))
                (all_ids_str all_tvdb_ids))
             overlays_dict)
  else inl overlays_dict.

(** [create_overlay_yaml]: what is written to [output_file], or the
    exception, which leaves the file as it was. *)
Definition create_overlay_yaml (shows : list Show) (config_sections : Sections)
  : Written (node Value) + OverlayError :=
  if is_nil shows
  then inl (Text "#No matching shows found")
  else
    let '(all_tvdb_ids, date_to_tvdb_ids) :=
      fold_left group_step shows ([], []) in
    let overlays_dict := backdrop_block config_sections all_tvdb_ids [] in
    match text_blocks config_sections all_tvdb_ids date_to_tvdb_ids
                      overlays_dict with
    | inr e => inr e
    | inl overlays_dict =>
        inl (Dump (map_node [("overlays", map_node overlays_dict)]))
    end.

End Overlay.

Arguments mkSections {Value} _ _.
Arguments backdrop {Value} _.
Arguments text {Value} _.
Arguments section_or_empty {Value} section.
Arguments pop_flag {Value} truthy k d.
Arguments overlay_block {Value} overlay tvdb_show.
Arguments named_config {Value} config name.
Arguments format_date_value libc_directive {Value} text_of
  date_str date_format capitalize_dates.
Arguments date_block_step libc_directive {Value} text_of date_to_tvdb_ids
  text_config date_format use_text capitalize_dates st date_str.
Arguments backdrop_block {Value} truthy config_sections all_tvdb_ids
  overlays_dict.
Arguments text_blocks libc_directive {Value} str_of_value truthy text_of
  config_sections all_tvdb_ids date_to_tvdb_ids overlays_dict.
Arguments create_overlay_yaml libc_directive {Value} str_of_value truthy
  text_of shows config_sections.

(** ** Statements about the overlay document *)

(** The dates of the shows, and the ids of the shows of one date, in the
    order of the shows. *)
Definition has_air_date (s : Show) : bool := negb (String.eqb (airDate s) "").

Definition ids_on (date_str : string) (shows : list Show) : list (option Z) :=
  map show_tvdbId (filter (fun s => String.eqb (airDate s) date_str) shows).

(** [all_tvdb_ids] and [date_to_tvdb_ids] after the loop over the shows. *)
Definition grouped (shows : list Show) : list Z * dict (list (option Z)) :=
  fold_left group_step shows ([], []).

(** [d[k]] as a list, empty for a key that is missing. *)
Definition lookup_list {V} (d : dict (list V)) (k : string) : list V :=
  match dict_lookup d k with
  | Some l => l
  | None => []
  end.

(** A loop of assignments [d[key(y)] = val(y)]. *)
Definition set_all {A V} (key : A -> string) (val : A -> V) (l : list A)
    (d : dict V) : dict V :=
  fold_left (fun d y => dict_set (key y) (val y) d) l d.

(** The order of [str]. *)
Definition str_le (a b : string) : Prop := String.leb a b = true.

(** A show with an air date that [strptime] does not read. *)
Definition unreadable_date (s : Show) : bool :=
  has_air_date s &&
  match strptime_ymd (airDate s) with
  | Some _ => false
  | None => true
  end.

(** The text of a result, empty for an exception. *)
Definition text_or_empty (r : string + OverlayError) : string :=
  match r with
  | inl formatted_date => formatted_date
  | inr _ => ""
  end.

Section OverlayStatements.

Context {Value : Type} (str_of_value : Value -> string)
        (truthy : Value -> bool).

Implicit Type config_sections : Sections Value.

(** What the settings of the text blocks say. *)
Definition text_section config_sections : dict Value :=
  section_or_empty (text config_sections).

Definition text_enabled config_sections : bool :=
  pop_flag truthy "enable" (text_section config_sections).

Definition date_format_of config_sections : option Value :=
  dict_lookup (text_section config_sections) "date_format".

Definition use_text_of config_sections : string :=
  match dict_lookup (text_section config_sections) "use_text" with
  | Some v => str_of_value v
  | None => "Coming Soon"
  end.

Definition capitalize_of config_sections : bool :=
  pop_flag truthy "capitalize_dates" (text_section config_sections).

(** The settings that are copied into every text block. *)
Definition text_settings config_sections : dict Value :=
  dict_remove "capitalize_dates"
    (dict_remove "use_text"
       (dict_remove "date_format"
          (dict_remove "enable" (text_section config_sections)))).

(** What the settings of the backdrop say. *)
Definition backdrop_enabled config_sections : bool :=
  pop_flag truthy "enable" (section_or_empty (backdrop config_sections)).

Definition backdrop_settings config_sections : dict Value :=
  dict_remove "enable" (section_or_empty (backdrop config_sections)).

(** The text block of the shows of one date, for the text that the date is
    formatted to. *)
Definition date_block config_sections (shows : list Show)
    (date_str formatted_date : string) : node Value :=
  overlay_block
    (named_config (text_settings config_sections)
       ("text(" ++ use_text_of config_sections ++ " " ++ formatted_date ++ ")"))
    (join ", " (map str_of_Z (sorted_Z (truthy_ids (ids_on date_str shows))))).

(** The document with the given blocks. *)
Definition overlays_document (overlays_dict : dict (node Value))
  : Written (node Value) :=
  Dump (map_node [("overlays", map_node overlays_dict)]).

End OverlayStatements.

(** Settings values for the examples: a text, a boolean or a number. *)
Inductive Setting :=
| SText (s : string)
| SBool (b : bool)
| SInt (n : Z).

Definition setting_str (v : Setting) : string :=
  match v with
  | SText s => s
  | SBool true => "True"
  | SBool false => "False"
  | SInt n => str_of_Z n
  end.

Definition setting_truthy (v : Setting) : bool :=
  match v with
  | SText s => negb (String.eqb s "")
  | SBool b => b
  | SInt n => negb (n =? 0)
  end.

Definition setting_text (v : Setting) : option string :=
  match v with
  | SText s => Some s
  | _ => None
  end.

Definition sample_sections : Sections Setting :=
  mkSections
    (Some [("enable", SBool true); ("back_color", SText "#000000")])
    (Some [("date_format", SText "mmmm"); ("use_text", SText "New");
           ("font_size", SInt 45)]).

Definition sample_dated_shows : list Show :=
  [ mkShow "A" (Some 30) "/tv/a" "" None "2025-03-21";
    mkShow "B" (Some 20) "/tv/b" "" None "2025-03-07";
    mkShow "C" None "/tv/c" "" None "2025-03-07";
    mkShow "D" (Some 10) "/tv/d" "" None "2025-04-01" ].

(** A show without identifier and with an air date that is no date. *)
Definition sample_anonymous_shows : list Show :=
  [ mkShow "E" None "/tv/e" "" None "soon" ].

Definition sample_default_sections : Sections Setting :=
  mkSections None (Some [("use_text", SText "New")]).

(** The document of the sample shows under the sample settings, whose
    [date_format] is the name of the month. *)
Definition sample_overlay_document : node Setting :=
  Eval vm_compute in
    match create_overlay_yaml glibc_directive setting_str setting_truthy
            setting_text sample_dated_shows sample_sections with
    | inl (Dump data) => data
    | _ => Str ""
    end.

(* ================================================================== *)
(** * Trailer files *)
(* ================================================================== *)

(** [c.isalnum() or c in (' ', '-', '_')]. *)
Definition keep_char (c : ascii) : bool :=
  isalnum c || Ascii.eqb c " " || Ascii.eqb c "-" || Ascii.eqb c "_".

(** [[c for c in s if p(c)]] joined. *)
Fixpoint filter_str (p : ascii -> bool) (s : string) : string :=
  match s with
  | EmptyString => EmptyString
  | String c s' => if p c then String c (filter_str p s') else filter_str p s'
  end.

(** The name [clean_title] of [download_trailer] and of [main]. *)
Definition clean_title (title : string) : string :=
  rstrip (filter_str keep_char title).

(** The name of the trailer file in the folder [Season 00]. *)
Definition final_mp4_name (title : string) : string :=
  clean_title title ++ ".S00E00.Trailer.mp4".

(** The output template that is handed to the downloader. *)
Definition output_template (title : string) : string :=
  clean_title title ++ ".S00E00.Trailer.%(ext)s".

Definition format_exact_1080 : string := "bv*[height=1080]+ba/b[height=1080]".
Definition format_up_to_1080 : string := "bv*[height<=1080]+ba/b[height<=1080]".

(** The [OSError] of [mkdir], which nothing catches before [main]. *)
Inductive DiskError :=
| OSError.

(** The counters of the loop of [main]. *)
Record Counters := mkCounters {
  successful_downloads : Z;
  failed_downloads : Z;
  skipped_existing : Z
}.

Section Trailers.

(** The disk and what is done to it: whether the file of a name exists in
    the folder [Season 00] of a show folder; the creation of that folder,
    which may raise; a run of the downloader with a format, an address, a
    show folder and an output template, which changes the disk and may
    raise ([true]). *)
Variable Disk : Type.
Variable file_exists : Disk -> string -> string -> bool.
Variable make_season_dir : Disk -> string -> option Disk.
Variable ydl_download :
  Disk -> string -> string -> string -> string -> bool * Disk.

(** The search backend, and the channels to skip. *)
Variable yt_search : string -> Run.
Variable skip_channels : list string.

(** The two attempts of [download_trailer] and the check that follows; an
    exception of the second attempt is caught by the outer [try]. *)
Definition attempt_downloads (disk : Disk) (show : Show)
    (trailer_info : Trailer) : bool * Disk :=
  let run format_string disk :=
    ydl_download disk format_string (url trailer_info) (show_path show)
                 (output_template (show_title show)) in
  let '(raised, disk) := run format_exact_1080 disk in
  if raised
  then
    let '(raised, disk) := run format_up_to_1080 disk in
    if raised
    then (false, disk)
    else (file_exists disk (show_path show)
            (final_mp4_name (show_title show)), disk)
  else (file_exists disk (show_path show)
          (final_mp4_name (show_title show)), disk).

(** [download_trailer]. *)
Definition download_trailer (disk : Disk) (show : Show)
    (trailer_info : Trailer) : (bool + DiskError) * Disk :=
  if String.eqb (show_path show) ""
  then (inl false, disk)
  else
    match make_season_dir disk (show_path show) with
    | None => (inr OSError, disk)
    | Some disk =>
        if file_exists disk (show_path show)
             (final_mp4_name (show_title show))
        then (inl true, disk)
        else
          let '(found, disk) := attempt_downloads disk show trailer_info in
          (inl found, disk)
    end.

(** The body of the loop of [main] over the upcoming shows. *)
Definition process_show (st : Counters * Disk) (show : Show)
  : (Counters + DiskError) * Disk :=
  let '(n, disk) := st in
  if negb (String.eqb (show_path show) "")
     && file_exists disk (show_path show) (final_mp4_name (show_title show))
  then
    (inl (mkCounters (successful_downloads n + 1) (failed_downloads n)
                     (skipped_existing n + 1)), disk)
  else
    match search_trailer_on_youtube yt_search (show_title show)
            (show_year show) skip_channels with
    | Some trailer_info =>
        match download_trailer disk show trailer_info with
        | (inl true, disk) =>
            (inl (mkCounters (successful_downloads n + 1) (failed_downloads n)
                             (skipped_existing n)), disk)
        | (inl false, disk) =>
            (inl (mkCounters (successful_downloads n) (failed_downloads n + 1)
                             (skipped_existing n)), disk)
        | (inr e, disk) => (inr e, disk)
        end
    | None =>
        (inl (mkCounters (successful_downloads n) (failed_downloads n + 1)
                         (skipped_existing n)), disk)
    end.

(** The loop, from counters and a disk. *)
Fixpoint process_shows (shows : list Show) (st : Counters * Disk)
  : (Counters + DiskError) * Disk :=
  match shows with
  | [] => (inl (fst st), snd st)
  | show :: shows' =>
      match process_show st show with
      | (inl n, disk) => process_shows shows' (n, disk)
      | (inr e, disk) => (inr e, disk)
      end
  end.

(** The trailer part of [main] when trailers are to be downloaded and there
    are upcoming shows. *)
Definition process_trailers (shows : list Show) (disk : Disk)
  : (Counters + DiskError) * Disk :=
  process_shows shows (mkCounters 0 0 0, disk).

End Trailers.

(** A disk for the examples: the files that exist, as pairs of a show
    folder and a name; the downloader writes the file of the template for
    the second format only. *)
Definition sample_disk : Type := list (string * string).

Definition sample_exists (disk : sample_disk) (show_path name : string) : bool :=
  existsb (fun f => String.eqb (fst f) show_path && String.eqb (snd f) name)
          disk.

Definition sample_mkdir (disk : sample_disk) (show_path : string)
  : option sample_disk := Some disk.

Definition sample_download (disk : sample_disk)
    (format_string address show_path template : string)
  : bool * sample_disk :=
  if String.eqb format_string format_exact_1080
  then (true, disk)
  else (false,
        (show_path,
         String.substring 0 (String.length template - 7) template ++ "mp4")
        :: disk).

(** Shows for the examples: one to download, one without folder, one whose
    trailer is on the sample disk. *)
Definition sample_trailer_shows : list Show :=
  [ mkShow "Foo" (Some 5) "/tv/foo" "" (Some 2025) "2025-03-21";
    mkShow "Bar" (Some 6) "" "" None "2025-03-22";
    mkShow "Foo" (Some 7) "/tv/old" "" None "2025-03-22" ].

Definition sample_files : sample_disk :=
  [("/tv/old", "Foo.S00E00.Trailer.mp4")].

(* ================================================================== *)
(** * Further statements: the air window *)
(* ================================================================== *)

(** A series that the loop looks into and whose first episode 1 of season 1
    has a time stamp that [fromisoformat] does not read. *)
Definition unreadable_premiere (fromisoformat : string -> option Z)
    (sonarr : Tracker) (skip_unmonitored : bool) (s : Series) : bool :=
  is_upcoming s
  && (negb skip_unmonitored || is_monitored s)
  && match first_episode (episodes_of sonarr (id s)) with
     | Some ep => negb (timestamp_ok fromisoformat ep)
     | None => false
     end.

(** A tracker with a series whose premiere has a time stamp that is no
    time stamp, after a series whose premiere is in the window. *)
Definition sample_broken_tracker : Tracker :=
  mkTracker
    (app (all_series sample_tracker)
         [mkSeries 99 "Broken" (Some "upcoming") None None None None None])
    (fun i => if i =? 99
              then [mkEpisode (Some 1) (Some 1) (Some "tomorrow")]
              else episodes_of sample_tracker i).

(* ================================================================== *)
(** * Further statements: from the tracker to the overlay document *)
(* ================================================================== *)

(** [f] on the [count] integers from [first] on. *)
Fixpoint all_from (f : Z -> bool) (first : Z) (count : nat) : bool :=
  match count with
  | O => true
  | S k => f first && all_from f (first + 1) k
  end.

(** The last statements of [fromordinal]: the date of the day [n] of the
    year [y], counted from 0. *)
Definition month_day (y n : Z) : date :=
  let m := Z.shiftr (n + 50) 5 in
  let preceding := days_before_month y m in
  if n <? preceding
  then mkdate y (m - 1) (n - (preceding - days_in_month y (m - 1)) + 1)
  else mkdate y m (n - preceding + 1).

(** The month and the day of [month_day y n] are those of a date of the
    year [y]. *)
Definition year_day_ok (y n : Z) : bool :=
  let d := month_day y n in
  (1 <=? month d) && (month d <=? 12)
  && (1 <=? day d) && (day d <=? days_in_month y (month d)).

(** The instants of the years 1000 to 9999, in microseconds since the
    epoch. *)
Definition instant_in_range (t : Z) : bool :=
  ((364878 - epoch_ordinal) * us_per_day <=? t)
  && (t <? (3652060 - epoch_ordinal) * us_per_day).

(** What [find_upcoming_shows] returns for the sample tracker two days
    before its premieres. *)
Definition sample_upcoming_shows : list Show :=
  [ mkShow "Foo" (Some 77) "/tv/Foo" "" (Some 2025) "1970-01-02";
    mkShow "Bar" (Some 78) "/tv/Bar" "" (Some 2025) "1970-01-02" ].

(* ================================================================== *)
(** * The air window: proofs *)
(* ================================================================== *)

Section AirWindowProofs.

Variable fromisoformat : string -> option Z.
Variable sonarr : Tracker.
Variables (utc_offset : Q) (skip_unmonitored : bool).

Lemma air_window_run (future_days : Z) (w : World) :
  air_window future_days utc_offset w =
  (inl (clock w (reads w) + timedelta_days future_days,
        clock w (S (reads w)) + timedelta_hours utc_offset),
   mkWorld (clock w) (S (S (reads w)))).
Proof. reflexivity. Qed.

Lemma first_episode_ok (s : Series) (ep : Episode) :
  forallb (timestamp_ok fromisoformat) (episodes_of sonarr (id s)) = true ->
  first_episode (episodes_of sonarr (id s)) = Some ep ->
  timestamp_ok fromisoformat ep = true.
Proof.
  intros Hall Hfind. unfold first_episode in Hfind.
  apply find_some in Hfind. destruct Hfind as [Hin _].
  rewrite forallb_forall in Hall. now apply Hall.
Qed.

(** One turn of the loop leaves the world alone and, on time stamps that can
    be read, appends the show of the series exactly when the series
    qualifies. *)
Lemma visit_series_ok (cutoff now_local : Z) (acc : list Show) (s : Series)
      (w : World) :
  forallb (timestamp_ok fromisoformat) (episodes_of sonarr (id s)) = true ->
  visit_series fromisoformat sonarr cutoff now_local utc_offset
               skip_unmonitored acc s w =
  (inl (if qualifies fromisoformat sonarr cutoff now_local utc_offset
                     skip_unmonitored s
        then acc ++ [show_of fromisoformat sonarr utc_offset s]
        else acc)%list, w).
Proof.
  intros Hok.
  unfold visit_series, qualifies, show_of, premiere, is_upcoming, is_monitored.
  destruct (status s) as [st|]; [destruct (String.eqb st "upcoming")|];
    try reflexivity.
  destruct (first_episode (episodes_of sonarr (id s))) as [ep|] eqn:Hfirst.
  2: { destruct skip_unmonitored, (monitored s) as [[|]|]; reflexivity. }
  pose proof (first_episode_ok s ep Hok Hfirst) as Hts.
  unfold timestamp_ok in Hts. unfold air_instant.
  destruct (airDateUtc ep) as [[|c str]|].
  1, 3: destruct skip_unmonitored, (monitored s) as [[|]|]; reflexivity.
  cbn [String.eqb orb] in Hts. cbn [String.eqb].
  unfold convert_utc_to_local, bind.
  destruct (fromisoformat (replace "Z" "" (String c str))) as [t|];
    [clear Hts | discriminate Hts].
  cbn [option_map]. unfold ret; cbn beta iota.
  destruct skip_unmonitored, (monitored s) as [[|]|]; cbn [andb negb orb];
    try reflexivity;
    destruct ((now_local <? t + timedelta_hours utc_offset)
              && (t + timedelta_hours utc_offset <=? cutoff)); reflexivity.
Qed.

Lemma for_each_visit (cutoff now_local : Z) (l : list Series) :
  forall (acc : list Show) (w : World),
  forallb (fun s => forallb (timestamp_ok fromisoformat)
                            (episodes_of sonarr (id s))) l = true ->
  for_each l (visit_series fromisoformat sonarr cutoff now_local utc_offset
                           skip_unmonitored) acc w =
  (inl (acc ++ map (show_of fromisoformat sonarr utc_offset)
                   (filter (qualifies fromisoformat sonarr cutoff now_local
                                      utc_offset skip_unmonitored) l))%list,
   w).
Proof.
  induction l as [|s l IH]; intros acc w Hok.
  - cbn. now rewrite app_nil_r.
  - cbn [forallb] in Hok. apply andb_true_iff in Hok as [Hs Hl].
    cbn [for_each filter]. unfold bind at 1.
    rewrite (visit_series_ok cutoff now_local acc s w Hs).
    rewrite (IH _ w Hl).
    destruct (qualifies fromisoformat sonarr cutoff now_local utc_offset
                        skip_unmonitored s).
    + cbn [map]. now rewrite <- app_assoc.
    + reflexivity.
Qed.

(** The condition [qualifies], item by item. *)
Lemma qualifies_iff (cutoff now_local : Z) (s : Series) :
  qualifies fromisoformat sonarr cutoff now_local utc_offset
            skip_unmonitored s = true <->
  status s = Some "upcoming"
  /\ (skip_unmonitored = false \/ monitored s <> Some false)
  /\ exists ep str t,
       first_episode (episodes_of sonarr (id s)) = Some ep
       /\ airDateUtc ep = Some str /\ str <> ""
       /\ fromisoformat (replace "Z" "" str) = Some t
       /\ now_local < t + timedelta_hours utc_offset <= cutoff.
Proof.
  unfold qualifies, premiere, air_instant, is_upcoming, is_monitored.
  rewrite !andb_true_iff, orb_true_iff, negb_true_iff.
  split.
  - intros [[Hst Hmon] Hair]. repeat split.
    + destruct (status s) as [st|]; [|discriminate].
      apply String.eqb_eq in Hst. now subst.
    + destruct Hmon as [H|H]; [now left|right].
      destruct (monitored s) as [[|]|]; congruence.
    + destruct (first_episode (episodes_of sonarr (id s))) as [ep|];
        [|discriminate].
      destruct (airDateUtc ep) as [str|] eqn:Hstr; [|discriminate].
      destruct (String.eqb str "") eqn:He; [discriminate|].
      destruct (fromisoformat (replace "Z" "" str)) as [t|] eqn:Ht;
        [|discriminate].
      cbn [option_map] in Hair. apply andb_true_iff in Hair as [H1 H2].
      exists ep, str, t. repeat split; trivial.
      * intros ->. discriminate He.
      * now apply Z.ltb_lt.
      * now apply Z.leb_le.
  - intros (Hst & Hmon & ep & str & t & Hep & Hstr & Hne & Ht & Hlo & Hhi).
    rewrite Hst, Hep, Hstr, Ht. cbn [option_map].
    split; [split|].
    + reflexivity.
    + destruct Hmon as [H|H]; [now left|right].
      destruct (monitored s) as [[|]|]; congruence.
    + destruct (String.eqb str "") eqn:He.
      * apply String.eqb_eq in He. contradiction.
      * apply andb_true_iff. split; [now apply Z.ltb_lt|now apply Z.leb_le].
Qed.

(** The inner loop stops at the first episode 1 of season 1. *)
Lemma first_episode_first (episodes : list Episode) (ep : Episode) :
  first_episode episodes = Some ep ->
  exists before after,
    episodes = (before ++ ep :: after)%list
    /\ seasonNumber ep = Some 1 /\ episodeNumber ep = Some 1
    /\ forall e, In e before ->
         ~ (seasonNumber e = Some 1 /\ episodeNumber e = Some 1).
Proof.
  unfold first_episode.
  induction episodes as [|e l IH]; cbn [find]; [discriminate|].
  destruct (eq_some (seasonNumber e) 1 && eq_some (episodeNumber e) 1)
    eqn:He.
  - intros [= <-]. exists [], l. apply andb_true_iff in He as [H1 H2].
    unfold eq_some in H1, H2.
    destruct (seasonNumber e) as [a|]; [|discriminate].
    destruct (episodeNumber e) as [b|]; [|discriminate].
    apply Z.eqb_eq in H1, H2. subst. repeat split. intros ? [].
  - intros H. destruct (IH H) as (before & after & -> & Hs & Hn & Hb).
    exists (e :: before), after. repeat split; trivial.
    intros x [<-|Hx]; [|now apply Hb].
    intros [Ha Hc]. rewrite Ha, Hc in He. discriminate He.
Qed.

(** C1.  On a tracker whose time stamps [fromisoformat] can read,
    [find_upcoming_shows] returns, in the order of the series of the tracker,
    the shows of exactly the series that qualify: status [upcoming], monitored
    (a missing flag counts as monitored) unless unmonitored series are kept,
    a first episode 1 of season 1 whose time stamp is present, and a local air
    instant after [now_local] and not after [cutoff_date]. *)
Theorem find_upcoming_shows_iff (future_days : Z) (w : World) :
  well_formed fromisoformat sonarr = true ->
  let cutoff := clock w (reads w) + timedelta_days future_days in
  let now_local := clock w (S (reads w)) + timedelta_hours utc_offset in
  fst (find_upcoming_shows fromisoformat sonarr future_days utc_offset
                           skip_unmonitored w) =
  inl (map (show_of fromisoformat sonarr utc_offset)
           (filter (qualifies fromisoformat sonarr cutoff now_local
                              utc_offset skip_unmonitored)
                   (all_series sonarr)), [])
  /\ forall s,
       qualifies fromisoformat sonarr cutoff now_local utc_offset
                 skip_unmonitored s = true <->
       status s = Some "upcoming"
       /\ (skip_unmonitored = false \/ monitored s <> Some false)
       /\ exists ep str t,
            first_episode (episodes_of sonarr (id s)) = Some ep
            /\ airDateUtc ep = Some str /\ str <> ""
            /\ fromisoformat (replace "Z" "" str) = Some t
            /\ now_local < t + timedelta_hours utc_offset <= cutoff.
Proof.
  intros Hwf cutoff now_local. split.
  - unfold find_upcoming_shows. unfold bind at 1.
    rewrite air_window_run. cbn [fst snd]. unfold bind.
    rewrite (for_each_visit _ _ (all_series sonarr) [] _ Hwf).
    reflexivity.
  - intros s. apply qualifies_iff.
Qed.

(** C10.  Whenever [find_upcoming_shows] returns, the list of skipped shows
    that it returns is empty; and it does return on a tracker whose time
    stamps [fromisoformat] can read. *)
Theorem skipped_shows_empty (future_days : Z) (w : World) :
  (forall r w',
     find_upcoming_shows fromisoformat sonarr future_days utc_offset
                         skip_unmonitored w = (inl r, w') ->
     snd r = [])
  /\ (well_formed fromisoformat sonarr = true ->
      exists upcoming w',
        find_upcoming_shows fromisoformat sonarr future_days utc_offset
                            skip_unmonitored w = (inl (upcoming, []), w')).
Proof.
  split.
  - intros r w'. unfold find_upcoming_shows. unfold bind at 1.
    rewrite air_window_run. cbn [fst snd]. unfold bind.
    destruct (for_each _ _ _ _) as [[upcoming|e] w'']; unfold ret.
    + intros [= <- _]. reflexivity.
    + discriminate.
  - intros Hwf. unfold find_upcoming_shows. unfold bind at 1.
    rewrite air_window_run. cbn [fst snd]. unfold bind.
    rewrite (for_each_visit _ _ (all_series sonarr) [] _ Hwf).
    unfold ret. eauto.
Qed.

(** C7, as the code has it.  [cutoff_date] is the first reading of the clock
    plus the horizon and [now_local] is the second reading plus the offset:
    their difference is the horizon minus the offset, less the time that
    passed between the two readings, and it is the horizon minus the offset
    exactly when the two readings agree. *)
Theorem air_window_two_readings (future_days : Z) (w : World) :
  let first := clock w (reads w) in
  let second := clock w (S (reads w)) in
  exists cutoff_date now_local,
    air_window future_days utc_offset w =
      (inl (cutoff_date, now_local), mkWorld (clock w) (S (S (reads w))))
    /\ cutoff_date = first + timedelta_days future_days
    /\ now_local = second + timedelta_hours utc_offset
    /\ cutoff_date - now_local =
       timedelta_days future_days - timedelta_hours utc_offset
       - (second - first)
    /\ (cutoff_date - now_local =
        timedelta_days future_days - timedelta_hours utc_offset
        <-> second = first).
Proof.
  intros first second. eexists. eexists. split; [apply air_window_run|].
  subst first second. repeat split; try lia.
Qed.

End AirWindowProofs.

Lemma find_upcoming_shows_iff_witness :
  well_formed fromisoformat_seconds sample_tracker = true
  /\ fst (find_upcoming_shows fromisoformat_seconds sample_tracker 7 1 true
                              ticking_world) =
     inl ([ {| show_title := "Foo"; show_tvdbId := Some 77;
               show_path := "/tv/Foo"; show_imdbId := "";
               show_year := Some 2025; airDate := "1970-01-03" |} ], []).
Proof.
  split; [reflexivity|].
  destruct (find_upcoming_shows_iff fromisoformat_seconds sample_tracker 1
              true 7 ticking_world eq_refl) as [Hrun _].
  rewrite Hrun. reflexivity.
Defined.

Lemma skipped_shows_empty_witness :
  exists upcoming w',
    find_upcoming_shows fromisoformat_seconds sample_tracker 7 1 true
                        ticking_world = (inl (upcoming, []), w').
Proof.
  exact (proj2 (skipped_shows_empty fromisoformat_seconds sample_tracker 1
                  true 7 ticking_world) eq_refl).
Defined.

(** C7 as it is stated fails on a clock that advances between the two
    readings: the difference is one microsecond short of the horizon minus the
    offset. *)
Lemma air_window_skew :
  fst (air_window 7 0 ticking_world) = inl (604800000000, 1)
  /\ 604800000000 - 1 <> timedelta_days 7 - timedelta_hours 0.
Proof. split; [reflexivity|]. vm_compute. discriminate. Qed.

(** On a clock that stands still the difference is the horizon minus the
    offset. *)
Example air_window_frozen :
  fst (air_window 7 (11 # 2) frozen_world) = inl (604800000000, 19800000000).
Proof. reflexivity. Qed.

(* ================================================================== *)
(** * The duration filter: proofs *)
(* ================================================================== *)

(** C8 as it is stated fails at the duration 0: it is known and outside
    [[10, 900]], and the filter lets it pass, as [if dur] is false for it. *)
Lemma duration_zero_passes :
  spec_duration_rejects (Some 0%Q) = true
  /\ duration_rejects (Some 0%Q) = false.
Proof. split; reflexivity. Qed.

(** C8, as the code has it.  The duration filter rejects a candidate if and
    only if its duration is known, is not zero and lies outside the closed
    interval [[10, 900]]; an unknown duration and the duration zero pass. *)
Theorem duration_rejects_iff (dur : option Q) :
  (duration_rejects dur = true <->
   exists d, dur = Some d /\ ~ (d == 0)%Q /\ ~ (10 <= d /\ d <= 900)%Q)
  /\ duration_rejects None = false
  /\ duration_rejects (Some 0%Q) = false.
Proof.
  split; [|split; reflexivity].
  destruct dur as [d|]; cbn [duration_rejects].
  - rewrite andb_true_iff, !negb_true_iff. split.
    + intros [Hz Hout]. exists d. split; [reflexivity|]. split.
      * intros Heq. apply Qeq_bool_iff in Heq. congruence.
      * intros [Hlo Hhi]. apply Qle_bool_iff in Hlo, Hhi.
        rewrite Hlo, Hhi in Hout. discriminate Hout.
    + intros (d' & [= <-] & Hnz & Hout). split.
      * destruct (Qeq_bool d 0) eqn:He; [|reflexivity].
        apply Qeq_bool_iff in He. contradiction.
      * destruct (Qle_bool 10 d) eqn:Hlo; [|reflexivity].
        destruct (Qle_bool d 900) eqn:Hhi; [|reflexivity].
        apply Qle_bool_iff in Hlo, Hhi. exfalso. now apply Hout.
  - split; [discriminate|]. intros (d & Hd & _). discriminate Hd.
Qed.

(* ================================================================== *)
(** * Trailer selection: proofs *)
(* ================================================================== *)

Section ArgmaxFirst.

Context {A : Type} (f : A -> Z).

(** What [argmax_first] returns is in the list, nothing before it reaches
    its value and nothing after it exceeds its value. *)
Lemma argmax_first_split (l : list A) (c : A) :
  argmax_first f l = Some c ->
  exists before after,
    l = (before ++ c :: after)%list
    /\ (forall x, In x before -> f x < f c)
    /\ (forall x, In x after -> f x <= f c).
Proof.
  revert c. induction l as [|x l IH]; intros c; cbn [argmax_first].
  - discriminate.
  - destruct (argmax_first f l) as [y|] eqn:Hy.
    + destruct (IH y eq_refl) as (before & after & -> & Hb & Ha).
      destruct (f x <? f y) eqn:Hlt; intros [= <-].
      * apply Z.ltb_lt in Hlt. exists (x :: before), after.
        repeat split; trivial.
        intros z [<-|Hz]; [assumption|now apply Hb].
      * apply Z.ltb_ge in Hlt. exists [], (before ++ y :: after)%list.
        repeat split; [intros ? []|].
        intros z Hz. apply in_app_or in Hz as [Hz|[<-|Hz]].
        -- specialize (Hb z Hz). lia.
        -- assumption.
        -- specialize (Ha z Hz). lia.
    + intros [= <-]. exists [], l. repeat split; [intros ? []|].
      destruct l; [intros ? []|]. cbn in Hy.
      destruct (argmax_first f l); [destruct (_ <? _)|]; discriminate.
Qed.

Lemma argmax_first_none (l : list A) : argmax_first f l = None <-> l = [].
Proof.
  destruct l as [|x l]; cbn; [tauto|].
  split; [|discriminate].
  destruct (argmax_first f l); [destruct (_ <? _)|]; discriminate.
Qed.

Lemma fold_keep_best (l : list A) (c : A) :
  Some (fold_left (keep_best f) l c) = argmax_first f (c :: l).
Proof.
  revert c. induction l as [|x l IH]; intros c; [reflexivity|].
  cbn [fold_left]. rewrite IH. unfold keep_best. cbn [argmax_first].
  destruct (argmax_first f l) as [z|].
  - destruct (f c <? f x) eqn:Hcx, (f x <? f z) eqn:Hxz;
      try rewrite Hcx; try reflexivity;
      destruct (f c <? f z) eqn:Hcz; try reflexivity;
      rewrite ?Z.ltb_lt, ?Z.ltb_ge in *; lia.
  - destruct (f c <? f x) eqn:Hcx; reflexivity.
Qed.

End ArgmaxFirst.

Section Selection.

Variable yt_search : string -> Run.
Variables (show_title : string) (year : option Z) (skip_channels : list string).

Lemma score_nonneg (info : VideoInfo) : 0 <= score year info.
Proof.
  unfold score.
  repeat match goal with
         | |- context [if ?b then _ else _] => destruct b
         | |- context [match ?o with Some _ => _ | None => _ end] => destruct o
         end; lia.
Qed.

Lemma examine_running (cur : option VideoInfo) (line : Line) :
  examine show_title year skip_channels (running year cur) line =
  running year
    match line with
    | NotJson => cur
    | Json info =>
        if rejected show_title skip_channels info then cur
        else take_better (score year) cur info
    end.
Proof.
  destruct line as [|info]; [reflexivity|]. cbn [examine].
  destruct (rejected show_title skip_channels info); [reflexivity|].
  destruct cur as [c|]; cbn [running take_better snd]; unfold keep_best.
  - destruct (score year c <? score year info); reflexivity.
  - pose proof (score_nonneg info) as H.
    destruct (-1 <? score year info) eqn:E; [reflexivity|].
    apply Z.ltb_ge in E. lia.
Qed.

Lemma fold_examine (lines : list Line) :
  forall cur,
  fold_left (examine show_title year skip_channels) lines (running year cur) =
  running year
    (fold_left (take_better (score year))
       (filter (fun info => negb (rejected show_title skip_channels info))
               (infos lines)) cur).
Proof.
  induction lines as [|line lines IH]; intros cur; [reflexivity|].
  cbn [fold_left]. rewrite examine_running.
  destruct line as [|info]; cbn [infos]; [apply IH|].
  cbn [filter].
  destruct (rejected show_title skip_channels info); cbn [negb fold_left];
    apply IH.
Qed.

Lemma try_term_running (term : string) (cur : option VideoInfo) :
  try_term yt_search show_title year skip_channels (running year cur) term =
  running year
    (fold_left (take_better (score year))
       (filter (fun info => negb (rejected show_title skip_channels info))
               (infos (lines_of (yt_search term)))) cur).
Proof.
  unfold try_term, lines_of.
  destruct (yt_search term) as [| |returncode stdout]; try reflexivity.
  destruct (returncode =? 0); cbn [negb orb]; [|reflexivity].
  destruct stdout as [|line stdout]; [reflexivity|].
  cbn [is_nil]. apply fold_examine.
Qed.

Lemma fold_try_term (terms : list string) :
  forall cur,
  fold_left (try_term yt_search show_title year skip_channels) terms
            (running year cur) =
  running year
    (fold_left (take_better (score year))
       (filter (fun info => negb (rejected show_title skip_channels info))
               (flat_map (fun term => infos (lines_of (yt_search term)))
                         terms)) cur).
Proof.
  induction terms as [|term terms IH]; intros cur; [reflexivity|].
  cbn [fold_left flat_map]. rewrite try_term_running, IH.
  now rewrite filter_app, fold_left_app.
Qed.

Lemma fold_take_better (l : list VideoInfo) :
  fold_left (take_better (score year)) l None = argmax_first (score year) l.
Proof.
  destruct l as [|c l]; [reflexivity|]. cbn [fold_left take_better].
  rewrite <- fold_keep_best.
  generalize c. induction l as [|x l IH]; intros c'; [reflexivity|].
  cbn [fold_left take_better]. apply IH.
Qed.

(** The loops compute the first-seen candidate of greatest score among the
    survivors. *)
Lemma search_trailer_is_argmax :
  search_trailer_on_youtube yt_search show_title year skip_channels =
  option_map trailer_of
    (argmax_first (score year)
                  (survivors yt_search show_title year skip_channels)).
Proof.
  unfold search_trailer_on_youtube, survivors, candidate_stream.
  change (None, -1) with (running year None).
  rewrite fold_try_term, fold_take_better.
  destruct (argmax_first _ _); reflexivity.
Qed.

End Selection.

Lemma survivor_not_rejected (yt_search : string -> Run) (show_title : string)
      (year : option Z) (skip_channels : list string) (c : VideoInfo) :
  In c (survivors yt_search show_title year skip_channels) ->
  rejected show_title skip_channels c = false.
Proof.
  unfold survivors. intros H. apply filter_In in H as [_ H].
  now apply negb_true_iff in H.
Qed.

(** A candidate that is not rejected has passed every filter. *)
Lemma not_rejected_inv (show_title : string) (skip_channels : list string)
      (c : VideoInfo) :
  rejected show_title skip_channels c = false ->
  info_title c <> "" /\ info_vid c <> ""
  /\ channel_skipped skip_channels (info_up c) = false
  /\ contains_any avoid_keywords (lower (info_title c)) = false
  /\ duration_rejects (vi_duration c) = false
  /\ _title_matches (info_title c) show_title = true.
Proof.
  unfold rejected.
  destruct (String.eqb (info_title c) "") eqn:Ht; [discriminate|].
  destruct (String.eqb (info_vid c) "") eqn:Hv; [discriminate|].
  cbn [orb].
  destruct (channel_skipped skip_channels (info_up c)); [discriminate|].
  destruct (contains_any avoid_keywords (lower (info_title c)));
    [discriminate|].
  destruct (duration_rejects (vi_duration c)); [discriminate|].
  intros H. apply negb_false_iff in H.
  apply String.eqb_neq in Ht, Hv. repeat split; trivial.
Qed.

(** C2.  The trailer that [search_trailer_on_youtube] returns is the one of
    the first-seen candidate of greatest score among the survivors of the
    filters, taken over all query variants in their order: no survivor before
    it reaches its score and no survivor after it exceeds it.  The result is
    [None] exactly when no candidate survives, and it depends on the backend
    through the candidate stream only. *)
Theorem search_trailer_first_best (yt_search : string -> Run)
    (show_title : string) (year : option Z) (skip_channels : list string) :
  let pool := survivors yt_search show_title year skip_channels in
  let chosen :=
    search_trailer_on_youtube yt_search show_title year skip_channels in
  chosen = option_map trailer_of (argmax_first (score year) pool)
  /\ (forall t, chosen = Some t ->
      exists before c after,
        pool = (before ++ c :: after)%list
        /\ t = trailer_of c
        /\ (forall x, In x before -> score year x < score year c)
        /\ (forall x, In x after -> score year x <= score year c))
  /\ (chosen = None <-> pool = [])
  /\ (forall yt_search',
        candidate_stream yt_search' show_title year =
        candidate_stream yt_search show_title year ->
        search_trailer_on_youtube yt_search' show_title year skip_channels =
        chosen).
Proof.
  intros pool chosen. subst pool chosen.
  rewrite search_trailer_is_argmax.
  split; [reflexivity|]. split; [|split].
  - intros t Ht.
    destruct (argmax_first _ _) as [c|] eqn:Hc; [|discriminate].
    injection Ht as <-.
    destruct (argmax_first_split _ _ _ Hc) as (before & after & H1 & H2 & H3).
    now exists before, c, after.
  - rewrite <- (argmax_first_none (score year)).
    destruct (argmax_first _ _); cbn; split; congruence.
  - intros yt_search' Hsame. rewrite search_trailer_is_argmax.
    unfold survivors. now rewrite Hsame.
Qed.

(** C4.  The title of the trailer that [search_trailer_on_youtube] returns,
    in lower case, contains none of the keywords of [avoid_keywords],
    whatever the scores. *)
Theorem selected_title_avoids_keywords (yt_search : string -> Run)
    (show_title : string) (year : option Z) (skip_channels : list string)
    (t : Trailer) :
  search_trailer_on_youtube yt_search show_title year skip_channels = Some t ->
  contains_any avoid_keywords (lower (video_title t)) = false
  /\ forall k, In k avoid_keywords ->
       contains k (lower (video_title t)) = false.
Proof.
  rewrite search_trailer_is_argmax. intros Ht.
  destruct (argmax_first _ _) as [c|] eqn:Hc; [|discriminate].
  injection Ht as <-.
  destruct (argmax_first_split _ _ _ Hc) as (before & after & Hpool & _).
  assert (Hin : In c (survivors yt_search show_title year skip_channels)).
  { rewrite Hpool. apply in_or_app. right. now left. }
  apply survivor_not_rejected, not_rejected_inv in Hin.
  destruct Hin as (_ & _ & _ & Hkw & _).
  cbn [trailer_of video_title]. split; [exact Hkw|].
  intros k Hk. unfold contains_any in Hkw.
  destruct (contains k (lower (info_title c))) eqn:E; [|reflexivity].
  assert (existsb (fun k => contains k (lower (info_title c))) avoid_keywords
          = true) as Hex.
  { apply existsb_exists. now exists k. }
  congruence.
Qed.

Lemma selected_title_avoids_keywords_witness :
  search_trailer_on_youtube sample_search "Foo" (Some 2025) [] =
    Some (mkTrailer "a1" "Foo Official Trailer" "2:00" "Netflix"
                    "https://www.youtube.com/watch?v=a1" true)
  /\ contains_any avoid_keywords (lower "Foo Official Trailer") = false.
Proof.
  split; [reflexivity|].
  exact (proj1 (selected_title_avoids_keywords sample_search "Foo" (Some 2025)
                  [] (mkTrailer "a1" "Foo Official Trailer" "2:00" "Netflix"
                        "https://www.youtube.com/watch?v=a1" true) eq_refl)).
Defined.

(* ================================================================== *)
(** * Dictionaries and the collection document: proofs *)
(* ================================================================== *)

(** ** [sorted] *)

Lemma insert_Z_perm (x : Z) (l : list Z) : Permutation (x :: l) (insert_Z x l).
Proof.
  induction l as [|y l IH]; cbn [insert_Z]; [reflexivity|].
  destruct (x <=? y); [reflexivity|].
  rewrite perm_swap. now apply perm_skip.
Qed.

Lemma sorted_Z_perm (l : list Z) : Permutation l (sorted_Z l).
Proof.
  induction l as [|x l IH]; cbn; [constructor|].
  rewrite <- insert_Z_perm. now apply perm_skip.
Qed.

Lemma insert_Z_sorted (x : Z) (l : list Z) :
  Sorted Z.le l -> Sorted Z.le (insert_Z x l).
Proof.
  induction l as [|y l IH]; cbn [insert_Z]; intros Hs.
  - repeat constructor.
  - destruct (x <=? y) eqn:E.
    + apply Z.leb_le in E. constructor; [assumption|]. now constructor.
    + apply Z.leb_gt in E. inversion Hs as [|? ? Hl Hhd]; subst.
      constructor; [now apply IH|].
      destruct l as [|z l]; cbn [insert_Z].
      * constructor. lia.
      * inversion Hhd; subst. destruct (x <=? z); constructor; lia.
Qed.

Lemma sorted_Z_sorted (l : list Z) : Sorted Z.le (sorted_Z l).
Proof.
  induction l as [|x l IH]; cbn; [constructor|]. now apply insert_Z_sorted.
Qed.

Section DictLemmas.

Context {V : Type}.
Implicit Types (d l : dict V) (k : string) (v : V).

Lemma dict_lookup_none d k : dict_lookup d k = None <-> ~ In k (keys d).
Proof.
  induction d as [|[k' v'] d IH]; cbn; [tauto|].
  destruct (String.eqb_spec k' k) as [->|Hne].
  - split; [discriminate|]. intros H. exfalso. apply H. now left.
  - rewrite IH. split.
    + intros H [He|Hin]; [contradiction|auto].
    + intros H Hin. apply H. now right.
Qed.

Lemma dict_set_absent k v d :
  ~ In k (keys d) -> dict_set k v d = (d ++ [(k, v)])%list.
Proof.
  induction d as [|[k' v'] d IH]; cbn; intros H; [reflexivity|].
  destruct (String.eqb_spec k' k) as [->|Hne].
  - exfalso. apply H. now left.
  - f_equal. apply IH. intros Hin. apply H. now right.
Qed.

Lemma keys_dict_set k v d :
  forall k', In k' (keys (dict_set k v d)) <-> k' = k \/ In k' (keys d).
Proof.
  intros k'. induction d as [|[k0 v0] d IH]; cbn.
  - intuition congruence.
  - destruct (String.eqb_spec k0 k) as [->|Hne]; cbn.
    + intuition congruence.
    + rewrite IH. intuition congruence.
Qed.

Lemma dict_lookup_set_same k v d : dict_lookup (dict_set k v d) k = Some v.
Proof.
  induction d as [|[k0 v0] d IH]; cbn.
  - now rewrite String.eqb_refl.
  - destruct (String.eqb_spec k0 k) as [->|Hne]; cbn.
    + now rewrite String.eqb_refl.
    + destruct (String.eqb_spec k0 k); [contradiction|apply IH].
Qed.

Lemma dict_lookup_set_other k k' v d :
  k <> k' -> dict_lookup (dict_set k v d) k' = dict_lookup d k'.
Proof.
  intros Hne. induction d as [|[k0 v0] d IH]; cbn.
  - destruct (String.eqb_spec k k'); [contradiction|reflexivity].
  - destruct (String.eqb_spec k0 k) as [->|Hne0]; cbn.
    + destruct (String.eqb_spec k k'); [contradiction|reflexivity].
    + destruct (String.eqb_spec k0 k'); [reflexivity|apply IH].
Qed.

(** A filter on keys that drops [k] does not see that [k] was set. *)
Lemma filter_dict_set_drop (p : string -> bool) k v d :
  p k = false ->
  filter (fun kv => p (fst kv)) (dict_set k v d) =
  filter (fun kv => p (fst kv)) d.
Proof.
  intros Hp. induction d as [|[k0 v0] d IH]; cbn.
  - now rewrite Hp.
  - destruct (String.eqb_spec k0 k) as [->|Hne]; cbn.
    + now rewrite Hp.
    + now rewrite IH.
Qed.

Lemma NoDup_keys_filter (p : string * V -> bool) d :
  NoDup (keys d) -> NoDup (keys (filter p d)).
Proof.
  induction d as [|[k v] d IH]; cbn; intros H; [constructor|].
  inversion H as [|? ? Hnotin Hnd]; subst.
  destruct (p (k, v)); cbn; [constructor|]; auto.
  intros Hin. apply Hnotin. unfold keys in *. apply in_map_iff in Hin.
  destruct Hin as ([k' v'] & <- & Hin). apply filter_In in Hin as [Hin _].
  apply in_map_iff. now exists (k', v').
Qed.

Lemma dict_lookup_filter (p : string -> bool) d k :
  dict_lookup (filter (fun kv => p (fst kv)) d) k =
  if p k then dict_lookup d k else None.
Proof.
  induction d as [|[k0 v0] d IH]; cbn; [now destruct (p k)|].
  destruct (p k0) eqn:Hp0; cbn.
  - destruct (String.eqb_spec k0 k) as [->|Hne]; [now rewrite Hp0|apply IH].
  - rewrite IH. destruct (String.eqb_spec k0 k) as [->|Hne]; [|reflexivity].
    now rewrite Hp0.
Qed.

End DictLemmas.

(** Closes a goal whose hypothesis [H] says that a literal key is among
    literal keys that differ from it, or among keys known not to hold it. *)
Ltac fresh_key H :=
  repeat match type of H with
         | In _ (_ ++ _)%list => apply in_app_or in H as [H|H]
         | In _ (_ :: _) => destruct H as [H|H]; [discriminate H|]
         | In _ [] => destruct H
         end;
  try contradiction.

Section CollectionProofs.

Context {Value : Type} (str_of_value : Value -> string).

Local Abbreviation conv := (stored_item str_of_value).

Lemma copy_config_cons (kv : string * Value) (cfg : dict Value)
      (data : dict (node Value)) :
  copy_config str_of_value (kv :: cfg) data =
  copy_config str_of_value cfg (dict_set (fst kv) (conv kv) data).
Proof.
  unfold copy_config, stored_item. cbn [fold_left].
  destruct (String.eqb (fst kv) "sort_title"); reflexivity.
Qed.

Lemma copy_config_lookup (cfg : dict Value) :
  NoDup (keys cfg) ->
  forall (data : dict (node Value)) (k : string),
  dict_lookup (copy_config str_of_value cfg data) k =
  match dict_lookup cfg k with
  | Some v => Some (conv (k, v))
  | None => dict_lookup data k
  end.
Proof.
  induction cfg as [|[k0 v0] cfg IH]; intros Hnd data k; [reflexivity|].
  inversion Hnd as [|? ? Hnotin Hnd']; subst.
  rewrite copy_config_cons, (IH Hnd'). cbn [dict_lookup fst].
  destruct (String.eqb_spec k0 k) as [->|Hne].
  - apply dict_lookup_none in Hnotin. rewrite Hnotin.
    apply dict_lookup_set_same.
  - destruct (dict_lookup cfg k); [reflexivity|].
    now apply dict_lookup_set_other.
Qed.

Lemma copy_config_filter (p : string -> bool) (cfg : dict Value) :
  NoDup (keys cfg) ->
  forall data : dict (node Value),
  (forall k, In k (keys cfg) -> p k = true -> ~ In k (keys data)) ->
  filter (fun kv => p (fst kv)) (copy_config str_of_value cfg data) =
  (filter (fun kv => p (fst kv)) data
   ++ filter (fun kv => p (fst kv))
             (map (fun kv => (fst kv, conv kv)) cfg))%list.
Proof.
  induction cfg as [|[k0 v0] cfg IH]; intros Hnd data Hfresh.
  - cbn. now rewrite app_nil_r.
  - inversion Hnd as [|? ? Hnotin Hnd']; subst.
    rewrite copy_config_cons. cbn [fst map filter].
    destruct (p k0) eqn:Hp.
    + rewrite IH; trivial.
      * rewrite dict_set_absent by (apply Hfresh; [now left|assumption]).
        rewrite filter_app. cbn [filter fst]. rewrite Hp.
        now rewrite <- app_assoc.
      * intros k Hin Hpk Hk. apply keys_dict_set in Hk as [->|Hk].
        -- contradiction.
        -- revert Hk. apply Hfresh; [now right|assumption].
    + rewrite IH; trivial.
      * now rewrite filter_dict_set_drop.
      * intros k Hin Hpk Hk. apply keys_dict_set in Hk as [->|Hk].
        -- congruence.
        -- revert Hk. apply Hfresh; [now right|assumption].
Qed.

Lemma filter_conv_others (cfg : dict Value) :
  filter (fun kv => negb (is_reserved (fst kv)))
         (map (fun kv => (fst kv, conv kv)) cfg) =
  plain_items (filter (fun kv => negb (is_reserved (fst kv))) cfg).
Proof.
  induction cfg as [|[k v] cfg IH]; [reflexivity|].
  cbn [map filter fst]. destruct (is_reserved k) eqn:Hr; cbn [negb].
  - apply IH.
  - unfold plain_items in *. cbn [map fst snd]. rewrite <- IH. f_equal.
    unfold stored_item. cbn [fst snd].
    destruct (String.eqb_spec k "sort_title") as [->|]; [discriminate Hr|].
    reflexivity.
Qed.

Lemma copy_others_appends (data : dict (node Value)) :
  forall ordered : dict (node Value),
  NoDup (keys (filter (fun kv => negb (is_reserved (fst kv))) data)) ->
  (forall k,
     In k (keys (filter (fun kv => negb (is_reserved (fst kv))) data)) ->
     ~ In k (keys ordered)) ->
  copy_others data ordered =
  (ordered ++ filter (fun kv => negb (is_reserved (fst kv))) data)%list.
Proof.
  unfold copy_others.
  induction data as [|[k v] data IH]; intros ordered Hnd Hfresh.
  - cbn. now rewrite app_nil_r.
  - cbn [fold_left filter fst snd] in *.
    destruct (negb (is_reserved k)) eqn:Hk.
    + cbn [keys map fst] in Hnd, Hfresh.
      inversion Hnd as [|? ? Hnotin Hnd']; subst.
      rewrite dict_set_absent by (apply Hfresh; now left).
      rewrite IH; trivial.
      * now rewrite <- app_assoc.
      * intros k' Hin Hk'. unfold keys in Hk'. rewrite map_app in Hk'.
        apply in_app_or in Hk' as [Hk'|[<-|[]]].
        -- revert Hk'. apply Hfresh. now right.
        -- contradiction.
    + now apply IH.
Qed.

Lemma keys_plain_items (d : dict Value) : keys (plain_items d) = keys d.
Proof.
  unfold keys, plain_items. rewrite map_map. reflexivity.
Qed.

Lemma keys_filter_others (cfg : dict Value) (k : string) :
  In k (keys (filter (fun kv => negb (is_reserved (fst kv))) cfg)) ->
  is_reserved k = false.
Proof.
  unfold keys. intros H. apply in_map_iff in H as ([k' v] & <- & H).
  apply filter_In in H as [_ H]. now apply negb_true_iff in H.
Qed.

(** The dictionary [ordered_collection] is the body [built_body]. *)
Lemma ordered_collection_built (cfg : dict Value) (summary ids : string) :
  NoDup (keys cfg) ->
  ordered_collection_of str_of_value cfg summary ids =
  built_body str_of_value cfg summary ids.
Proof.
  intros Hnd. unfold ordered_collection_of.
  set (data0 := copy_config str_of_value cfg [("summary", Str summary)]).
  set (data := dict_set "tvdb_show" (Str ids)
                 (dict_set "sync_mode" (Str "sync") data0)).
  assert (Hsummary : lookup_node data "summary" =
                     match dict_lookup cfg "summary" with
                     | Some v => Plain v
                     | None => Str summary
                     end).
  { unfold lookup_node, data, data0.
    rewrite !dict_lookup_set_other by discriminate.
    rewrite copy_config_lookup by assumption.
    destruct (dict_lookup cfg "summary"); reflexivity. }
  assert (Hsort : dict_lookup data "sort_title" =
                  option_map (fun v => Quoted (str_of_value v))
                             (dict_lookup cfg "sort_title")).
  { unfold data, data0.
    rewrite !dict_lookup_set_other by discriminate.
    rewrite copy_config_lookup by assumption.
    destruct (dict_lookup cfg "sort_title"); reflexivity. }
  assert (Hsync : lookup_node data "sync_mode" = Str "sync").
  { unfold lookup_node, data.
    rewrite dict_lookup_set_other by discriminate.
    now rewrite dict_lookup_set_same. }
  assert (Htvdb : lookup_node data "tvdb_show" = Str ids).
  { unfold lookup_node, data. now rewrite dict_lookup_set_same. }
  assert (Hothers :
    filter (fun kv => negb (is_reserved (fst kv))) data =
    plain_items (filter (fun kv => negb (is_reserved (fst kv))) cfg)).
  { unfold data, data0.
    rewrite !(filter_dict_set_drop (fun k => negb (is_reserved k)))
      by reflexivity.
    rewrite (copy_config_filter (fun k => negb (is_reserved k)))
      by (trivial; intros k _ Hk [<-|[]]; discriminate Hk).
    cbn [filter fst is_reserved]. apply filter_conv_others. }
  rewrite Hsummary, Hsync, Htvdb. unfold dict_has, lookup_node.
  rewrite Hsort. unfold built_body, sort_title_items.
  set (head := match dict_lookup cfg "summary" with
               | Some v => Plain v
               | None => Str summary
               end).
  set (others := plain_items
                   (filter (fun kv => negb (is_reserved (fst kv))) cfg)) in *.
  assert (Hres : forall k, In k (keys others) -> is_reserved k = false).
  { intros k Hk. unfold others in Hk. rewrite keys_plain_items in Hk.
    now apply keys_filter_others in Hk. }
  assert (Happend : forall extra : dict (node Value),
             (forall k', In k' (keys extra) -> is_reserved k' = true) ->
             copy_others data extra = (extra ++ others)%list).
  { intros extra Hextra. rewrite copy_others_appends; rewrite Hothers.
    - reflexivity.
    - unfold others. rewrite keys_plain_items. now apply NoDup_keys_filter.
    - intros k Hk Hin. apply Hres in Hk. apply Hextra in Hin. congruence. }
  assert (Hsync_fresh : ~ In "sync_mode" (keys others))
    by (intros H; apply Hres in H; discriminate H).
  assert (Htvdb_fresh : ~ In "tvdb_show" (keys others))
    by (intros H; apply Hres in H; discriminate H).
  destruct (dict_lookup cfg "sort_title") as [v|]; cbn [option_map dict_set].
  - cbn [String.eqb Ascii.eqb Bool.eqb].
    rewrite Happend by (intros k' [<-|[<-|[]]]; reflexivity).
    rewrite (dict_set_absent "sync_mode")
      by (unfold keys in *; rewrite ?map_app; cbn [map fst app];
          intros H; fresh_key H).
    rewrite (dict_set_absent "tvdb_show")
      by (unfold keys in *; rewrite ?map_app; cbn [map fst app];
          intros H; fresh_key H).
    now rewrite <- !app_assoc.
  - rewrite Happend by (intros k' [<-|[]]; reflexivity).
    rewrite (dict_set_absent "sync_mode")
      by (unfold keys in *; rewrite ?map_app; cbn [map fst app];
          intros H; fresh_key H).
    rewrite (dict_set_absent "tvdb_show")
      by (unfold keys in *; rewrite ?map_app; cbn [map fst app];
          intros H; fresh_key H).
    now rewrite <- !app_assoc.
Qed.

Lemma collection_config_NoDup (config : Config Value) :
  NoDup (keys (section_of config)) ->
  NoDup (keys (collection_config_of config)).
Proof.
  unfold section_of, collection_config_of, dict_remove.
  destruct (collection_upcoming_shows config); [|constructor].
  apply NoDup_keys_filter.
Qed.

Lemma collection_config_keys (config : Config Value) (k : string) :
  In k (keys (collection_config_of config)) -> In k (keys (section_of config)).
Proof.
  unfold section_of, collection_config_of, dict_remove, keys.
  destruct (collection_upcoming_shows config); [|intros []].
  intros H. apply in_map_iff in H as (kv & <- & H).
  apply filter_In in H as [H _]. now apply in_map.
Qed.

(** Without the keys that the code reserves, the body that is built is the
    one that the specification words. *)
Lemma built_body_claimed (cfg : dict Value) (summary ids : string) :
  (forall k, In k ["summary"; "sync_mode"; "tvdb_show"] -> ~ In k (keys cfg)) ->
  built_body str_of_value cfg summary ids =
  claimed_body str_of_value cfg summary ids.
Proof.
  intros Hfree. unfold built_body, claimed_body.
  assert (Hsum : dict_lookup cfg "summary" = None).
  { apply dict_lookup_none. apply Hfree. now left. }
  rewrite Hsum.
  assert (Hsame :
    filter (fun kv : string * Value => negb (is_reserved (fst kv))) cfg =
    filter (fun kv => negb (String.eqb (fst kv) "sort_title")) cfg).
  { apply filter_ext_in.
    intros [k v] Hin. cbn [fst]. unfold is_reserved, reserved_keys.
    cbn [existsb]. rewrite orb_false_r.
    assert (Hk : In k (keys cfg)) by (apply in_map_iff; now exists (k, v)).
    destruct (String.eqb_spec k "summary") as [->|_].
    { exfalso. revert Hk. apply Hfree. now left. }
    destruct (String.eqb_spec k "sync_mode") as [->|_].
    { exfalso. revert Hk. apply Hfree. right. now left. }
    destruct (String.eqb_spec k "tvdb_show") as [->|_].
    { exfalso. revert Hk. apply Hfree. right. right. now left. }
    cbn [orb]. now rewrite orb_false_r. }
  now rewrite Hsame.
Qed.

(** C3, as the code has it.  For shows of which one at least has a truthy
    identifier, the collection document is [collections: {name: body}] and
    nothing else, and the keys of the body come in this order: [summary] (the
    [summary] of the settings when they have one, the templated text
    otherwise), [sort_title] (when the settings have it, as a quoted string),
    the other keys of the settings in their order, without [collection_name],
    [summary], [sync_mode] and [tvdb_show], then [sync_mode] with the value
    ["sync"], then [tvdb_show] with the truthy identifiers of the shows,
    sorted and joined by commas.
    When the settings have none of the keys [summary], [sync_mode] and
    [tvdb_show], this is the body of the specification. *)
Theorem collection_document_built (shows : list Show) (config : Config Value) :
  NoDup (keys (section_of config)) ->
  tvdb_ids_of shows <> [] ->
  let cfg := collection_config_of config in
  let summary := summary_of str_of_value config in
  let ids := tvdb_ids_str_of (tvdb_ids_of shows) in
  create_collection_yaml str_of_value shows config =
  collection_document config (built_body str_of_value cfg summary ids)
  /\ ids = join ", " (map str_of_Z (sorted_Z (tvdb_ids_of shows)))
  /\ Sorted Z.le (sorted_Z (tvdb_ids_of shows))
  /\ Permutation (tvdb_ids_of shows) (sorted_Z (tvdb_ids_of shows))
  /\ ((forall k, In k ["summary"; "sync_mode"; "tvdb_show"] ->
                 ~ In k (keys (section_of config))) ->
      create_collection_yaml str_of_value shows config =
      collection_document config (claimed_body str_of_value cfg summary ids)).
Proof.
  intros Hnd Hids cfg summary ids.
  assert (Hbuilt : create_collection_yaml str_of_value shows config =
                   collection_document config
                     (built_body str_of_value cfg summary ids)).
  { unfold create_collection_yaml, collection_document.
    subst cfg summary ids.
    destruct shows as [|s shows]; [now contradiction Hids|]. cbn [is_nil].
    destruct (tvdb_ids_of (s :: shows)) as [|n ns];
      [now contradiction Hids|]. cbn [is_nil].
    now rewrite ordered_collection_built by now apply collection_config_NoDup. }
  split; [exact Hbuilt|]. split; [reflexivity|].
  split; [apply sorted_Z_sorted|]. split; [apply sorted_Z_perm|].
  intros Hfree. rewrite Hbuilt. rewrite built_body_claimed; [reflexivity|].
  intros k Hk Hin. apply (Hfree k Hk). now apply collection_config_keys.
Qed.

End CollectionProofs.

Lemma collection_document_built_witness :
  create_collection_yaml (fun s => s) sample_shows sample_config =
  Map [(Str "collections",
        Map [(Plain "Soon",
              Map [ (Str "summary", Plain "Mine");
                    (Str "sort_title", Quoted "+1_Soon");
                    (Str "collection_order", Plain "custom");
                    (Str "sync_mode", Str "sync");
                    (Str "tvdb_show", Str "5, 77") ])])].
Proof.
  assert (Hnd : NoDup (keys (section_of sample_config))).
  { repeat constructor; cbn; intuition discriminate. }
  assert (Hids : tvdb_ids_of sample_shows <> []) by discriminate.
  destruct (collection_document_built (fun s => s) sample_shows sample_config
              Hnd Hids) as [Hbuilt _].
  rewrite Hbuilt. reflexivity.
Defined.

(** C3 as it is stated fails on settings whose collection section has a
    [summary] of its own: the document takes that one, not the templated
    text. *)
Lemma collection_summary_overridden :
  tvdb_ids_of sample_shows <> []
  /\ create_collection_yaml (fun s => s) sample_shows sample_config <>
     collection_document sample_config
       (claimed_body (fun s => s) (collection_config_of sample_config)
          (summary_of (fun s => s) sample_config)
          (tvdb_ids_str_of (tvdb_ids_of sample_shows))).
Proof.
  split; [discriminate|]. vm_compute. intros H. discriminate H.
Qed.

(* ================================================================== *)
(** * Date formatting: proofs *)
(* ================================================================== *)

Lemma prefix_empty (s : string) : String.prefix "" s = true.
Proof. destruct s; reflexivity. Qed.

Lemma prefix_cons (a c : ascii) (p s : string) :
  String.prefix (String a p) (String c s) = true <->
  a = c /\ String.prefix p s = true.
Proof.
  cbn [String.prefix]. destruct (ascii_dec a c) as [->|Hne].
  - tauto.
  - split; [discriminate|]. intros [H _]. contradiction.
Qed.

Lemma contains_cons (p : string) (c : ascii) (s : string) :
  contains p (String c s) =
  String.prefix p (String c s) || contains p s.
Proof. reflexivity. Qed.

Section MarkersAndTokens.

(** [old] is what is replaced and [mark] what replaces it: a text that is not
    empty and has no letter of a token in it. *)
Variables (old mark : string).
Hypothesis mark_not_empty : mark <> "".
Hypothesis mark_opaque : all_chars (fun c => negb (token_char c)) mark = true.

Lemma prefix_mark (p rest : string) :
  p <> "" -> all_chars token_char p = true ->
  String.prefix p (mark ++ rest) = false.
Proof.
  intros Hp Hall. destruct p as [|a p]; [contradiction|].
  destruct mark as [|c m]; [contradiction|].
  cbn [all_chars] in *. apply andb_true_iff in Hall as [Ha _].
  apply andb_true_iff in mark_opaque as [Hc _].
  cbn [String.append String.prefix].
  destruct (ascii_dec a c) as [->|]; [|reflexivity].
  rewrite Ha in Hc. discriminate Hc.
Qed.

Lemma contains_past_mark (p rest : string) :
  p <> "" -> all_chars token_char p = true ->
  contains p (mark ++ rest) = true -> contains p rest = true.
Proof.
  intros Hp Hall. clear mark_not_empty.
  induction mark as [|c m IH]; [trivial|].
  cbn [all_chars] in mark_opaque.
  apply andb_true_iff in mark_opaque as [Hc Hm].
  cbn [String.append]. rewrite contains_cons.
  destruct p as [|a p']; [contradiction|].
  cbn [String.prefix]. destruct (ascii_dec a c) as [->|].
  - cbn [all_chars] in Hall. apply andb_true_iff in Hall as [Ha _].
    rewrite Ha in Hc. discriminate Hc.
  - cbn [orb]. now apply IH.
Qed.

(** A token at the head of the text after the replacement was at the head
    of the text before it. *)
Lemma prefix_replace_from (s : string) :
  forall p, all_chars token_char p = true ->
  String.prefix p (replace_from 0 old mark s) = true ->
  String.prefix p s = true.
Proof.
  induction s as [|c s IH]; intros p Hall.
  - trivial.
  - destruct p as [|a p]; [intros _; apply prefix_empty|].
    cbn [replace_from]. destruct (String.prefix old (String c s)).
    + rewrite prefix_mark; [discriminate|discriminate|assumption].
    + rewrite !prefix_cons. intros [-> H]. split; [reflexivity|].
      apply IH; [|assumption].
      cbn [all_chars] in Hall. now apply andb_true_iff in Hall as [_ Hall].
Qed.

(** The replacement of [old] by [mark] creates no occurrence of a token. *)
Lemma contains_replace_from (p : string) :
  p <> "" -> all_chars token_char p = true ->
  forall s skip,
  contains p (replace_from skip old mark s) = true -> contains p s = true.
Proof.
  intros Hp Hall. induction s as [|c s IH]; intros skip.
  - trivial.
  - rewrite (contains_cons p c s). destruct skip as [|k]; cbn [replace_from].
    + destruct (String.prefix old (String c s)) eqn:Hold.
      * intros H. apply contains_past_mark in H; trivial.
        apply IH in H. rewrite H. apply orb_true_r.
      * rewrite contains_cons. intros H. apply orb_true_iff in H as [H|H].
        -- replace (String c (replace_from 0 old mark s))
             with (replace_from 0 old mark (String c s)) in H
             by (cbn [replace_from]; now rewrite Hold).
           apply prefix_replace_from in H; trivial. now rewrite H.
        -- apply IH in H. rewrite H. apply orb_true_r.
    + intros H. apply IH in H. rewrite H. apply orb_true_r.
Qed.

Lemma contains_replace (p s : string) :
  old <> "" -> p <> "" -> all_chars token_char p = true ->
  contains p (replace old mark s) = true -> contains p s = true.
Proof.
  intros Hold Hp Hall. unfold replace.
  destruct old as [|c o] eqn:E; [contradiction|].
  rewrite <- E. now apply contains_replace_from.
Qed.

End MarkersAndTokens.

(** ** The characters of a date that [strptime] reads *)

Lemma upper_fixed (s : string) :
  all_chars (fun c => negb (islower c)) s = true -> upper s = s.
Proof.
  unfold upper.
  induction s as [|c s IH]; cbn [all_chars map_str]; intros H; [reflexivity|].
  apply andb_true_iff in H as [Hc Hs]. apply negb_true_iff in Hc.
  rewrite (IH Hs). unfold upper_char. now rewrite Hc.
Qed.

Lemma all_chars_append (p : ascii -> bool) (a b : string) :
  all_chars p (a ++ b) = all_chars p a && all_chars p b.
Proof.
  induction a as [|c a IH]; cbn; [reflexivity|].
  now rewrite IH, andb_assoc.
Qed.

Lemma digit_not_lower (c : ascii) (v : Z) :
  digit_val c = Some v -> negb (islower c) = true.
Proof.
  unfold digit_val. destruct (isdigit c) eqn:E; [intros _|discriminate].
  unfold isdigit, islower, in_range in *.
  apply andb_true_iff in E as [_ E]. apply N.leb_le in E.
  apply negb_true_iff, andb_false_iff. left. apply N.leb_gt. lia.
Qed.

Lemma digits2_not_lower (a b : ascii) (v : Z) :
  digits2 a b = Some v ->
  negb (islower a) = true /\ negb (islower b) = true.
Proof.
  unfold digits2.
  destruct (digit_val a) eqn:Ha; [|discriminate].
  destruct (digit_val b) eqn:Hb; [|discriminate].
  intros _. split; eapply digit_not_lower; eassumption.
Qed.

Lemma split_dash_inv (s a b : string) :
  split_dash s = Some (a, b) -> s = a ++ String "-" b.
Proof.
  revert a. induction s as [|c s IH]; intros a; cbn; [discriminate|].
  destruct (Ascii.eqb_spec c "-") as [->|_].
  - now intros [= <- <-].
  - destruct (split_dash s) as [[a' b']|]; [|discriminate].
    intros [= <- <-]. cbn. f_equal. now apply IH.
Qed.

Lemma month_field_not_lower (s : string) (v : Z) :
  month_field s = Some v -> all_chars (fun c => negb (islower c)) s = true.
Proof.
  destruct s as [|a [|b [|? ?]]]; cbn; try discriminate.
  - destruct (digit_val a) eqn:Ha; [|discriminate]. intros _.
    now rewrite (digit_not_lower _ _ Ha).
  - destruct (digits2 a b) eqn:Hab; [|discriminate]. intros _.
    destruct (digits2_not_lower _ _ _ Hab) as [-> ->]. reflexivity.
Qed.

Lemma day_field_not_lower (s : string) (v : Z) :
  day_field s = Some v -> all_chars (fun c => negb (islower c)) s = true.
Proof.
  destruct s as [|a [|b [|? ?]]]; cbn; try discriminate.
  - destruct (digit_val a) eqn:Ha; [|discriminate]. intros _.
    now rewrite (digit_not_lower _ _ Ha).
  - destruct (Ascii.eqb_spec a " ") as [->|_].
    + destruct (digit_val b) eqn:Hb; [|discriminate]. intros _.
      now rewrite (digit_not_lower _ _ Hb).
    + destruct (digits2 a b) eqn:Hab; [|discriminate]. intros _.
      destruct (digits2_not_lower _ _ _ Hab) as [-> ->]. reflexivity.
Qed.

(** A text that [strptime] reads has no lower-case letter. *)
Lemma strptime_upper (s : string) (dt : date) :
  strptime_ymd s = Some dt -> upper s = s.
Proof.
  intros H. apply upper_fixed. unfold strptime_ymd in H.
  destruct s as [|y1 [|y2 [|y3 [|y4 [|dash rest]]]]]; try discriminate H.
  destruct (digits2 y1 y2) eqn:H12; [|discriminate H].
  destruct (digits2 y3 y4) eqn:H34; [|discriminate H].
  destruct (split_dash rest) as [[mp dp]|] eqn:Hsplit; [|discriminate H].
  destruct (month_field mp) eqn:Hm; [|discriminate H].
  destruct (day_field dp) eqn:Hd; [|discriminate H].
  destruct (Ascii.eqb_spec dash "-") as [->|_]; [|discriminate H].
  apply split_dash_inv in Hsplit. subst rest.
  destruct (digits2_not_lower _ _ _ H12) as [E1 E2].
  destruct (digits2_not_lower _ _ _ H34) as [E3 E4].
  cbn [all_chars]. rewrite E1, E2, E3, E4. cbn [andb negb].
  rewrite all_chars_append. cbn [all_chars].
  rewrite (month_field_not_lower _ _ Hm), (day_field_not_lower _ _ Hd).
  reflexivity.
Qed.

Section FormatDateProofs.

Variable libc_directive : date -> string -> option (string * nat).

Lemma patterns_order (dt : date) :
  patterns dt =
  ["mmmm"; "dddd"; "yyyy"; "mmm"; "ddd"; "yyy"; "mm"; "dd"; "yy";
   "m"; "d"; "y"].
Proof. reflexivity. Qed.

(** The markers of the first loop are opaque, the patterns are tokens. *)
Lemma enumerated_pattern (dt : date) (i : nat) (pattern : string) :
  In (i, pattern) (enumerate (patterns dt)) ->
  pattern <> "" /\ all_chars token_char pattern = true
  /\ marker i <> ""
  /\ all_chars (fun c => negb (token_char c)) (marker i) = true.
Proof.
  rewrite patterns_order. cbn [enumerate enumerate_from In].
  intros H.
  repeat (destruct H as [[= <- <-]|H];
          [repeat split; try discriminate; reflexivity|]).
  destruct H.
Qed.

Lemma pattern_is_token (dt : date) (token : string) :
  In token (patterns dt) ->
  token <> "" /\ all_chars token_char token = true.
Proof.
  rewrite patterns_order. cbn [In]. intros H.
  repeat (destruct H as [<-|H];
          [split; [discriminate|reflexivity]|]).
  destruct H.
Qed.

(** The replacements that the first loop records are those of markers. *)
Lemma mark_patterns_replacements (dt : date) (l : list (nat * string)) :
  forall (st : string * list (string * string)) (k v : string),
  In (k, v) (snd (fold_left (mark_step dt) l st)) ->
  In (k, v) (snd st)
  \/ exists i pattern,
       In (i, pattern) l /\ k = marker i
       /\ v = dict_item (format_mapping dt) pattern.
Proof.
  induction l as [|[i pattern] l IH]; intros st k v; cbn [fold_left].
  - now left.
  - intros H. apply IH in H as [H|(j & q & Hin & -> & ->)].
    + destruct st as [temp_format replacements]. cbn [mark_step] in H.
      destruct (contains pattern temp_format); [|now left].
      cbn [snd] in *. apply in_app_or in H as [H|[[= <- <-]|[]]].
      * now left.
      * right. exists i, pattern. repeat split. now left.
    + right. exists j, q. repeat split. now right.
Qed.

(** What holds of the two passes.  [format_date] gives ["MARCH 7, 2025"] and
    ["2025-03-07"] on the two examples, whatever the C library.  The tokens
    are tried from the longest to the shortest.  The first pass puts markers
    only, and a marker creates no occurrence of a token; the texts of the
    mapping come in by the second pass, which replaces markers only.  With
    [capitalize] the result is the one without it, in upper case. *)
Lemma format_date_two_pass (dt : date) :
  format_date libc_directive "2025-03-07" "mmmm d, yyyy" true =
    Some "MARCH 7, 2025"
  /\ format_date libc_directive "2025-03-07" "yyyy-mm-dd" false =
     Some "2025-03-07"
  /\ patterns dt =
     ["mmmm"; "dddd"; "yyyy"; "mmm"; "ddd"; "yyy"; "mm"; "dd"; "yy";
      "m"; "d"; "y"]
  /\ longest_first (patterns dt) = true
  /\ (forall i pattern token date_format,
        In (i, pattern) (enumerate (patterns dt)) ->
        In token (patterns dt) ->
        contains token (replace pattern (marker i) date_format) = true ->
        contains token date_format = true)
  /\ (forall date_format k v,
        In (k, v) (snd (mark_patterns dt date_format)) ->
        exists i pattern,
          In (i, pattern) (enumerate (patterns dt))
          /\ k = marker i /\ v = dict_item (format_mapping dt) pattern)
  /\ (forall yyyy_mm_dd date_format result,
        strptime_ymd yyyy_mm_dd = Some dt ->
        strftime libc_directive dt (strftime_format dt date_format) =
          Some result ->
        format_date libc_directive yyyy_mm_dd date_format true =
          Some (upper result)
        /\ format_date libc_directive yyyy_mm_dd date_format false =
           Some result)
  /\ (forall yyyy_mm_dd date_format,
        format_date libc_directive yyyy_mm_dd date_format true =
        option_map upper
          (format_date libc_directive yyyy_mm_dd date_format false)).
Proof.
  split; [reflexivity|]. split; [reflexivity|].
  split; [apply patterns_order|]. split; [reflexivity|].
  split; [|split; [|split]].
  - intros i pattern token date_format Hi Htoken.
    destruct (enumerated_pattern dt i pattern Hi) as (Hp & _ & Hm & Hopaque).
    destruct (pattern_is_token dt token Htoken) as (Ht & Hall).
    now apply contains_replace.
  - intros date_format k v H. unfold mark_patterns in H.
    apply mark_patterns_replacements in H as [[]|H]. exact H.
  - intros yyyy_mm_dd date_format result Hdate Hrender.
    unfold format_date. rewrite Hdate, Hrender. split; reflexivity.
  - intros yyyy_mm_dd date_format. unfold format_date.
    destruct (strptime_ymd yyyy_mm_dd) as [d|] eqn:Hdate; [|reflexivity].
    destruct (strftime libc_directive d (strftime_format d date_format));
      cbn [option_map]; [reflexivity|].
    now rewrite (strptime_upper _ _ Hdate).
Qed.

(** C5, where the code departs from it.  On the pattern ["dd6mm"] the first
    pass leaves ["@@7@@6@@6@@"]: the end of the marker of [dd], the digit of
    the pattern and the start of the marker of [mm] read as the marker of
    [mm].  The second pass replaces that occurrence, which breaks both
    markers, and [format_date] returns ["@@7036@@"] for 2025-03-07, where the
    substitution of the tokens gives ["07603"].  On the two examples of the
    specification the two agree. *)
Theorem format_date_forged_marker :
  mark_patterns (mkdate 2025 3 7) "dd6mm" =
    ("@@7@@6@@6@@", [("@@6@@", "%m"); ("@@7@@", "%d")])
  /\ strftime_format (mkdate 2025 3 7) "dd6mm" = "@@7%m6@@"
  /\ format_date libc_directive "2025-03-07" "dd6mm" false = Some "@@7036@@"
  /\ spec_format_date "2025-03-07" "dd6mm" false = Some "07603"
  /\ format_date libc_directive "2025-03-07" "mmmm d, yyyy" true =
     spec_format_date "2025-03-07" "mmmm d, yyyy" true
  /\ format_date libc_directive "2025-03-07" "yyyy-mm-dd" false =
     spec_format_date "2025-03-07" "yyyy-mm-dd" false.
Proof. repeat split. Qed.

End FormatDateProofs.

(** ** Dates in ISO format are dates that [strptime] reads *)

Lemma Z_range_check (f : Z -> bool) (first last : Z) :
  forallb f (Z_range first last) = true ->
  forall z, first <= z <= last -> f z = true.
Proof.
  intros Hall z Hz. rewrite forallb_forall in Hall. apply Hall.
  unfold Z_range. apply in_map_iff. exists (Z.to_nat (z - first)).
  split; [lia|]. apply in_seq. lia.
Qed.

Lemma pad4_reads_back_all (y : Z) :
  1 <= y <= 9999 -> pad4_reads_back y = true.
Proof.
  apply (Z_range_check pad4_reads_back 1 9999). vm_compute. reflexivity.
Qed.

Lemma month_reads_back (m : Z) :
  1 <= m <= 12 -> pad2_reads_back month_field m = true.
Proof.
  apply (Z_range_check (pad2_reads_back month_field) 1 12).
  vm_compute. reflexivity.
Qed.

Lemma day_reads_back (d : Z) :
  1 <= d <= 31 -> pad2_reads_back day_field d = true.
Proof.
  apply (Z_range_check (pad2_reads_back day_field) 1 31).
  vm_compute. reflexivity.
Qed.

Lemma split_dash_append (a rest : string) :
  all_chars (fun c => negb (Ascii.eqb c "-")) a = true ->
  split_dash (a ++ String "-" rest) = Some (a, rest).
Proof.
  induction a as [|c a IH]; cbn [all_chars String.append split_dash].
  - reflexivity.
  - intros H. apply andb_true_iff in H as [Hc Ha].
    apply negb_true_iff in Hc. rewrite Hc. now rewrite IH.
Qed.

Lemma days_in_month_le (y m : Z) : days_in_month y m <= 31.
Proof.
  unfold days_in_month.
  repeat match goal with |- context [if ?b then _ else _] => destruct b end;
    lia.
Qed.

(** [strptime] reads the ISO format of a date of the calendar back as that
    date. *)
Lemma strptime_isoformat (d : date) :
  valid_date d = true -> strptime_ymd (isoformat d) = Some d.
Proof.
  destruct d as [y m dd]. unfold valid_date. cbn [year month day].
  rewrite !andb_true_iff, !Z.leb_le.
  intros [[[[[Hy1 Hy2] Hm1] Hm2] Hd1] Hd2].
  pose proof (days_in_month_le y m) as Hle.
  pose proof (pad4_reads_back_all y (conj Hy1 Hy2)) as Hy.
  pose proof (month_reads_back m (conj Hm1 Hm2)) as Hm.
  pose proof (day_reads_back dd ltac:(lia)) as Hd.
  unfold isoformat. cbn [year month day].
  unfold pad4_reads_back in Hy.
  destruct (pad4 y) as [|a [|b [|c [|e [|? ?]]]]]; try discriminate Hy.
  destruct (digits2 a b) as [hi|] eqn:Hhi; [|discriminate Hy].
  destruct (digits2 c e) as [lo|] eqn:Hlo; [|discriminate Hy].
  apply andb_true_iff in Hy as [Hhi' Hlo']. apply Z.eqb_eq in Hhi', Hlo'.
  unfold pad2_reads_back in Hm, Hd.
  apply andb_true_iff in Hm as [Hmdash Hm], Hd as [_ Hd].
  destruct (month_field (pad2 m)) as [m'|] eqn:Hmf; [|discriminate Hm].
  destruct (day_field (pad2 dd)) as [d'|] eqn:Hdf; [|discriminate Hd].
  apply Z.eqb_eq in Hm, Hd. subst m' d' hi lo.
  cbn [String.append strptime_ymd]. rewrite Hhi, Hlo.
  change (String "-" (pad2 dd)) with ("-" ++ pad2 dd).
  replace (pad2 m ++ "-" ++ pad2 dd) with (pad2 m ++ String "-" (pad2 dd))
    by reflexivity.
  rewrite (split_dash_append _ _ Hmdash), Hmf, Hdf.
  replace (100 * (y / 100) + y mod 100) with y
    by (rewrite <- Z.div_mod; lia).
  cbn [Ascii.eqb Bool.eqb andb].
  destruct (1 <=? y) eqn:E1; [|apply Z.leb_gt in E1; lia].
  destruct (dd <=? days_in_month y m) eqn:E2; [|apply Z.leb_gt in E2; lia].
  reflexivity.
Qed.

Section FormatDateFallback.

Variable libc_directive : date -> string -> option (string * nat).

Lemma format_date_cases (yyyy_mm_dd date_format : string) (capitalize : bool)
      (dt : date) :
  strptime_ymd yyyy_mm_dd = Some dt ->
  (exists text,
     format_date libc_directive yyyy_mm_dd date_format capitalize = Some text)
  /\ (strftime libc_directive dt (strftime_format dt date_format) = None ->
      format_date libc_directive yyyy_mm_dd date_format capitalize =
      Some yyyy_mm_dd)
  /\ (forall result,
        strftime libc_directive dt (strftime_format dt date_format) =
          Some result ->
        format_date libc_directive yyyy_mm_dd date_format capitalize =
        Some (if capitalize then upper result else result)).
Proof.
  intros Hdate. unfold format_date. rewrite Hdate.
  destruct (strftime libc_directive dt (strftime_format dt date_format))
    as [result|].
  - split; [eauto|]. split; [discriminate|]. now intros ? [= <-].
  - split; [eauto|]. split; [reflexivity|]. discriminate.
Qed.

(** C9.  On the ISO text of a date of the calendar, and on any text that
    [strptime] reads, [format_date] returns a text whatever the pattern: the
    rendered one, or the date text as it was given when rendering the
    pattern raises [ValueError]. *)
Theorem format_date_falls_back (date_format : string) (capitalize : bool) :
  (forall d, valid_date d = true ->
     (exists text,
        format_date libc_directive (isoformat d) date_format capitalize =
        Some text)
     /\ (strftime libc_directive d (strftime_format d date_format) = None ->
         format_date libc_directive (isoformat d) date_format capitalize =
         Some (isoformat d))
     /\ (forall result,
           strftime libc_directive d (strftime_format d date_format) =
             Some result ->
           format_date libc_directive (isoformat d) date_format capitalize =
           Some (if capitalize then upper result else result)))
  /\ (forall yyyy_mm_dd dt, strptime_ymd yyyy_mm_dd = Some dt ->
       (exists text,
          format_date libc_directive yyyy_mm_dd date_format capitalize =
          Some text)
       /\ (strftime libc_directive dt (strftime_format dt date_format) = None ->
           format_date libc_directive yyyy_mm_dd date_format capitalize =
           Some yyyy_mm_dd)
       /\ (forall result,
             strftime libc_directive dt (strftime_format dt date_format) =
               Some result ->
             format_date libc_directive yyyy_mm_dd date_format capitalize =
             Some (if capitalize then upper result else result))).
Proof.
  split.
  - intros d Hd. apply format_date_cases. now apply strptime_isoformat.
  - intros yyyy_mm_dd dt. apply format_date_cases.
Qed.

End FormatDateFallback.

Lemma format_date_falls_back_witness :
  isoformat (mkdate 2025 3 7) = "2025-03-07"
  /\ strftime strict_directive (mkdate 2025 3 7)
              (strftime_format (mkdate 2025 3 7) "m/d") = None
  /\ format_date strict_directive "2025-03-07" "m/d" true = Some "2025-03-07".
Proof.
  split; [reflexivity|]. split; [reflexivity|].
  exact (proj1 (proj2 (proj1 (format_date_falls_back strict_directive "m/d"
                                true) (mkdate 2025 3 7) eq_refl)) eq_refl).
Defined.

(** Each token alone, on 2025-03-07 with the GNU C library. *)
Example format_date_tokens :
  map (fun token => format_date glibc_directive "2025-03-07" token false)
      (patterns (mkdate 2025 3 7)) =
  map Some ["March"; "Friday"; "2025"; "Mar"; "Fri"; "2025"; "03"; "07"; "25";
            "3"; "7"; "25"].
Proof. reflexivity. Qed.

(** A C library without ["%-m"] makes the token [m] fall back. *)
Example format_date_strict_month :
  format_date strict_directive "2025-03-07" "d/m/yyyy" false =
  Some "2025-03-07".
Proof. reflexivity. Qed.

(** Each token alone, as the specification words the substitution. *)
Example spec_format_date_tokens :
  map (fun token => spec_format_date "2025-03-07" token false)
      (patterns (mkdate 2025 3 7)) =
  map Some ["March"; "Friday"; "2025"; "Mar"; "Fri"; "2025"; "03"; "07"; "25";
            "3"; "7"; "25"].
Proof. reflexivity. Qed.

(** Other patterns with a digit between two tokens. *)
Example format_date_forged_markers :
  format_date glibc_directive "2025-03-07" "d9m" false = Some "@@1039@@"
  /\ spec_format_date "2025-03-07" "d9m" false = Some "793"
  /\ format_date glibc_directive "2025-03-07" "y10d" false = Some "@@11710@@"
  /\ spec_format_date "2025-03-07" "y10d" false = Some "25107".
Proof. repeat split. Qed.

(* ================================================================== *)
(** * The base title: proofs *)
(* ================================================================== *)

Lemma append_nil_r (s : string) : s ++ "" = s.
Proof. induction s as [|c s IH]; cbn; [reflexivity|now rewrite IH]. Qed.

Lemma append_assoc (a b c : string) : (a ++ b) ++ c = a ++ (b ++ c).
Proof. induction a as [|x a IH]; cbn; [reflexivity|now rewrite IH]. Qed.

Lemma length_append (a b : string) :
  String.length (a ++ b) = (String.length a + String.length b)%nat.
Proof. induction a as [|x a IH]; cbn; [reflexivity|now rewrite IH]. Qed.

(** ** White space at both ends *)

Lemma lstrip_all_space (ws : string) :
  all_chars isspace ws = true -> forall s, lstrip (ws ++ s) = lstrip s.
Proof.
  induction ws as [|c ws IH]; cbn; intros H s; [reflexivity|].
  apply andb_true_iff in H as [Hc Hws]. rewrite Hc. now apply IH.
Qed.

Lemma lstrip_all_space_nil (ws : string) :
  all_chars isspace ws = true -> lstrip ws = "".
Proof.
  intros H. rewrite <- (append_nil_r ws). now rewrite lstrip_all_space.
Qed.

Lemma rstrip_nil_iff (s : string) :
  rstrip s = "" <-> all_chars isspace s = true.
Proof.
  induction s as [|c s IH]; cbn; [tauto|].
  destruct (rstrip s) as [|x r].
  - destruct (isspace c); cbn.
    + split; [intros _; now apply IH|reflexivity].
    + split; discriminate.
  - split; [discriminate|]. intros H. apply andb_true_iff in H as [_ H].
    apply IH in H. discriminate H.
Qed.

Lemma rstrip_idempotent (s : string) : rstrip (rstrip s) = rstrip s.
Proof.
  induction s as [|c s IH]; cbn; [reflexivity|].
  destruct (rstrip s) as [|x r] eqn:E.
  - destruct (isspace c) eqn:Hc; cbn; [reflexivity|now rewrite Hc].
  - cbn [rstrip] in *. now rewrite IH.
Qed.

Lemma rstrip_append_space (s ws : string) :
  all_chars isspace ws = true -> rstrip (s ++ ws) = rstrip s.
Proof.
  intros Hws. induction s as [|c s IH]; cbn.
  - now apply rstrip_nil_iff.
  - now rewrite IH.
Qed.

(** ** Year tokens *)

Lemma year_token_head (s rest : string) :
  year_token s = Some rest ->
  exists o tail, s = String o tail /\ is_open o = true.
Proof.
  destruct s as [|o [|d1 [|d2 [|d3 [|d4 [|c r]]]]]]; try discriminate.
  cbn. destruct (is_open o) eqn:Ho; [|discriminate].
  intros _. exists o. eexists. split; [reflexivity|exact Ho].
Qed.

Lemma open_not_space (c : ascii) : is_open c = true -> isspace c = false.
Proof.
  unfold is_open. intros H. apply orb_true_iff in H as [H|H];
    apply Ascii.eqb_eq in H; subst; reflexivity.
Qed.

Lemma digit_not_space (c : ascii) : isdigit c = true -> isspace c = false.
Proof.
  unfold isdigit, isspace, in_range.
  rewrite andb_true_iff, !N.leb_le. intros [H1 H2].
  apply orb_false_iff. split; apply andb_false_iff.
  - right. apply N.leb_gt. lia.
  - right. apply N.leb_gt. lia.
Qed.

Lemma close_not_space (c : ascii) : is_close c = true -> isspace c = false.
Proof.
  unfold is_close. intros H. apply orb_true_iff in H as [H|H];
    apply Ascii.eqb_eq in H; subst; reflexivity.
Qed.

Lemma year_token_append (s rest more : string) :
  year_token s = Some rest -> year_token (s ++ more) = Some (rest ++ more).
Proof.
  destruct s as [|o [|d1 [|d2 [|d3 [|d4 [|c r]]]]]]; try discriminate.
  cbn. destruct (_ && _); [|discriminate]. now intros [= <-].
Qed.

Lemma sub_year_exhausted (s : string) :
  forall skip, (String.length s <= skip)%nat -> sub_year skip s = "".
Proof.
  induction s as [|c s IH]; intros skip H; [reflexivity|].
  cbn in H. destruct skip as [|k]; [lia|]. cbn. apply IH. lia.
Qed.

(** Where nothing matches, the scan keeps the character. *)
Lemma sub_year_keep (c : ascii) (s : string) :
  match_year (String c s) = None ->
  sub_year 0 (String c s) = String c (sub_year 0 s).
Proof. intros H. cbn [sub_year]. now rewrite H. Qed.

Lemma sub_year_match (c : ascii) (s : string) (n : nat) :
  match_year (String c s) = Some n ->
  sub_year 0 (String c s) = String " " (sub_year (n - 1) s).
Proof. intros H. cbn [sub_year]. now rewrite H. Qed.

Lemma year_token_inv (s rest : string) :
  year_token s = Some rest ->
  exists o d1 d2 d3 d4 c,
    s = String o (String d1 (String d2 (String d3 (String d4 (String c rest)))))
    /\ is_open o = true /\ isdigit d1 = true /\ isdigit d2 = true
    /\ isdigit d3 = true /\ isdigit d4 = true /\ is_close c = true.
Proof.
  destruct s as [|o [|d1 [|d2 [|d3 [|d4 [|c r]]]]]]; try discriminate.
  cbn.
  destruct (is_open o) eqn:Ho, (isdigit d1) eqn:H1, (isdigit d2) eqn:H2,
    (isdigit d3) eqn:H3, (isdigit d4) eqn:H4, (is_close c) eqn:Hc;
    try discriminate.
  intros [= <-]. exists o, d1, d2, d3, d4, c. repeat split; assumption.
Qed.

(** A character of the result that is not a white space was kept from the
    title, at a place where nothing matches. *)
Lemma sub_year_head (s : string) (x : ascii) (r : string) :
  sub_year 0 s = String x r -> isspace x = false ->
  exists s', s = String x s' /\ r = sub_year 0 s'
             /\ match_year s = None.
Proof.
  destruct s as [|c s]; [discriminate|]. cbn [sub_year].
  destruct (match_year (String c s)) as [n|].
  - intros [= <- _] H. discriminate H.
  - intros [= <- <-] _. now exists s.
Qed.

(** No year token starts the result of the substitution. *)
Lemma year_token_sub_year (s : string) : year_token (sub_year 0 s) = None.
Proof.
  destruct (year_token (sub_year 0 s)) as [rest|] eqn:E; [|reflexivity].
  exfalso.
  apply year_token_inv in E
    as (o & d1 & d2 & d3 & d4 & c & E & Ho & H1 & H2 & H3 & H4 & Hc).
  apply sub_year_head in E as (s1 & -> & E & Hnone);
    [|now apply open_not_space].
  symmetry in E.
  apply sub_year_head in E as (s2 & -> & E & _); [|now apply digit_not_space].
  symmetry in E.
  apply sub_year_head in E as (s3 & -> & E & _); [|now apply digit_not_space].
  symmetry in E.
  apply sub_year_head in E as (s4 & -> & E & _); [|now apply digit_not_space].
  symmetry in E.
  apply sub_year_head in E as (s5 & -> & E & _); [|now apply digit_not_space].
  symmetry in E.
  apply sub_year_head in E as (s6 & -> & E & _); [|now apply close_not_space].
  unfold match_year in Hnone. cbn [lstrip] in Hnone.
  rewrite (open_not_space o Ho) in Hnone. cbn [year_token] in Hnone.
  rewrite Ho, H1, H2, H3, H4, Hc in Hnone. discriminate Hnone.
Qed.

Lemma has_year_token_sub_year (s : string) :
  forall skip, has_year_token (sub_year skip s) = false.
Proof.
  induction s as [|c s IH]; intros skip; [reflexivity|].
  destruct skip as [|k]; [|apply IH].
  destruct (match_year (String c s)) as [n|] eqn:E.
  - rewrite (sub_year_match _ _ _ E). cbn [has_year_token].
    replace (year_token (String " " (sub_year (n - 1) s))) with (@None string).
    + apply IH.
    + destruct (sub_year (n - 1) s) as [|? [|? [|? [|? [|? ?]]]]]; reflexivity.
  - pose proof (year_token_sub_year (String c s)) as Hhead.
    rewrite (sub_year_keep _ _ E) in *. cbn [has_year_token].
    rewrite Hhead. apply IH.
Qed.

Lemma has_year_token_cons (c : ascii) (s : string) :
  has_year_token s = true -> has_year_token (String c s) = true.
Proof.
  intros H. cbn [has_year_token]. now destruct (year_token (String c s)).
Qed.

Lemma has_year_token_lstrip (s : string) :
  has_year_token (lstrip s) = true -> has_year_token s = true.
Proof.
  induction s as [|c s IH]; [trivial|]. cbn [lstrip].
  destruct (isspace c); [|trivial].
  intros H. apply has_year_token_cons. now apply IH.
Qed.

Lemma has_year_token_append (a b : string) :
  has_year_token a = true -> has_year_token (a ++ b) = true.
Proof.
  induction a as [|c a IH]; [discriminate|].
  cbn [has_year_token String.append].
  destruct (year_token (String c a)) as [r|] eqn:E.
  - intros _. apply (year_token_append _ _ b) in E.
    cbn [String.append] in E. now rewrite E.
  - intros H. apply IH in H.
    now destruct (year_token (String c (a ++ b))).
Qed.

Lemma rstrip_prefix (s : string) : exists ws, s = rstrip s ++ ws.
Proof.
  induction s as [|c s [ws IH]]; [now exists ""|]. cbn [rstrip].
  destruct (rstrip s) as [|x r].
  - destruct (isspace c).
    + now exists (String c s).
    + exists s. reflexivity.
  - exists ws. cbn [String.append] in *. now f_equal.
Qed.

Lemma has_year_token_rstrip (s : string) :
  has_year_token (rstrip s) = true -> has_year_token s = true.
Proof.
  intros H. destruct (rstrip_prefix s) as [ws E]. rewrite E.
  now apply has_year_token_append.
Qed.

Lemma no_token_no_match (s : string) :
  has_year_token s = false -> match_year s = None.
Proof.
  intros H. unfold match_year.
  destruct (year_token (lstrip s)) as [rest|] eqn:E; [|reflexivity].
  assert (Hl : has_year_token (lstrip s) = true).
  { destruct (lstrip s) as [|c l]; [discriminate E|].
    cbn [has_year_token]. now rewrite E. }
  apply has_year_token_lstrip in Hl. congruence.
Qed.

(** A title without a year token goes through the substitution as it is. *)
Lemma sub_year_no_token (s : string) :
  has_year_token s = false -> sub_year 0 s = s.
Proof.
  induction s as [|c s IH]; intros H; [reflexivity|].
  rewrite sub_year_keep by now apply no_token_no_match.
  f_equal. apply IH. cbn [has_year_token] in H.
  now destruct (year_token (String c s)).
Qed.

Lemma lstrip_not_space (pre rest : string) :
  all_chars isspace pre = false ->
  all_chars (fun c => negb (is_open c)) pre = true ->
  year_token (lstrip (pre ++ rest)) = None.
Proof.
  induction pre as [|c pre IH]; [discriminate|].
  cbn [all_chars String.append lstrip]. intros Hsp Hop.
  apply andb_true_iff in Hop as [Hc Hop].
  destruct (isspace c) eqn:E.
  - cbn [andb] in Hsp. now apply IH.
  - destruct (year_token (String c (pre ++ rest))) as [r|] eqn:Ht;
      [|reflexivity].
    apply year_token_head in Ht as (o & tail & [= <- _] & Ho).
    rewrite Ho in Hc. discriminate Hc.
Qed.

Lemma sub_year_whole (ws tok ws' : string) :
  all_chars isspace ws = true -> year_token tok = Some "" ->
  all_chars isspace ws' = true ->
  sub_year 0 (ws ++ tok ++ ws') = " ".
Proof.
  intros Hws Htok Hws'.
  assert (Hmatch : match_year (ws ++ tok ++ ws') =
                   Some (String.length (ws ++ tok ++ ws'))).
  { unfold match_year. rewrite lstrip_all_space by assumption.
    destruct (year_token_head _ _ Htok) as (o & tail & -> & Ho).
    cbn [String.append lstrip]. rewrite (open_not_space o Ho).
    apply (year_token_append _ _ ws') in Htok.
    cbn [String.append] in Htok. rewrite Htok.
    rewrite (lstrip_all_space_nil ws') by assumption.
    cbn [String.length]. now rewrite Nat.sub_0_r. }
  destruct (ws ++ tok ++ ws') as [|c s] eqn:E.
  - destruct (year_token_head _ _ Htok) as (o & tail & -> & _).
    destruct ws; discriminate E.
  - rewrite (sub_year_match _ _ _ Hmatch). f_equal.
    apply sub_year_exhausted. cbn [String.length]. lia.
Qed.

(** A title made of a text without opening bracket, a year token and white
    space: the substitution keeps the text up to its last character that is
    not a white space, and puts one space. *)
Lemma sub_year_trailing (pre tok ws : string) :
  all_chars (fun c => negb (is_open c)) pre = true ->
  year_token tok = Some "" -> all_chars isspace ws = true ->
  sub_year 0 (pre ++ tok ++ ws) = rstrip pre ++ " ".
Proof.
  intros Hop Htok Hws. induction pre as [|c pre IH].
  - apply (sub_year_whole "" tok ws); trivial.
  - destruct (all_chars isspace (String c pre)) eqn:Hsp.
    + rewrite sub_year_whole by assumption.
      apply rstrip_nil_iff in Hsp. now rewrite Hsp.
    + cbn [String.append]. rewrite sub_year_keep.
      * cbn [all_chars] in Hop. apply andb_true_iff in Hop as [_ Hop].
        rewrite (IH Hop). cbn [rstrip].
        destruct (rstrip pre) as [|x r] eqn:E; [|reflexivity].
        apply rstrip_nil_iff in E. cbn [all_chars] in Hsp. rewrite E in Hsp.
        rewrite andb_true_r in Hsp. now rewrite Hsp.
      * unfold match_year.
        change (String c (pre ++ tok ++ ws))
          with (String c pre ++ tok ++ ws).
        now rewrite lstrip_not_space.
Qed.

Lemma strip_rstrip_space (pre : string) :
  strip (rstrip pre ++ " ") = strip pre.
Proof.
  unfold strip. induction pre as [|c pre IH]; [reflexivity|].
  cbn [rstrip]. destruct (isspace c) eqn:Hc.
  - destruct (rstrip pre) as [|x r] eqn:E.
    + apply rstrip_nil_iff in E. cbn [lstrip]. rewrite Hc.
      now rewrite (lstrip_all_space_nil pre).
    + cbn [String.append lstrip]. rewrite Hc. cbn [lstrip] in IH.
      exact IH.
  - assert (Hkeep : forall r,
              rstrip (lstrip (String c r ++ " ")) = rstrip (String c r)).
    { intros r. cbn [String.append lstrip]. rewrite Hc.
      change (String c (r ++ " ")) with (String c r ++ " ").
      now apply rstrip_append_space. }
    cbn [lstrip]. rewrite Hc.
    destruct (rstrip pre) as [|x r] eqn:E.
    + rewrite Hkeep. cbn [rstrip]. now rewrite E, Hc.
    + rewrite Hkeep. rewrite <- E.
      replace (String c (rstrip pre)) with (rstrip (String c pre))
        by (cbn [rstrip]; now rewrite E).
      apply rstrip_idempotent.
Qed.

(** C6, as the code has it.  [_base_show_title] replaces every bracketed
    four-digit token of the title, wherever it stands and with the white
    space around it, by one space, and trims the result: no such token is
    left in the result; a title without such a token is only trimmed; and a
    title made of a text without opening bracket followed by one token and
    white space gives the text, trimmed. *)
Theorem base_show_title_strips_every_year (title : string) :
  has_year_token (_base_show_title title) = false
  /\ (has_year_token title = false -> _base_show_title title = strip title)
  /\ (forall pre tok ws,
        title = pre ++ tok ++ ws ->
        all_chars (fun c => negb (is_open c)) pre = true ->
        year_token tok = Some "" ->
        all_chars isspace ws = true ->
        _base_show_title title = strip pre).
Proof.
  unfold _base_show_title. split; [|split].
  - destruct (has_year_token (strip (sub_year 0 title))) eqn:E; [|reflexivity].
    unfold strip in E.
    apply has_year_token_rstrip, has_year_token_lstrip in E.
    now rewrite has_year_token_sub_year in E.
  - intros H. now rewrite sub_year_no_token.
  - intros pre tok ws -> Hpre Htok Hws.
    rewrite sub_year_trailing by assumption. apply strip_rstrip_space.
Qed.

(** C6 as it is stated fails on a title with a year token in the middle, and
    on a title with two tokens: the code removes them all. *)
Lemma base_show_title_strips_inner_year :
  spec_base_title "Show (2025) Part" = "Show (2025) Part"
  /\ _base_show_title "Show (2025) Part" = "Show Part"
  /\ spec_base_title "Show (2024) (2025)" = "Show (2024) "
  /\ _base_show_title "Show (2024) (2025)" = "Show".
Proof. repeat split. Qed.

(** The examples of the title matcher. *)
Example normalize_base_title :
  _normalize (_base_show_title "Foo (2025)") = _normalize "Foo".
Proof. reflexivity. Qed.

Example title_matches_official :
  _title_matches "Official FOO Trailer" "Foo (2025)" = true.
Proof. reflexivity. Qed.

Example title_matches_other :
  _title_matches "Bar Trailer" "Foo" = false.
Proof. reflexivity. Qed.

Example base_show_title_bracket :
  _base_show_title "Foo [2025]  " = "Foo".
Proof. reflexivity. Qed.

(* ================================================================== *)
(** * Further properties of the title matcher *)
(* ================================================================== *)

Lemma norm_char_not_space (c : ascii) :
  is_norm_char c = true -> isspace c = false.
Proof.
  unfold is_norm_char, islower, isdigit, isspace, in_range.
  rewrite orb_true_iff, !andb_true_iff, !N.leb_le. intros H.
  apply orb_false_iff. split; apply andb_false_iff; right; apply N.leb_gt; lia.
Qed.

Lemma norm_char_lower (c : ascii) :
  is_norm_char c = true -> lower_char c = c.
Proof.
  unfold is_norm_char, islower, isdigit, lower_char, isupper, in_range.
  rewrite orb_true_iff, !andb_true_iff, !N.leb_le. intros H.
  destruct ((65 <=? code c)%N && (code c <=? 90)%N) eqn:E; [|reflexivity].
  apply andb_true_iff in E as [E1 E2]. apply N.leb_le in E1, E2. lia.
Qed.

(** ** The shape of what [_normalize] returns *)

Lemma collapse_runs_loose (s : string) :
  forall in_run,
  loosely_spaced (collapse_runs in_run s) = true
  /\ (in_run = true -> starts_normal (collapse_runs in_run s) = true).
Proof.
  induction s as [|c s IH]; intros in_run; [split; reflexivity|].
  cbn [collapse_runs]. destruct (is_norm_char c) eqn:Hc.
  - cbn [loosely_spaced starts_normal]. rewrite Hc.
    split; [apply IH|reflexivity].
  - destruct in_run.
    + split; [apply IH|intros _; now apply IH].
    + split; [|discriminate]. cbn [loosely_spaced].
      destruct (IH true) as [Hl Hs]. specialize (Hs eq_refl).
      change (is_norm_char " ") with false. cbn [Ascii.eqb Bool.eqb andb].
      rewrite Hl, andb_true_r. exact Hs.
Qed.

Lemma lstrip_loose (s : string) :
  loosely_spaced s = true ->
  loosely_spaced (lstrip s) = true /\ starts_normal (lstrip s) = true.
Proof.
  destruct s as [|c s]; [split; reflexivity|]. cbn [loosely_spaced].
  destruct (is_norm_char c) eqn:Hc.
  - intros H. cbn [lstrip]. rewrite (norm_char_not_space c Hc).
    cbn [loosely_spaced starts_normal]. now rewrite Hc.
  - intros H. apply andb_true_iff in H as [H Hl].
    apply andb_true_iff in H as [Hsp Hd]. apply Ascii.eqb_eq in Hsp. subst c.
    cbn [lstrip]. change (isspace " ") with true. cbn iota.
    destruct s as [|d s]; [split; reflexivity|].
    cbn [lstrip]. rewrite (norm_char_not_space d Hd).
    split; [exact Hl|exact Hd].
Qed.

Lemma rstrip_cons_keep (c : ascii) (s : string) :
  isspace c = false -> exists r, rstrip (String c s) = String c r.
Proof.
  intros Hc. cbn [rstrip]. destruct (rstrip s) as [|x r].
  - rewrite Hc. now exists "".
  - now exists (String x r).
Qed.

Lemma rstrip_loose (s : string) :
  loosely_spaced s = true ->
  single_spaced (rstrip s) = true
  /\ (starts_normal s = true -> starts_normal (rstrip s) = true).
Proof.
  induction s as [|c s IH]; [split; reflexivity|]. cbn [loosely_spaced].
  destruct (is_norm_char c) eqn:Hc.
  - intros Hl. destruct (IH Hl) as [Hs _].
    destruct (rstrip_cons_keep c s (norm_char_not_space c Hc)) as [r Hr].
    rewrite Hr. split; [|intros _; exact Hc].
    cbn [single_spaced]. rewrite Hc.
    cbn [rstrip] in Hr. destruct (rstrip s) as [|x r'].
    + rewrite (norm_char_not_space c Hc) in Hr. now injection Hr as <-.
    + now injection Hr as <-.
  - intros H. apply andb_true_iff in H as [H Hl].
    apply andb_true_iff in H as [Hsp Hd]. apply Ascii.eqb_eq in Hsp. subst c.
    split; [|cbn [starts_normal]; discriminate].
    destruct (IH Hl) as [Hs Hhead].
    destruct s as [|d s]; [reflexivity|].
    destruct (rstrip_cons_keep d s (norm_char_not_space d Hd)) as [r Hr].
    assert (E : rstrip (String " " (String d s)) = String " " (String d r)).
    { change (rstrip (String " " (String d s)))
        with (match rstrip (String d s) with
              | EmptyString =>
                  if isspace " " then EmptyString else String " " EmptyString
              | String x y => String " " (String x y)
              end).
      now rewrite Hr. }
    rewrite E. rewrite Hr in Hs.
    change (single_spaced (String " " (String d r)))
      with (Ascii.eqb " " " " && is_norm_char d
            && single_spaced (String d r)).
    now rewrite Hd, Hs.
Qed.

Lemma normalize_normal_form (s : string) : normal_form (_normalize s) = true.
Proof.
  unfold _normalize, strip, normal_form.
  destruct (collapse_runs_loose (lower s) false) as [Hl _].
  apply lstrip_loose in Hl as [Hl Hs].
  destruct (rstrip_loose _ Hl) as [Hsingle Hhead].
  specialize (Hhead Hs). unfold starts_normal in Hhead.
  now rewrite Hsingle, andb_true_r.
Qed.

(** ** [_normalize] leaves a text in normal form as it is *)

Lemma single_spaced_lower (s : string) :
  single_spaced s = true -> lower s = s.
Proof.
  unfold lower. induction s as [|c s IH]; [reflexivity|].
  cbn [single_spaced map_str]. destruct (is_norm_char c) eqn:Hc.
  - intros H. now rewrite (norm_char_lower c Hc), IH.
  - intros H. apply andb_true_iff in H as [H Hs].
    apply andb_true_iff in H as [Hsp _]. apply Ascii.eqb_eq in Hsp. subst c.
    now rewrite IH.
Qed.

Lemma single_spaced_collapse (s : string) :
  single_spaced s = true ->
  forall in_run, (in_run = true -> starts_normal s = true) ->
  collapse_runs in_run s = s.
Proof.
  induction s as [|c s IH]; [reflexivity|].
  cbn [single_spaced collapse_runs starts_normal].
  destruct (is_norm_char c) eqn:Hc.
  - intros H in_run _. f_equal. apply IH; [exact H|discriminate].
  - intros H in_run Hrun. apply andb_true_iff in H as [H Hs].
    apply andb_true_iff in H as [Hsp Hd]. apply Ascii.eqb_eq in Hsp. subst c.
    destruct in_run; [now specialize (Hrun eq_refl)|].
    f_equal. apply IH; [exact Hs|].
    intros _. destruct s; [discriminate Hd|exact Hd].
Qed.

Lemma single_spaced_rstrip (s : string) :
  single_spaced s = true -> rstrip s = s.
Proof.
  induction s as [|c s IH]; [reflexivity|].
  cbn [single_spaced rstrip]. destruct (is_norm_char c) eqn:Hc.
  - intros H. rewrite (IH H). destruct s; [|reflexivity].
    now rewrite (norm_char_not_space c Hc).
  - intros H. apply andb_true_iff in H as [H Hs].
    apply andb_true_iff in H as [_ Hd]. rewrite (IH Hs).
    destruct s; [discriminate Hd|reflexivity].
Qed.

Lemma normal_form_fixed (s : string) :
  normal_form s = true -> _normalize s = s.
Proof.
  unfold normal_form. intros H. apply andb_true_iff in H as [Hhead Hs].
  unfold _normalize, strip.
  rewrite (single_spaced_lower s Hs).
  rewrite (single_spaced_collapse s Hs false) by discriminate.
  destruct s as [|c s]; [reflexivity|].
  cbn [lstrip]. rewrite (norm_char_not_space c Hhead).
  now apply single_spaced_rstrip.
Qed.

(** X1.  [_normalize] returns words of lower-case letters and digits
    separated by one space, with no space at either end; it leaves such a
    text as it is, and so it is idempotent. *)
Theorem normalize_idempotent (s : string) :
  normal_form (_normalize s) = true
  /\ _normalize (_normalize s) = _normalize s
  /\ (forall t, normal_form t = true -> _normalize t = t).
Proof.
  split; [apply normalize_normal_form|]. split.
  - apply normal_form_fixed, normalize_normal_form.
  - apply normal_form_fixed.
Qed.

(** ** [strip] *)

Lemma lstrip_head (s : string) :
  lstrip s = "" \/ exists c r, lstrip s = String c r /\ isspace c = false.
Proof.
  induction s as [|c s IH]; [now left|]. cbn [lstrip].
  destruct (isspace c) eqn:Hc; [exact IH|]. right. now exists c, s.
Qed.

Lemma lstrip_fixed (c : ascii) (s : string) :
  isspace c = false -> lstrip (String c s) = String c s.
Proof. intros H. cbn [lstrip]. now rewrite H. Qed.

Lemma lstrip_suffix (s : string) :
  exists ws, s = ws ++ lstrip s /\ all_chars isspace ws = true.
Proof.
  induction s as [|c s (ws & IH & Hws)]; [now exists ""|]. cbn [lstrip].
  destruct (isspace c) eqn:Hc.
  - exists (String c ws). cbn [String.append all_chars].
    rewrite Hc, Hws. split; [now f_equal|reflexivity].
  - now exists "".
Qed.

Lemma rstrip_suffix (s : string) :
  exists ws, s = rstrip s ++ ws /\ all_chars isspace ws = true.
Proof.
  induction s as [|c s (ws & IH & Hws)]; [now exists ""|]. cbn [rstrip].
  destruct (rstrip s) as [|x r] eqn:E.
  - destruct (isspace c) eqn:Hc.
    + exists (String c s). split; [reflexivity|].
      cbn [all_chars]. rewrite Hc. now apply rstrip_nil_iff.
    + exists ws. cbn [String.append] in *. split; [now f_equal|exact Hws].
  - exists ws. cbn [String.append] in *. split; [now f_equal|exact Hws].
Qed.

Lemma strip_idempotent (s : string) : strip (strip s) = strip s.
Proof.
  unfold strip.
  destruct (lstrip_head s) as [E|(c & r & E & Hc)]; rewrite E.
  - reflexivity.
  - destruct (rstrip_cons_keep c r Hc) as [r' Hr]. rewrite Hr.
    rewrite (lstrip_fixed c r' Hc), <- Hr. apply rstrip_idempotent.
Qed.

(** X2.  [_base_show_title] is idempotent: what it returns has no year
    token and no white space at either end, and comes back as it is. *)
Theorem base_show_title_idempotent (title : string) :
  _base_show_title (_base_show_title title) = _base_show_title title.
Proof.
  unfold _base_show_title at 1.
  assert (Hno : has_year_token (_base_show_title title) = false).
  { unfold _base_show_title, strip.
    destruct (has_year_token (rstrip (lstrip (sub_year 0 title)))) eqn:E;
      [|reflexivity].
    apply has_year_token_rstrip, has_year_token_lstrip in E.
    now rewrite has_year_token_sub_year in E. }
  rewrite (sub_year_no_token _ Hno). unfold _base_show_title.
  apply strip_idempotent.
Qed.

(** ** Occurrences *)

Lemma prefix_append (p rest : string) : String.prefix p (p ++ rest) = true.
Proof.
  induction p as [|c p IH]; cbn [String.append].
  - apply prefix_empty.
  - apply prefix_cons. now split.
Qed.

Lemma contains_append (u p v : string) : contains p (u ++ p ++ v) = true.
Proof.
  induction u as [|c u IH]; cbn [String.append].
  - destruct (p ++ v) eqn:E.
    + destruct p; [reflexivity|discriminate E].
    + rewrite contains_cons, <- E, prefix_append. reflexivity.
  - rewrite contains_cons, IH. apply orb_true_r.
Qed.

Lemma lower_append (a b : string) : lower (a ++ b) = lower a ++ lower b.
Proof.
  unfold lower. induction a as [|c a IH]; cbn; [reflexivity|now rewrite IH].
Qed.

(** The state of [collapse_runs] after the text [s]. *)
Lemma collapse_runs_append (a b : string) :
  forall in_run, exists in_run',
    collapse_runs in_run (a ++ b) =
    collapse_runs in_run a ++ collapse_runs in_run' b.
Proof.
  induction a as [|c a IH]; intros in_run; cbn [String.append collapse_runs].
  - now exists in_run.
  - destruct (is_norm_char c).
    + destruct (IH false) as [r E]. exists r. now rewrite E.
    + destruct in_run.
      * apply IH.
      * destruct (IH true) as [r E]. exists r. now rewrite E.
Qed.

(** Whatever the state, [collapse_runs] gives the same text up to a space
    in front. *)
Lemma collapse_runs_state (s : string) (in_run : bool) :
  collapse_runs false s = collapse_runs in_run s
  \/ collapse_runs false s = String " " (collapse_runs in_run s).
Proof.
  destruct in_run; [|now left].
  destruct s as [|c s]; [now left|]. cbn [collapse_runs].
  destruct (is_norm_char c); [now left|now right].
Qed.

(** A text that occurs in [w], and that neither starts nor ends with a
    white space, occurs in [strip w]. *)
Lemma rstrip_keep (z v : string) :
  z <> "" -> rstrip z = z -> rstrip (z ++ v) = z ++ rstrip v.
Proof.
  induction z as [|c z IH]; [contradiction|]. intros _ Hfix.
  destruct z as [|d z'].
  - cbn [String.append rstrip] in *.
    destruct (isspace c); [discriminate Hfix|]. now destruct (rstrip v).
  - assert (Hin : rstrip (String d z') = String d z').
    { cbn [rstrip] in Hfix |- *.
      destruct (match rstrip z' with
                | EmptyString =>
                    if isspace d then EmptyString else String d EmptyString
                | String a s => String d (String a s)
                end) as [|x r];
        [destruct (isspace c); discriminate Hfix|].
      congruence. }
    specialize (IH ltac:(discriminate) Hin).
    change (rstrip (String c (String d z') ++ v))
      with (match rstrip (String d z' ++ v) with
            | EmptyString =>
                if isspace c then EmptyString else String c EmptyString
            | String a s => String c (String a s)
            end).
    rewrite IH. reflexivity.
Qed.

Lemma rstrip_keep_append (a z v : string) :
  z <> "" -> rstrip z = z -> rstrip (a ++ z ++ v) = a ++ z ++ rstrip v.
Proof.
  intros Hz Hfix. induction a as [|c a IH].
  - cbn [String.append]. now apply rstrip_keep.
  - cbn [String.append rstrip]. rewrite IH.
    destruct (a ++ z ++ rstrip v) eqn:E; [|reflexivity].
    destruct a; [|discriminate E]. destruct z; [contradiction|discriminate E].
Qed.

Lemma strip_keeps_occurrence (u z v : string) (c : ascii) (z' : string) :
  z = String c z' -> isspace c = false -> rstrip z = z ->
  exists u' v', strip (u ++ z ++ v) = u' ++ z ++ v'.
Proof.
  intros -> Hc Hfix. unfold strip.
  assert (Hl : exists u', lstrip (u ++ String c z' ++ v)
                          = u' ++ String c z' ++ v).
  { induction u as [|d u [u' IH]]; cbn [String.append lstrip].
    - exists "". now rewrite Hc.
    - destruct (isspace d); [now exists u'|]. now exists (String d u). }
  destruct Hl as [u' ->]. exists u', (rstrip v).
  apply rstrip_keep_append; [discriminate|exact Hfix].
Qed.

Lemma strip_shape (s : string) :
  strip s = ""
  \/ exists c r, strip s = String c r /\ isspace c = false
                 /\ rstrip (strip s) = strip s.
Proof.
  unfold strip.
  destruct (lstrip_head s) as [E|(c & r & E & Hc)]; rewrite E; [now left|].
  right. destruct (rstrip_cons_keep c r Hc) as [r' Hr].
  exists c, r'. split; [exact Hr|]. split; [exact Hc|].
  apply rstrip_idempotent.
Qed.

(** The normal form of [s] occurs in the normal form of any text around
    [s]. *)
Lemma normalize_occurs (a s b : string) :
  _normalize s <> "" ->
  exists u v, _normalize (a ++ s ++ b) = u ++ _normalize s ++ v.
Proof.
  intros Hne. unfold _normalize in *.
  rewrite !lower_append.
  set (A := lower a). set (L := lower s). set (B := lower b).
  fold L in Hne.
  destruct (strip_shape (collapse_runs false L)) as [E|(c & r & E & Hc & Hfix)];
    [contradiction|].
  (* the normal form occurs in what [collapse_runs] makes of [L] *)
  assert (Hocc : forall in_run, exists p q,
            collapse_runs in_run L =
            p ++ strip (collapse_runs false L) ++ q).
  { intros in_run.
    destruct (lstrip_suffix (collapse_runs false L)) as (p & Hp & Hpws).
    destruct (rstrip_suffix (lstrip (collapse_runs false L)))
      as (q & Hq & _).
    fold (strip (collapse_runs false L)) in Hq.
    remember (strip (collapse_runs false L)) as N eqn:HN.
    remember (lstrip (collapse_runs false L)) as Z eqn:HZ.
    subst Z. rewrite Hq in Hp. clear Hq.
    destruct (collapse_runs_state L in_run) as [Hs|Hs].
    - exists p, q. now rewrite <- Hs.
    - rewrite Hs in Hp. destruct p as [|x p].
      + cbn [String.append] in Hp. rewrite E in Hp.
        cbn [String.append] in Hp. injection Hp as Hx _. subst c.
        discriminate Hc.
      + cbn [String.append] in Hp. injection Hp as _ Hp. now exists p, q. }
  destruct (collapse_runs_append A (L ++ B) false) as [s1 E1].
  destruct (collapse_runs_append L B s1) as [s2 E2].
  destruct (Hocc s1) as (p & q & Hpq).
  rewrite E1, E2, Hpq.
  replace (collapse_runs false A
           ++ (p ++ strip (collapse_runs false L) ++ q)
           ++ collapse_runs s2 B)
    with ((collapse_runs false A ++ p)
          ++ strip (collapse_runs false L)
          ++ (q ++ collapse_runs s2 B))
    by (now rewrite !append_assoc).
  apply (strip_keeps_occurrence _ _ _ c r); assumption.
Qed.

(** X3.  A video title that contains the base title of the show, in any
    letter case, matches the show, as soon as the base title has a letter or
    a digit. *)
Theorem title_matches_containing (video_title show_title a t b : string) :
  video_title = a ++ t ++ b ->
  lower t = lower (_base_show_title show_title) ->
  _normalize (_base_show_title show_title) <> "" ->
  _title_matches video_title show_title = true.
Proof.
  intros -> Hcase Hne. unfold _title_matches.
  assert (Hsame : _normalize t = _normalize (_base_show_title show_title))
    by (unfold _normalize; now rewrite Hcase).
  rewrite <- Hsame in *.
  destruct (normalize_occurs a t b Hne) as (u & v & ->).
  rewrite contains_append, andb_true_r.
  apply negb_true_iff, String.eqb_neq. exact Hne.
Qed.

Lemma title_matches_containing_witness :
  _title_matches "NEW: foo bar - Official Trailer" "Foo Bar (2025)" = true.
Proof.
  apply (title_matches_containing _ _ "NEW: " "foo bar"
           " - Official Trailer"); [reflexivity|reflexivity|discriminate].
Defined.

(** ** Titles without letters or digits *)

Lemma all_chars_sub_year (p : ascii -> bool) (s : string) :
  p " "%char = true -> all_chars p s = true ->
  forall skip, all_chars p (sub_year skip s) = true.
Proof.
  intros Hsp. induction s as [|c s IH]; intros H skip; [reflexivity|].
  cbn [all_chars] in H. apply andb_true_iff in H as [Hc Hs].
  destruct skip as [|k]; cbn [sub_year]; [|now apply IH].
  destruct (match_year (String c s)); cbn [all_chars].
  - rewrite Hsp. now apply IH.
  - rewrite Hc. now apply IH.
Qed.

Lemma all_chars_lstrip (p : ascii -> bool) (s : string) :
  all_chars p s = true -> all_chars p (lstrip s) = true.
Proof.
  induction s as [|c s IH]; [trivial|]. cbn [lstrip].
  destruct (isspace c); [|trivial]. cbn [all_chars]. intros H.
  apply andb_true_iff in H as [_ H]. now apply IH.
Qed.

Lemma all_chars_rstrip (p : ascii -> bool) (s : string) :
  all_chars p s = true -> all_chars p (rstrip s) = true.
Proof.
  intros H. destruct (rstrip_suffix s) as (ws & E & _).
  rewrite E, all_chars_append in H. now apply andb_true_iff in H as [H _].
Qed.

Lemma collapse_runs_no_word (s : string) :
  all_chars (fun c => negb (is_norm_char c)) s = true ->
  collapse_runs true s = ""
  /\ (collapse_runs false s = "" \/ collapse_runs false s = " ").
Proof.
  induction s as [|c s IH]; [intros _; split; [reflexivity|now left]|].
  cbn [all_chars collapse_runs]. intros H.
  apply andb_true_iff in H as [Hc Hs]. apply negb_true_iff in Hc.
  rewrite Hc. destruct (IH Hs) as [E _]. rewrite E.
  split; [reflexivity|now right].
Qed.

Lemma normalize_no_word (s : string) :
  all_chars (fun c => negb (isalnum c)) s = true -> _normalize s = "".
Proof.
  intros H. unfold _normalize.
  assert (Hl : all_chars (fun c => negb (is_norm_char c)) (lower s) = true).
  { unfold lower. induction s as [|c s IH]; [reflexivity|].
    cbn [all_chars map_str] in *. apply andb_true_iff in H as [Hc Hs].
    unfold isalnum in Hc. rewrite Hc. now apply IH. }
  destruct (collapse_runs_no_word _ Hl) as [_ [E|E]]; now rewrite E.
Qed.

(** X4.  A show title without any letter or digit matches no video title:
    its normal form is empty, and the empty base is refused. *)
Theorem title_matches_no_word (video_title show_title : string) :
  all_chars (fun c => negb (isalnum c)) show_title = true ->
  _title_matches video_title show_title = false.
Proof.
  intros H. unfold _title_matches.
  assert (Hbase : all_chars (fun c => negb (isalnum c))
                            (_base_show_title show_title) = true).
  { unfold _base_show_title, strip.
    apply all_chars_rstrip, all_chars_lstrip, all_chars_sub_year;
      [reflexivity|exact H]. }
  now rewrite (normalize_no_word _ Hbase).
Qed.

Lemma title_matches_no_word_witness :
  _title_matches "??? - Official Trailer" "???" = false.
Proof. exact (title_matches_no_word "??? - Official Trailer" "???" eq_refl). Defined.

(** ** The year of the show title *)

Lemma no_open_no_token (s : string) :
  all_chars (fun c => negb (is_open c)) s = true -> has_year_token s = false.
Proof.
  induction s as [|c s IH]; [reflexivity|]. cbn [all_chars]. intros H.
  apply andb_true_iff in H as [Hc Hs]. cbn [has_year_token].
  destruct (year_token (String c s)) as [r|] eqn:E; [|now apply IH].
  apply year_token_head in E as (o & tail & [= <- _] & Ho).
  rewrite Ho in Hc. discriminate Hc.
Qed.

(** X5.  A year token after the show title, with any white space after it,
    changes nothing to what matches: the show title with the year and the
    show title without it have the same base title and match the same video
    titles. *)
Theorem title_matches_ignores_year (video_title pre tok ws : string) :
  all_chars (fun c => negb (is_open c)) pre = true ->
  year_token tok = Some "" ->
  all_chars isspace ws = true ->
  _base_show_title (pre ++ tok ++ ws) = _base_show_title pre
  /\ _title_matches video_title (pre ++ tok ++ ws) =
     _title_matches video_title pre.
Proof.
  intros Hpre Htok Hws.
  assert (E : _base_show_title (pre ++ tok ++ ws) = _base_show_title pre).
  { unfold _base_show_title.
    rewrite sub_year_trailing by assumption.
    rewrite (sub_year_no_token pre) by now apply no_open_no_token.
    apply strip_rstrip_space. }
  split; [exact E|]. unfold _title_matches. now rewrite E.
Qed.

Lemma title_matches_ignores_year_witness :
  _title_matches "Foo Official Trailer" ("Foo " ++ "[2025]" ++ " ") =
  _title_matches "Foo Official Trailer" "Foo ".
Proof.
  exact (proj2 (title_matches_ignores_year "Foo Official Trailer" "Foo "
                  "[2025]" " " eq_refl eq_refl eq_refl)).
Defined.

(* ================================================================== *)
(** * Further properties of the trailer selection *)
(* ================================================================== *)

(** X6.  The trailer that [search_trailer_on_youtube] returns comes from a
    candidate of the search that passed every filter: its identifier and its
    title are not empty, its channel has none of the skipped channels in its
    name, its duration is unknown, zero or within 10 to 900 seconds, and its
    title matches the show; its address is the watch address of its
    identifier and it is flagged official. *)
Theorem selected_trailer_passes_filters (yt_search : string -> Run)
    (show_title : string) (year : option Z) (skip_channels : list string)
    (t : Trailer) :
  search_trailer_on_youtube yt_search show_title year skip_channels = Some t ->
  video_id t <> "" /\ video_title t <> ""
  /\ url t = "https://www.youtube.com/watch?v=" ++ video_id t
  /\ is_official t = true
  /\ channel_skipped skip_channels (uploader t) = false
  /\ _title_matches (video_title t) show_title = true
  /\ exists c,
       In c (candidate_stream yt_search show_title year)
       /\ t = trailer_of c
       /\ duration_rejects (vi_duration c) = false.
Proof.
  rewrite search_trailer_is_argmax. intros Ht.
  destruct (argmax_first _ _) as [c|] eqn:Hc; [|discriminate].
  injection Ht as <-.
  destruct (argmax_first_split _ _ _ Hc) as (before & after & Hpool & _).
  assert (Hin : In c (survivors yt_search show_title year skip_channels)).
  { rewrite Hpool. apply in_or_app. right. now left. }
  pose proof (survivor_not_rejected _ _ _ _ _ Hin) as Hrej.
  apply not_rejected_inv in Hrej as (Ht & Hv & Hch & _ & Hdur & Hm).
  cbn [trailer_of video_id video_title url is_official uploader].
  repeat split; trivial.
  exists c. repeat split; trivial.
  unfold survivors in Hin. now apply filter_In in Hin as [Hin _].
Qed.

Lemma selected_trailer_passes_filters_witness :
  channel_skipped ["joe"]
    (uploader (mkTrailer "a1" "Foo Official Trailer" "2:00" "Netflix"
                 "https://www.youtube.com/watch?v=a1" true)) = false.
Proof.
  exact (proj1 (proj2 (proj2 (proj2 (proj2
    (selected_trailer_passes_filters sample_search "Foo" (Some 2025) ["joe"]
       (mkTrailer "a1" "Foo Official Trailer" "2:00" "Netflix"
          "https://www.youtube.com/watch?v=a1" true) eq_refl)))))).
Defined.

Lemma contains_empty (s : string) : contains "" s = true.
Proof. destruct s; reflexivity. Qed.

(** X7.  An empty entry in the list of skipped channels rejects every
    candidate, since the empty text is in every channel name: the search then
    finds no trailer, whatever the backend answers. *)
Theorem empty_skip_channel_blocks_all (yt_search : string -> Run)
    (show_title : string) (year : option Z) (skip_channels : list string) :
  In "" skip_channels ->
  search_trailer_on_youtube yt_search show_title year skip_channels = None.
Proof.
  intros Hin. rewrite search_trailer_is_argmax.
  replace (survivors yt_search show_title year skip_channels) with
    (@nil VideoInfo); [reflexivity|].
  unfold survivors. symmetry.
  induction (candidate_stream yt_search show_title year) as [|c l IH];
    [reflexivity|].
  cbn [filter]. rewrite <- IH.
  replace (rejected show_title skip_channels c) with true; [reflexivity|].
  unfold rejected.
  destruct (String.eqb (info_title c) "" || String.eqb (info_vid c) "");
    [reflexivity|].
  replace (channel_skipped skip_channels (info_up c)) with true;
    [reflexivity|].
  symmetry. unfold channel_skipped. apply existsb_exists.
  exists "". split; [exact Hin|apply contains_empty].
Qed.

Lemma empty_skip_channel_blocks_all_witness :
  search_trailer_on_youtube sample_search "Foo" (Some 2025) ["joe"; ""] = None.
Proof.
  apply empty_skip_channel_blocks_all. right. now left.
Defined.

(** X8.  The score of a candidate is between 0 and 11, and at most 9 when
    the year of the show is unknown or zero: the first value [-1] of
    [best_score] is below every score. *)
Theorem score_bounds (year : option Z) (info : VideoInfo) :
  0 <= score year info <= 11
  /\ (year_known year = None -> score year info <= 9)
  /\ -1 < score year info.
Proof.
  unfold score.
  repeat match goal with
         | |- context [if ?b then _ else _] => destruct b
         end;
    destruct (year_known year);
    repeat match goal with
           | |- context [if ?b then _ else _] => destruct b
           end;
    repeat split; try lia; discriminate.
Qed.

(** ** The list of skipped channels given as one text *)

Lemma all_chars_strip (p : ascii -> bool) (s : string) :
  all_chars p s = true -> all_chars p (strip s) = true.
Proof. intros H. now apply all_chars_rstrip, all_chars_lstrip. Qed.

Lemma split_comma_not_nil (s : string) : split_comma s <> [].
Proof.
  induction s as [|c s IH]; cbn; [discriminate|].
  destruct (Ascii.eqb c ","); [discriminate|].
  destruct (split_comma s); discriminate.
Qed.

Lemma split_comma_no_comma (s : string) :
  forall piece, In piece (split_comma s) ->
  all_chars (fun c => negb (Ascii.eqb c ",")) piece = true.
Proof.
  induction s as [|c s IH]; cbn [split_comma]; intros piece.
  - intros [<-|[]]. reflexivity.
  - destruct (Ascii.eqb c ",") eqn:Hc.
    + intros [<-|H]; [reflexivity|now apply IH].
    + destruct (split_comma s) as [|x l].
      * intros [<-|[]]. cbn. now rewrite Hc.
      * intros [<-|H].
        -- cbn [all_chars]. rewrite Hc. apply IH. now left.
        -- apply IH. now right.
Qed.

(** [",".join(s.split(','))] is [s]. *)
Lemma join_split_comma (s : string) : join "," (split_comma s) = s.
Proof.
  unfold join. induction s as [|c s IH]; [reflexivity|].
  cbn [split_comma]. destruct (Ascii.eqb_spec c ",") as [->|Hne].
  - pose proof (split_comma_not_nil s) as Hnil.
    destruct (split_comma s) as [|x l] eqn:E; [contradiction|].
    change (String.concat "," ("" :: x :: l))
      with ("" ++ "," ++ String.concat "," (x :: l)).
    now rewrite IH.
  - pose proof (split_comma_not_nil s) as Hnil.
    destruct (split_comma s) as [|x l] eqn:E; [contradiction|].
    rewrite <- IH. destruct l; reflexivity.
Qed.

(** X9.  When [skip_channels] is given as one text, [main] splits it at the
    commas, trims the pieces and drops the blank ones: no entry is empty, has
    a comma or has white space at either end.  So no entry parsed from a text
    is the empty entry that rejects every candidate.  The pieces of the split
    joined by commas give the text back. *)
Theorem parse_skip_channels_entries (skip_channels : string) :
  (forall ch, In ch (parse_skip_channels skip_channels) ->
     ch <> "" /\ strip ch = ch
     /\ all_chars (fun c => negb (Ascii.eqb c ",")) ch = true)
  /\ ~ In "" (parse_skip_channels skip_channels)
  /\ join "," (split_comma skip_channels) = skip_channels.
Proof.
  assert (Hentries : forall ch, In ch (parse_skip_channels skip_channels) ->
     ch <> "" /\ strip ch = ch
     /\ all_chars (fun c => negb (Ascii.eqb c ",")) ch = true).
  { intros ch Hin. unfold parse_skip_channels in Hin.
    apply in_map_iff in Hin as (piece & <- & Hin).
    apply filter_In in Hin as [Hin Hne].
    apply negb_true_iff, String.eqb_neq in Hne.
    split; [exact Hne|]. split; [apply strip_idempotent|].
    apply all_chars_strip.
    now apply (split_comma_no_comma skip_channels). }
  split; [exact Hentries|]. split; [|apply join_split_comma].
  intros Hin. now destruct (Hentries "" Hin) as [H _].
Qed.

Example parse_skip_channels_sample :
  parse_skip_channels " Netflix ,, Prime Video,  " = ["Netflix"; "Prime Video"].
Proof. reflexivity. Qed.

(* ================================================================== *)
(** * The address of the tracker *)
(* ================================================================== *)

Lemma rstrip_slash_head (c : ascii) (s : string) :
  rstrip_slash (String c s) = "" \/
  exists r, rstrip_slash (String c s) = String c r.
Proof.
  cbn [rstrip_slash]. destruct (rstrip_slash s) as [|d r].
  - destruct (Ascii.eqb c "/"); [now left|right; now exists ""].
  - right. now exists (String d r).
Qed.

Lemma rstrip_slash_append (a b : string) :
  rstrip_slash b <> "" -> rstrip_slash (a ++ b) = a ++ rstrip_slash b.
Proof.
  intros Hb. induction a as [|c a IH]; [reflexivity|].
  cbn [String.append rstrip_slash]. rewrite IH.
  destruct (a ++ rstrip_slash b) as [|d r] eqn:E; [|reflexivity].
  destruct a; [cbn in E; contradiction|discriminate].
Qed.

Lemma rstrip_slash_keep (host b : string) :
  host <> "" -> all_chars not_slash host = true ->
  rstrip_slash (host ++ b) = host ++ rstrip_slash b.
Proof.
  induction host as [|c host IH]; [congruence|].
  intros _ Hall. cbn [all_chars] in Hall.
  apply andb_true_iff in Hall as [Hc Hall].
  cbn [String.append rstrip_slash].
  destruct host as [|d host].
  - cbn [String.append]. destruct (rstrip_slash b); [|reflexivity].
    unfold not_slash in Hc. apply negb_true_iff in Hc. now rewrite Hc.
  - rewrite IH by (congruence || assumption).
    reflexivity.
Qed.

Lemma find_at_skip (p : ascii -> bool) (sub a b : string) (c : ascii)
    (sub' : string) (i : nat) :
  sub = String c sub' -> p c = false -> all_chars p a = true ->
  find_at sub (a ++ b) i = find_at sub b (i + String.length a).
Proof.
  intros -> Hc. revert i.
  induction a as [|x a IH]; intros i Hall.
  - cbn [String.append String.length]. now rewrite Nat.add_0_r.
  - cbn [all_chars] in Hall. apply andb_true_iff in Hall as [Hx Hall].
    cbn [String.append find_at String.length].
    destruct (String.prefix (String c sub') (String x (a ++ b))) eqn:Hp.
    + apply prefix_cons in Hp as [-> _]. congruence.
    + rewrite IH by assumption. f_equal. lia.
Qed.

Lemma find_at_here (sub s : string) (i : nat) :
  String.prefix sub s = true -> find_at sub s i = Some i.
Proof. intros H. destruct s; cbn [find_at]; now rewrite H. Qed.

Lemma drop_append (a b : string) : drop (String.length a) (a ++ b) = b.
Proof. induction a as [|c a IH]; [reflexivity|exact IH]. Qed.

Lemma substring_append (a b : string) :
  String.substring 0 (String.length a) (a ++ b) = a.
Proof.
  induction a as [|c a IH]; cbn [String.append String.length String.substring].
  - now destruct b.
  - now rewrite IH.
Qed.

Lemma prefix_weaken (p a b : string) :
  String.prefix p a = true -> String.prefix p (a ++ b) = true.
Proof.
  revert a. induction p as [|c p IH]; intros a H; [apply prefix_empty|].
  destruct a as [|x a]; [discriminate|].
  apply prefix_cons in H as [-> H]. cbn [String.append].
  apply prefix_cons. split; [reflexivity|now apply IH].
Qed.

Lemma probe_paths_first (http_get : string -> Response) (base_url : string)
    (paths : list string) :
  match probe_paths http_get base_url paths with
  | Some test_url =>
      exists before path after,
        paths = (before ++ path :: after)%list /\
        test_url = base_url ++ path /\
        http_get (test_url ++ "/health") = Status 200 /\
        forall p, In p before ->
          http_get ((base_url ++ p) ++ "/health") <> Status 200
  | None =>
      forall p, In p paths ->
        http_get ((base_url ++ p) ++ "/health") <> Status 200
  end.
Proof.
  induction paths as [|path paths IH]; cbn [probe_paths].
  - intros p [].
  - destruct (http_get ((base_url ++ path) ++ "/health")) as [code|] eqn:Hget.
    + destruct (code =? 200) eqn:Hcode.
      * apply Z.eqb_eq in Hcode. subst code.
        exists [], path, paths. repeat split; try assumption.
        intros p [].
      * apply Z.eqb_neq in Hcode.
        destruct (probe_paths http_get base_url paths) as [u|].
        -- destruct IH as (before & p & after & -> & -> & H200 & Hbefore).
           exists (path :: before), p, after. repeat split; try assumption.
           intros q [<-|Hq]; [rewrite Hget; congruence|now apply Hbefore].
        -- intros q [<-|Hq]; [rewrite Hget; congruence|now apply IH].
    + destruct (probe_paths http_get base_url paths) as [u|].
      * destruct IH as (before & p & after & -> & -> & H200 & Hbefore).
        exists (path :: before), p, after. repeat split; try assumption.
        intros q [<-|Hq]; [rewrite Hget; discriminate|now apply Hbefore].
      * intros q [<-|Hq]; [rewrite Hget; discriminate|now apply IH].
Qed.

(** X10 ([process_sonarr_url], the trimming of the address).  An address
    made of a scheme that starts with [http] and holds no colon, [://], a
    host that is not empty and holds no slash, and then nothing or a path
    that starts with a slash, is cut down to the scheme and the host: the
    path and the trailing slashes are dropped, whatever they are. *)
Theorem trim_base_url_keeps_host (scheme host rest : string) :
  String.prefix "http" scheme = true ->
  all_chars not_colon scheme = true ->
  host <> "" ->
  all_chars not_slash host = true ->
  rest = "" \/ String.prefix "/" rest = true ->
  trim_base_url (scheme ++ "://" ++ host ++ rest) = scheme ++ "://" ++ host.
Proof.
  intros Hhttp Hscheme Hhost Hslash Hrest.
  unfold trim_base_url.
  assert (Hstrip : exists rest',
             rstrip_slash (scheme ++ "://" ++ host ++ rest) =
             scheme ++ "://" ++ host ++ rest' /\
             (rest' = "" \/ String.prefix "/" rest' = true)).
  { exists (rstrip_slash rest).
    assert (Hne : rstrip_slash (host ++ rest) <> "").
    { rewrite rstrip_slash_keep by assumption.
      destruct host; [congruence|discriminate]. }
    split.
    - rewrite rstrip_slash_append.
      + change ("://" ++ host ++ rest)
          with (String ":" (String "/" (String "/" (host ++ rest)))).
        cbn [rstrip_slash]. rewrite rstrip_slash_keep by assumption.
        destruct (host ++ rstrip_slash rest) eqn:E; [|reflexivity].
        destruct host; [congruence|discriminate].
      + change ("://" ++ host ++ rest)
          with (String ":" (String "/" (String "/" (host ++ rest)))).
        cbn [rstrip_slash].
        destruct (rstrip_slash (host ++ rest)); [congruence|discriminate].
    - destruct Hrest as [->|Hp]; [now left|].
      destruct rest as [|c rest]; [discriminate|].
      apply prefix_cons in Hp as [<- _].
      destruct (rstrip_slash_head "/" rest) as [->|[r ->]]; [now left|].
      right. apply prefix_cons. split; [reflexivity|apply prefix_empty]. }
  destruct Hstrip as (rest' & -> & Hrest').
  rewrite (prefix_weaken "http" scheme) by assumption.
  assert (Hfind : str_find "://" (scheme ++ "://" ++ host ++ rest') 0 =
                  Z.of_nat (String.length scheme)).
  { unfold str_find. cbn [drop].
    rewrite (find_at_skip not_colon "://" scheme _ ":" "//") by
      (reflexivity || assumption).
    rewrite find_at_here by apply prefix_append. reflexivity. }
  rewrite Hfind.
  replace (Z.to_nat (Z.of_nat (String.length scheme) + 3))
    with (String.length (scheme ++ "://")) by (rewrite length_append; cbn; lia).
  rewrite <- (append_assoc scheme "://" (host ++ rest')).
  unfold str_find at 1 2. rewrite drop_append.
  rewrite (find_at_skip not_slash "/" host rest' "/" "") by
    (reflexivity || assumption).
  destruct Hrest' as [->|Hp].
  - cbn [find_at String.prefix]. cbn [Z.eqb negb].
    now rewrite append_nil_r, append_assoc.
  - rewrite find_at_here by assumption. cbn match.
    destruct (Z.of_nat (String.length (scheme ++ "://") + String.length host)
              =? -1) eqn:E; [apply Z.eqb_eq in E; lia|].
    cbn [negb]. rewrite Nat2Z.id.
    rewrite <- length_append, <- (append_assoc (scheme ++ "://") host rest').
    rewrite substring_append. apply append_assoc.
Qed.

Lemma trim_base_url_keeps_host_witness :
  trim_base_url ("http" ++ "://" ++ "localhost:8989" ++ "/sonarr/") =
  "http" ++ "://" ++ "localhost:8989".
Proof.
  apply trim_base_url_keeps_host.
  - reflexivity.
  - reflexivity.
  - discriminate.
  - reflexivity.
  - right. reflexivity.
Defined.

(** X11 ([process_sonarr_url], the probing).  The result is the trimmed
    address followed by [/api/v3] when the health check of that address
    answers 200; otherwise the trimmed address followed by [/sonarr/api/v3]
    when the health check of that one answers 200; a failed request counts
    as an answer that is not 200 and stops nothing; the call ends in a
    [ConnectionError] exactly when neither address answers 200. *)
Theorem process_sonarr_url_first_healthy (http_get : string -> Response)
    (base_url : string) :
  let base := trim_base_url base_url in
  let healthy path := http_get ((base ++ path) ++ "/health") = Status 200 in
  (healthy "/api/v3" ->
   process_sonarr_url http_get base_url = inl (base ++ "/api/v3")) /\
  (~ healthy "/api/v3" -> healthy "/sonarr/api/v3" ->
   process_sonarr_url http_get base_url = inl (base ++ "/sonarr/api/v3")) /\
  (process_sonarr_url http_get base_url = inr ConnectionError <->
   ~ healthy "/api/v3" /\ ~ healthy "/sonarr/api/v3") /\
  (forall test_url, process_sonarr_url http_get base_url = inl test_url ->
     http_get (test_url ++ "/health") = Status 200 /\
     exists path, In path api_paths /\ test_url = base ++ path).
Proof.
  intros base healthy. unfold process_sonarr_url. fold base.
  pose proof (probe_paths_first http_get base api_paths) as Hprobe.
  destruct (probe_paths http_get base api_paths) as [u|] eqn:Hu.
  - destruct Hprobe as (before & path & after & Hsplit & -> & H200 & Hbefore).
    assert (Hin : In path api_paths).
    { rewrite Hsplit. apply in_or_app. right. now left. }
    split; [|split; [|split; [split|]]].
    + intros H1. destruct before as [|p before].
      * injection Hsplit as <- _. reflexivity.
      * injection Hsplit as <- _. exfalso.
        apply (Hbefore "/api/v3"); [now left|exact H1].
    + intros H1 H2. destruct before as [|p before].
      * injection Hsplit as <- _. contradiction.
      * injection Hsplit as <- Hsplit. destruct before as [|q before].
        -- injection Hsplit as <- _. reflexivity.
        -- injection Hsplit as <- _. exfalso.
           apply (Hbefore "/sonarr/api/v3"); [right; now left|exact H2].
    + discriminate.
    + intros [H1 H2].
      destruct Hin as [<-|[<-|[]]]; contradiction.
    + intros test_url [= <-]. split; [exact H200|now exists path].
  - split; [|split; [|split; [split|]]].
    + intros H1. exfalso. apply (Hprobe "/api/v3"); [now left|exact H1].
    + intros _ H2. exfalso.
      apply (Hprobe "/sonarr/api/v3"); [right; now left|exact H2].
    + intros _. split; apply Hprobe; [now left|right; now left].
    + reflexivity.
    + discriminate.
Qed.

(* ================================================================== *)
(** * Date formatting: literal patterns and the default pattern *)
(* ================================================================== *)

Lemma digit_val_range (a : ascii) (x : Z) :
  digit_val a = Some x -> 0 <= x <= 9.
Proof.
  unfold digit_val. destruct (isdigit a) eqn:E; [|discriminate].
  intros [= <-]. unfold isdigit, in_range in E.
  apply andb_true_iff in E as [E1 E2].
  apply N.leb_le in E1. apply N.leb_le in E2. lia.
Qed.

Lemma digits2_range (a b : ascii) (x : Z) :
  digits2 a b = Some x -> 0 <= x <= 99.
Proof.
  unfold digits2.
  destruct (digit_val a) as [p|] eqn:Ha; [|discriminate].
  destruct (digit_val b) as [q|] eqn:Hb; [|discriminate].
  intros H. assert (x = 10 * p + q) by congruence.
  apply digit_val_range in Ha. apply digit_val_range in Hb. lia.
Qed.

Lemma month_field_range (s : string) (m : Z) :
  month_field s = Some m -> 1 <= m <= 12.
Proof.
  unfold month_field.
  destruct s as [|a [|b [|c s]]]; try discriminate.
  - destruct (digit_val a) as [x|] eqn:Ha; [|discriminate].
    destruct (1 <=? x) eqn:E; [|discriminate].
    intros [= <-]. apply digit_val_range in Ha. lia.
  - destruct (digits2 a b) as [x|]; [|discriminate].
    destruct ((1 <=? x) && (x <=? 12)) eqn:E; [|discriminate].
    intros [= <-]. lia.
Qed.

Lemma day_field_positive (s : string) (d : Z) :
  day_field s = Some d -> 1 <= d.
Proof.
  unfold day_field.
  destruct s as [|a [|b [|c s]]]; try discriminate.
  - destruct (digit_val a) as [x|]; [|discriminate].
    destruct (1 <=? x) eqn:E; [|discriminate].
    intros [= <-]. lia.
  - destruct (Ascii.eqb a " ").
    + destruct (digit_val b) as [x|]; [|discriminate].
      destruct (1 <=? x) eqn:E; [|discriminate].
      intros [= <-]. lia.
    + destruct (digits2 a b) as [x|]; [|discriminate].
      destruct ((1 <=? x) && (x <=? 31)) eqn:E; [|discriminate].
      intros [= <-]. lia.
Qed.

(** What [strptime] returns is a date of the calendar. *)
Lemma strptime_valid (s : string) (dt : date) :
  strptime_ymd s = Some dt -> valid_date dt = true.
Proof.
  unfold strptime_ymd.
  destruct s as [|y1 [|y2 [|y3 [|y4 [|dash rest]]]]]; try discriminate.
  destruct (digits2 y1 y2) as [hi|] eqn:H12; [|discriminate].
  destruct (digits2 y3 y4) as [lo|] eqn:H34; [|discriminate].
  destruct (split_dash rest) as [[mp dp]|]; [|discriminate].
  destruct (month_field mp) as [m|] eqn:Hm; [|discriminate].
  destruct (day_field dp) as [d|] eqn:Hd; [|discriminate].
  destruct (Ascii.eqb dash "-" && (1 <=? 100 * hi + lo)
            && (d <=? days_in_month (100 * hi + lo) m)) eqn:E; [|discriminate].
  intros H.
  assert (Hdt : dt = mkdate (100 * hi + lo) m d) by congruence.
  clear H. subst dt.
  apply digits2_range in H12. apply digits2_range in H34.
  apply month_field_range in Hm.
  apply day_field_positive in Hd.
  apply andb_true_iff in E as [E Hdays].
  apply andb_true_iff in E as [_ Hyear].
  apply Z.leb_le in Hdays. apply Z.leb_le in Hyear.
  unfold valid_date. cbn [year month day].
  rewrite !andb_true_iff, !Z.leb_le. lia.
Qed.

Lemma contains_token_free (pattern s : string) :
  pattern <> "" -> all_chars token_char pattern = true ->
  all_chars (fun c => negb (token_char c)) s = true ->
  contains pattern s = false.
Proof.
  intros Hne Htok. destruct pattern as [|c pattern]; [congruence|].
  cbn [all_chars] in Htok. apply andb_true_iff in Htok as [Hc _].
  induction s as [|x s IH]; intros Hs; [reflexivity|].
  cbn [all_chars] in Hs. apply andb_true_iff in Hs as [Hx Hs].
  rewrite contains_cons, (IH Hs), orb_false_r.
  destruct (String.prefix (String c pattern) (String x s)) eqn:Hp;
    [|reflexivity].
  apply prefix_cons in Hp as [-> _]. rewrite Hc in Hx. discriminate.
Qed.

Section FormatDateLiteral.

Variable libc_directive : date -> string -> option (string * nat).

Lemma mark_steps_literal (dt : date) (date_format : string)
    (l : list (nat * string)) :
  all_chars (fun c => negb (token_char c)) date_format = true ->
  (forall i pattern, In (i, pattern) l ->
     pattern <> "" /\ all_chars token_char pattern = true) ->
  fold_left (mark_step dt) l (date_format, []) = (date_format, []).
Proof.
  intros Hfree. induction l as [|[i pattern] l IH]; intros Hl; [reflexivity|].
  cbn [fold_left mark_step].
  destruct (Hl i pattern (or_introl eq_refl)) as [Hne Htok].
  rewrite (contains_token_free pattern date_format Hne Htok Hfree).
  apply IH. intros j q Hin. apply (Hl j q). now right.
Qed.

Lemma strftime_literal (dt : date) (fmt : string) :
  all_chars (fun c => negb (Ascii.eqb c "%")) fmt = true ->
  strftime libc_directive dt fmt = Some fmt.
Proof.
  unfold strftime.
  induction fmt as [|c fmt IH]; intros H; [reflexivity|].
  cbn [all_chars] in H. apply andb_true_iff in H as [Hc H].
  apply negb_true_iff in Hc.
  cbn [strftime_from]. rewrite Hc, (IH H). reflexivity.
Qed.

(** X12 ([format_date], literal patterns).  A pattern without any of the
    letters [m], [d], [y] and without a percent sign is no date pattern at
    all: for every date text that [strptime] reads, the result is the
    pattern itself, in upper case when [capitalize] is set, and the date
    appears nowhere in it. *)
Theorem format_date_literal (yyyy_mm_dd date_format : string)
    (capitalize : bool) (dt : date) :
  strptime_ymd yyyy_mm_dd = Some dt ->
  all_chars (fun c => negb (token_char c) && negb (Ascii.eqb c "%"))
            date_format = true ->
  format_date libc_directive yyyy_mm_dd date_format capitalize =
  Some (if capitalize then upper date_format else date_format).
Proof.
  intros Hparse Hlit.
  assert (Hfree : all_chars (fun c => negb (token_char c)) date_format = true
                  /\ all_chars (fun c => negb (Ascii.eqb c "%")) date_format
                     = true).
  { clear Hparse. induction date_format as [|c s IH]; [now split|].
    cbn [all_chars] in *. apply andb_true_iff in Hlit as [Hc Hs].
    apply andb_true_iff in Hc as [H1 H2]. destruct (IH Hs) as [IH1 IH2].
    now rewrite H1, H2, IH1, IH2. }
  destruct Hfree as [Hfree Hpercent].
  unfold format_date. rewrite Hparse.
  unfold strftime_format, mark_patterns.
  rewrite (mark_steps_literal dt date_format _ Hfree).
  - cbn [fill_markers fold_left].
    now rewrite (strftime_literal dt date_format Hpercent).
  - intros i pattern Hin.
    destruct (enumerated_pattern dt i pattern Hin) as (H1 & H2 & _).
    now split.
Qed.

Lemma strftime_format_default (dt : date) :
  strftime_format dt "yyyy-mm-dd" = "%Y-%m-%d".
Proof. destruct dt as [y m d]. vm_compute. reflexivity. Qed.

Lemma format_date_default_parsed (yyyy_mm_dd : string) (capitalize : bool)
    (dt : date) :
  strptime_ymd yyyy_mm_dd = Some dt ->
  format_date libc_directive yyyy_mm_dd "yyyy-mm-dd" capitalize =
  Some (isoformat dt).
Proof.
  intros Hparse. unfold format_date. rewrite Hparse.
  rewrite strftime_format_default.
  assert (Hfmt : strftime libc_directive dt "%Y-%m-%d" = Some (isoformat dt)).
  { unfold strftime, isoformat. cbn [strftime_from Ascii.eqb Bool.eqb directive
      option_map]. now rewrite append_nil_r. }
  rewrite Hfmt. destruct capitalize; [|reflexivity].
  f_equal. apply (strptime_upper (isoformat dt) dt).
  apply strptime_isoformat. now apply (strptime_valid yyyy_mm_dd).
Qed.

(** X13 ([format_date], the default pattern).  With the pattern
    [yyyy-mm-dd], which the overlay settings default to, the result is the
    ISO text of the date that [strptime] read, for years from 1000 on and
    whatever [capitalize] is: the ISO text of a date of the calendar is
    returned as it is, and a text with fields that are not padded, which
    [strptime] reads too, comes back padded. *)
Theorem format_date_default_pattern (capitalize : bool) :
  (forall d : date,
     valid_date d = true -> 1000 <= year d ->
     format_date libc_directive (isoformat d) "yyyy-mm-dd" capitalize =
     Some (isoformat d)) /\
  (forall (yyyy_mm_dd : string) (dt : date),
     strptime_ymd yyyy_mm_dd = Some dt -> 1000 <= year dt ->
     format_date libc_directive yyyy_mm_dd "yyyy-mm-dd" capitalize =
     Some (isoformat dt)
     /\ strptime_ymd (isoformat dt) = Some dt).
Proof.
  split.
  - intros d Hvalid _. apply format_date_default_parsed.
    now apply strptime_isoformat.
  - intros s dt Hparse _. split.
    + now apply format_date_default_parsed.
    + apply strptime_isoformat. now apply (strptime_valid s).
Qed.

End FormatDateLiteral.

Lemma format_date_literal_witness :
  format_date glibc_directive "2025-03-07" "Soon!" true = Some "SOON!".
Proof.
  apply (format_date_literal glibc_directive "2025-03-07" "Soon!" true
           (mkdate 2025 3 7)); reflexivity.
Defined.

(* ================================================================== *)
(** * Overlay document *)
(* ================================================================== *)

(** ** The order of texts *)

Lemma leb_cons (c1 c2 : ascii) (s1 s2 : string) :
  String.leb (String c1 s1) (String c2 s2) = true <->
  (N_of_ascii c1 < N_of_ascii c2)%N \/ (c1 = c2 /\ String.leb s1 s2 = true).
Proof.
  unfold String.leb. cbn [String.compare]. unfold Ascii.compare.
  destruct (N.compare_spec (N_of_ascii c1) (N_of_ascii c2)) as [He|Hl|Hg].
  - assert (c1 = c2).
    { rewrite <- (ascii_N_embedding c1), <- (ascii_N_embedding c2).
      now rewrite He. }
    subst c2. split; [now right|]. intros [H|[_ H]]; [lia|exact H].
  - split; [now left|reflexivity].
  - split; [discriminate|]. intros [H|[-> _]]; lia.
Qed.

Lemma leb_nil (s : string) : String.leb "" s = true.
Proof. now destruct s. Qed.

Lemma leb_trans (a b c : string) :
  String.leb a b = true -> String.leb b c = true -> String.leb a c = true.
Proof.
  revert b c. induction a as [|x a IH]; intros b c Hab Hbc; [apply leb_nil|].
  destruct b as [|y b]; [discriminate|].
  destruct c as [|z c]; [discriminate|].
  apply leb_cons in Hab, Hbc. apply leb_cons.
  destruct Hab as [Hab|[-> Hab]], Hbc as [Hbc|[-> Hbc]].
  - left. lia.
  - now left.
  - now left.
  - right. split; [reflexivity|now apply (IH b)].
Qed.

Lemma insert_str_perm (x : string) (l : list string) :
  Permutation (x :: l) (insert_str x l).
Proof.
  induction l as [|y l IH]; cbn [insert_str]; [reflexivity|].
  destruct (String.leb x y); [reflexivity|].
  rewrite perm_swap. now apply perm_skip.
Qed.

Lemma sorted_str_perm (l : list string) : Permutation l (sorted_str l).
Proof.
  induction l as [|x l IH]; cbn; [constructor|].
  rewrite <- insert_str_perm. now apply perm_skip.
Qed.

Lemma insert_str_sorted (x : string) (l : list string) :
  StronglySorted str_le l -> StronglySorted str_le (insert_str x l).
Proof.
  induction l as [|y l IH]; cbn [insert_str]; intros Hs.
  - repeat constructor.
  - inversion Hs as [|? ? Hl Hall]; subst.
    destruct (String.leb x y) eqn:E.
    + constructor; [assumption|]. constructor; [exact E|].
      eapply Forall_impl; [|exact Hall].
      intros z Hz. now apply (leb_trans x y z).
    + constructor; [now apply IH|].
      assert (Hyx : str_le y x).
      { destruct (String.leb_total x y) as [H|H]; [congruence|exact H]. }
      apply Forall_forall. intros z Hz.
      apply (Permutation_in z (Permutation_sym (insert_str_perm x l))) in Hz.
      destruct Hz as [<-|Hz]; [exact Hyx|].
      rewrite Forall_forall in Hall. now apply Hall.
Qed.

Lemma sorted_str_sorted (l : list string) : StronglySorted str_le (sorted_str l).
Proof.
  induction l as [|x l IH]; cbn; [constructor|]. now apply insert_str_sorted.
Qed.

Lemma sorted_str_In (l : list string) (x : string) :
  In x (sorted_str l) <-> In x l.
Proof.
  split; apply Permutation_in;
    [apply Permutation_sym|]; apply sorted_str_perm.
Qed.

Lemma sorted_str_NoDup (l : list string) : NoDup l -> NoDup (sorted_str l).
Proof. apply Permutation_NoDup, sorted_str_perm. Qed.

(** What comes after an element of a sorted list without repetition is
    greater. *)
Lemma sorted_later (before after : list string) (x y : string) :
  StronglySorted str_le (before ++ x :: after) ->
  NoDup (before ++ x :: after) ->
  In y after -> String.leb x y = true /\ y <> x.
Proof.
  induction before as [|b before IH]; cbn [app]; intros Hs Hnd Hin.
  - inversion Hs as [|? ? _ Hall]; subst. inversion Hnd as [|? ? Hx _]; subst.
    rewrite Forall_forall in Hall. split; [now apply Hall|].
    intros ->. contradiction.
  - inversion Hs; subst. inversion Hnd; subst. now apply IH.
Qed.

(** ** Dictionaries filled by a loop *)

Section FoldSet.

Context {A V : Type} (key : A -> string) (val : A -> V).

Lemma set_all_other (l : list A) (d : dict V) (k : string) :
  (forall y, In y l -> key y <> k) ->
  dict_lookup (set_all key val l d) k = dict_lookup d k.
Proof.
  unfold set_all. revert d.
  induction l as [|x l IH]; intros d H; [reflexivity|].
  cbn [fold_left]. rewrite IH by (intros y Hy; apply H; now right).
  apply dict_lookup_set_other. apply H. now left.
Qed.

Lemma set_all_last (before after : list A) (x : A) (d : dict V) :
  (forall y, In y after -> key y <> key x) ->
  dict_lookup (set_all key val (before ++ x :: after) d) (key x) = Some (val x).
Proof.
  intros H. unfold set_all. rewrite fold_left_app. cbn [fold_left].
  fold (set_all key val after
          (dict_set (key x) (val x)
             (fold_left (fun d y => dict_set (key y) (val y) d) before d))).
  rewrite set_all_other by exact H.
  apply dict_lookup_set_same.
Qed.

Lemma set_all_fresh (l : list A) (d : dict V) :
  NoDup (map key l) ->
  (forall y, In y l -> ~ In (key y) (keys d)) ->
  set_all key val l d = (d ++ map (fun y => (key y, val y)) l)%list.
Proof.
  unfold set_all. revert d.
  induction l as [|x l IH]; intros d Hnd Hfresh; cbn [fold_left map].
  - now rewrite app_nil_r.
  - inversion Hnd as [|? ? Hx Hnd']; subst.
    rewrite dict_set_absent by (apply Hfresh; now left).
    rewrite IH; [now rewrite <- app_assoc|exact Hnd'|].
    intros y Hy Hin. unfold keys in Hin. rewrite map_app in Hin.
    apply in_app_or in Hin as [Hin|[Hin|[]]].
    + apply (Hfresh y); [now right|exact Hin].
    + cbn [fst] in Hin. apply Hx. rewrite Hin. now apply in_map.
Qed.

End FoldSet.

Lemma NoDup_dict_set {V} (k : string) (v : V) (d : dict V) :
  NoDup (keys d) -> NoDup (keys (dict_set k v d)).
Proof.
  induction d as [|[k0 v0] d IH]; cbn; intros H.
  - constructor; [intros []|constructor].
  - inversion H as [|? ? Hk0 Hd]; subst.
    destruct (String.eqb_spec k0 k) as [->|Hne]; cbn.
    + now constructor.
    + constructor; [|now apply IH].
      intros Hin. apply keys_dict_set in Hin as [->|Hin]; contradiction.
Qed.

(** ** The grouping of the shows *)

Lemma set_add_In (x : Z) (s : list Z) (n : Z) :
  In n (set_add x s) <-> n = x \/ In n s.
Proof.
  unfold set_add. destruct (existsb (Z.eqb x) s) eqn:E.
  - apply existsb_exists in E as (y & Hy & Heq). apply Z.eqb_eq in Heq.
    subst y. split; [now right|]. now intros [->|H].
  - rewrite in_app_iff. cbn [In]. intuition.
Qed.

Lemma set_add_NoDup (x : Z) (s : list Z) : NoDup s -> NoDup (set_add x s).
Proof.
  unfold set_add. destruct (existsb (Z.eqb x) s) eqn:E; [trivial|].
  intros H. apply (Permutation_NoDup (Permutation_cons_append s x)).
  constructor; [|exact H].
  intros Hin. assert (existsb (Z.eqb x) s = true); [|congruence].
  apply existsb_exists. exists x. split; [exact Hin|apply Z.eqb_refl].
Qed.

Lemma group_ids_In (shows : list Show) :
  forall (ids : list Z) (d : dict (list (option Z))) (n : Z),
  In n (fst (fold_left group_step shows (ids, d))) <->
  In n ids \/ In n (tvdb_ids_of shows).
Proof.
  induction shows as [|s shows IH]; intros ids d n;
    cbn [fold_left group_step tvdb_ids_of fst].
  - cbn [In]. tauto.
  - rewrite IH. destruct (truthy_id (show_tvdbId s)) as [m|].
    + rewrite set_add_In. cbn [In]. intuition.
    + tauto.
Qed.

Lemma group_ids_NoDup (shows : list Show) :
  forall (ids : list Z) (d : dict (list (option Z))),
  NoDup ids -> NoDup (fst (fold_left group_step shows (ids, d))).
Proof.
  induction shows as [|s shows IH]; intros ids d H;
    cbn [fold_left group_step fst]; [exact H|].
  apply IH. destruct (truthy_id (show_tvdbId s)); [|exact H].
  now apply set_add_NoDup.
Qed.

Lemma tvdb_ids_nonzero (shows : list Show) (n : Z) :
  In n (tvdb_ids_of shows) -> n <> 0.
Proof.
  induction shows as [|s shows IH]; cbn [tvdb_ids_of]; [intros []|].
  destruct (truthy_id (show_tvdbId s)) as [m|] eqn:E; [|exact IH].
  intros [<-|H]; [|now apply IH].
  unfold truthy_id in E. destruct (show_tvdbId s) as [k|]; [|discriminate].
  destruct (k =? 0) eqn:Hk; [discriminate|].
  apply Z.eqb_neq in Hk. congruence.
Qed.

Lemma dict_append_lookup {V} (k k' : string) (v : V) (d : dict (list V)) :
  lookup_list (dict_append k v d) k' =
  if String.eqb k k' then (lookup_list d k ++ [v])%list else lookup_list d k'.
Proof.
  unfold dict_append, lookup_list.
  destruct (String.eqb_spec k k') as [<-|Hne].
  - destruct (dict_lookup d k); now rewrite dict_lookup_set_same.
  - destruct (dict_lookup d k); now rewrite dict_lookup_set_other.
Qed.

Lemma dict_append_keys {V} (k k' : string) (v : V) (d : dict (list V)) :
  In k' (keys (dict_append k v d)) <-> k' = k \/ In k' (keys d).
Proof.
  unfold dict_append. destruct (dict_lookup d k); apply keys_dict_set.
Qed.

Lemma dict_append_NoDup {V} (k : string) (v : V) (d : dict (list V)) :
  NoDup (keys d) -> NoDup (keys (dict_append k v d)).
Proof.
  unfold dict_append. destruct (dict_lookup d k); apply NoDup_dict_set.
Qed.

Lemma group_dates_lookup (shows : list Show) :
  forall (ids : list Z) (d : dict (list (option Z))) (k : string),
  k <> "" ->
  lookup_list (snd (fold_left group_step shows (ids, d))) k =
  (lookup_list d k ++ ids_on k shows)%list.
Proof.
  induction shows as [|s shows IH]; intros ids d k Hk;
    cbn [fold_left group_step snd].
  - unfold ids_on. cbn. now rewrite app_nil_r.
  - rewrite IH by exact Hk. unfold ids_on. cbn [filter].
    destruct (String.eqb_spec (airDate s) "") as [He|Hne]; cbn [negb].
    + destruct (String.eqb_spec (airDate s) k) as [<-|_]; [contradiction|].
      reflexivity.
    + rewrite dict_append_lookup.
      destruct (String.eqb_spec (airDate s) k) as [<-|_]; [|reflexivity].
      cbn [map]. now rewrite <- app_assoc.
Qed.

Lemma group_dates_keys (shows : list Show) :
  forall (ids : list Z) (d : dict (list (option Z))) (k : string),
  In k (keys (snd (fold_left group_step shows (ids, d)))) <->
  In k (keys d) \/ (k <> "" /\ exists s, In s shows /\ airDate s = k).
Proof.
  induction shows as [|s shows IH]; intros ids d k;
    cbn [fold_left group_step snd].
  - split; [now left|]. intros [H|(_ & s & [] & _)]. exact H.
  - rewrite IH.
    destruct (String.eqb_spec (airDate s) "") as [He|Hne]; cbn [negb].
    + split.
      * intros [H|(Hk & s' & Hin & Hs')]; [now left|].
        right. split; [exact Hk|]. exists s'. split; [now right|exact Hs'].
      * intros [H|(Hk & s' & [<-|Hin] & Hs')]; [now left| |].
        -- congruence.
        -- right. split; [exact Hk|]. now exists s'.
    + rewrite dict_append_keys. split.
      * intros [[->|H]|(Hk & s' & Hin & Hs')].
        -- right. split; [exact Hne|]. exists s. split; [now left|reflexivity].
        -- now left.
        -- right. split; [exact Hk|]. exists s'. split; [now right|exact Hs'].
      * intros [H|(Hk & s' & [<-|Hin] & Hs')].
        -- left. now right.
        -- left. now left.
        -- right. split; [exact Hk|]. now exists s'.
Qed.

Lemma group_dates_NoDup (shows : list Show) :
  forall (ids : list Z) (d : dict (list (option Z))),
  NoDup (keys d) -> NoDup (keys (snd (fold_left group_step shows (ids, d)))).
Proof.
  induction shows as [|s shows IH]; intros ids d H;
    cbn [fold_left group_step snd]; [exact H|].
  apply IH. destruct (negb (String.eqb (airDate s) "")); [|exact H].
  now apply dict_append_NoDup.
Qed.

(** ** The blocks of the document *)

Lemma dict_lookup_remove_other {V} (k k' : string) (d : dict V) :
  k <> k' -> dict_lookup (dict_remove k d) k' = dict_lookup d k'.
Proof.
  intros Hne. unfold dict_remove.
  rewrite (dict_lookup_filter (fun x => negb (String.eqb x k)) d k').
  destruct (String.eqb_spec k' k) as [->|_]; [congruence|reflexivity].
Qed.

Lemma set_all_head {A V} (key : A -> string) (val : A -> V) (l : list A)
    (k0 : string) (v0 : V) (d : dict V) :
  (forall y, In y l -> key y <> k0) ->
  set_all key val l ((k0, v0) :: d) = (k0, v0) :: set_all key val l d.
Proof.
  unfold set_all. revert v0 d.
  induction l as [|x l IH]; intros v0 d H; [reflexivity|].
  cbn [fold_left dict_set].
  destruct (String.eqb_spec k0 (key x)) as [He|_].
  - exfalso. apply (H x); [now left|now symmetry].
  - apply IH. intros y Hy. apply H. now right.
Qed.

Lemma sorted_strict (l : list Z) :
  Sorted Z.le l -> NoDup l -> Sorted Z.lt l.
Proof.
  induction l as [|x l IH]; intros Hs Hnd; [constructor|].
  inversion Hs as [|? ? Hl Hhd]; subst. inversion Hnd as [|? ? Hx Hnd']; subst.
  constructor; [now apply IH|].
  destruct l as [|y l]; constructor.
  inversion Hhd; subst.
  assert (x <> y) by (intros ->; apply Hx; now left). lia.
Qed.

Lemma filter_all {A} (p : A -> bool) (l : list A) :
  (forall x, In x l -> p x = true) -> filter p l = l.
Proof.
  induction l as [|x l IH]; intros H; [reflexivity|].
  cbn [filter]. rewrite (H x) by now left.
  f_equal. apply IH. intros y Hy. apply H. now right.
Qed.

Lemma NoDup_map_injective {A B} (f : A -> B) (l : list A) :
  (forall a b, f a = f b -> a = b) -> NoDup l -> NoDup (map f l).
Proof.
  intros Hinj. induction l as [|x l IH]; intros H; cbn [map]; [constructor|].
  inversion H as [|? ? Hx Hl]; subst. constructor; [|now apply IH].
  intros Hin. apply in_map_iff in Hin as (y & Hy & Hin).
  apply Hinj in Hy. now subst y.
Qed.

Lemma is_nil_false {A} (l : list A) : is_nil l = false <-> l <> [].
Proof. destruct l; cbn; split; congruence. Qed.

Lemma isoformat_not_empty (d : date) : isoformat d <> "".
Proof.
  unfold isoformat. destruct (pad4 (year d)); discriminate.
Qed.

Section OverlayProofs.

Variable libc_directive : date -> string -> option (string * nat).
Variable Value : Type.
Variable str_of_value : Value -> string.
Variable truthy : Value -> bool.
Variable text_of : Value -> option string.

Local Abbreviation overlay :=
  (create_overlay_yaml libc_directive str_of_value truthy text_of).
Local Abbreviation render cs d :=
  (format_date_value libc_directive text_of d (date_format_of cs)
     (capitalize_of truthy cs)).

Implicit Type cs : Sections Value.

(** The function in terms of the state that the grouping loop leaves. *)
Lemma overlay_unfold (shows : list Show) cs :
  overlay shows cs =
  if is_nil shows
  then inl (Text "#No matching shows found")
  else
    let st := grouped shows in
    match text_blocks libc_directive str_of_value truthy text_of cs
            (fst st) (snd st)
            (backdrop_block truthy cs (fst st) []) with
    | inr e => inr e
    | inl overlays_dict => inl (overlays_document overlays_dict)
    end.
Proof.
  unfold create_overlay_yaml, grouped. cbv zeta.
  destruct (fold_left group_step shows ([], [])) as [ids dmap].
  reflexivity.
Qed.

Lemma grouped_ids_In (shows : list Show) (n : Z) :
  In n (fst (grouped shows)) <-> In n (tvdb_ids_of shows).
Proof.
  unfold grouped. rewrite group_ids_In. cbn [In]. tauto.
Qed.

Lemma grouped_ids_NoDup (shows : list Show) : NoDup (fst (grouped shows)).
Proof. apply group_ids_NoDup. constructor. Qed.

Lemma grouped_dates_In (shows : list Show) (k : string) :
  In k (keys (snd (grouped shows))) <->
  k <> "" /\ exists s, In s shows /\ airDate s = k.
Proof.
  unfold grouped. rewrite group_dates_keys. cbn [keys map In]. tauto.
Qed.

Lemma grouped_dates_NoDup (shows : list Show) :
  NoDup (keys (snd (grouped shows))).
Proof. apply group_dates_NoDup. constructor. Qed.

Lemma grouped_dates_lookup (shows : list Show) (k : string) :
  k <> "" -> lookup_list (snd (grouped shows)) k = ids_on k shows.
Proof. intros Hk. unfold grouped. now rewrite group_dates_lookup. Qed.

Lemma grouped_ids_nil (shows : list Show) :
  is_nil (fst (grouped shows)) = is_nil (tvdb_ids_of shows).
Proof.
  pose proof (grouped_ids_In shows) as H.
  destruct (fst (grouped shows)) as [|n ids];
    destruct (tvdb_ids_of shows) as [|m l]; try reflexivity; exfalso.
  - apply (H m). now left.
  - apply (H n). now left.
Qed.

Lemma grouped_dates_nil (shows : list Show) :
  is_nil (snd (grouped shows)) = negb (existsb has_air_date shows).
Proof.
  pose proof (grouped_dates_In shows) as H.
  destruct (existsb has_air_date shows) eqn:E; cbn [negb].
  - apply existsb_exists in E as (s & Hin & Hs).
    unfold has_air_date in Hs. apply negb_true_iff in Hs.
    apply String.eqb_neq in Hs.
    assert (Hk : In (airDate s) (keys (snd (grouped shows)))).
    { apply H. split; [exact Hs|]. now exists s. }
    destruct (snd (grouped shows)); [destruct Hk|reflexivity].
  - destruct (snd (grouped shows)) as [|[k l] d]; [reflexivity|].
    exfalso.
    destruct (proj1 (H k) (or_introl eq_refl)) as (Hk & s & Hin & Hs).
    assert (existsb has_air_date shows = true); [|congruence].
    apply existsb_exists. exists s. split; [exact Hin|].
    unfold has_air_date. apply negb_true_iff, String.eqb_neq. congruence.
Qed.

(** The text blocks in terms of what the settings say. *)
Lemma text_blocks_unfold cs (ids : list Z) (dmap : dict (list (option Z)))
    (ov : dict (node Value)) :
  text_blocks libc_directive str_of_value truthy text_of cs ids dmap ov =
  if text_enabled truthy cs && negb (is_nil ids)
  then
    if negb (is_nil dmap)
    then
      fold_left
        (date_block_step libc_directive text_of dmap (text_settings cs)
           (date_format_of cs) (use_text_of str_of_value cs)
           (capitalize_of truthy cs))
        (sorted_str (keys dmap)) (inl ov)
    else
      inl (dict_set "UTSK_upcoming_shows"
             (overlay_block
                (named_config (text_settings cs)
                   ("text(" ++ use_text_of str_of_value cs ++ ")"))
                (all_ids_str ids))
             ov)
  else inl ov.
Proof.
  unfold text_blocks, text_enabled, date_format_of, use_text_of, capitalize_of,
    text_settings, text_section, pop_flag. cbv zeta.
  rewrite !dict_lookup_remove_other by discriminate.
  reflexivity.
Qed.

Lemma date_steps_raise (dmap : dict (list (option Z)))
    (cfg : dict Value) (fmt : option Value) (use : string) (cap : bool)
    (l : list string) (e : OverlayError) :
  fold_left (date_block_step libc_directive text_of dmap cfg fmt use cap)
            l (inr e) = inr e.
Proof. induction l as [|d l IH]; [reflexivity|exact IH]. Qed.

Lemma date_steps_ok (dmap : dict (list (option Z)))
    (cfg : dict Value) (fmt : option Value) (use : string) (cap : bool)
    (l : list string) :
  forall ov : dict (node Value),
  (forall d, In d l ->
     exists f, format_date_value libc_directive text_of d fmt cap = inl f) ->
  fold_left (date_block_step libc_directive text_of dmap cfg fmt use cap)
            l (inl ov) =
  inl (set_all
         (fun d => "UTSK_" ++
            text_or_empty (format_date_value libc_directive text_of d fmt cap))
         (fun d =>
            overlay_block
              (named_config cfg
                 ("text(" ++ use ++ " " ++
                  text_or_empty
                    (format_date_value libc_directive text_of d fmt cap)
                  ++ ")"))
              (date_ids_str dmap d))
         l ov).
Proof.
  induction l as [|d l IH]; intros ov H; [reflexivity|].
  cbn [fold_left date_block_step]. unfold set_all. cbn [fold_left].
  destruct (H d (or_introl eq_refl)) as [f Hf]. rewrite Hf.
  cbn [text_or_empty]. apply IH. intros d' Hd'. apply H. now right.
Qed.

Lemma date_steps_fail (dmap : dict (list (option Z)))
    (cfg : dict Value) (fmt : option Value) (use : string) (cap : bool)
    (l : list string) (d : string) (e : OverlayError) :
  In d l ->
  format_date_value libc_directive text_of d fmt cap = inr e ->
  forall st, exists e',
    fold_left (date_block_step libc_directive text_of dmap cfg fmt use cap)
              l st = inr e'.
Proof.
  intros Hin Hd. induction l as [|x l IH]; [destruct Hin|].
  intros [ov|e0]; cbn [fold_left].
  - destruct Hin as [->|Hin].
    + cbn [date_block_step]. rewrite Hd. exists e. apply date_steps_raise.
    + apply (IH Hin).
  - exists e0. apply date_steps_raise.
Qed.

Lemma date_steps_sets (dmap : dict (list (option Z)))
    (cfg : dict Value) (fmt : option Value) (use : string) (cap : bool)
    (l : list string) :
  forall ov ov' : dict (node Value),
  fold_left (date_block_step libc_directive text_of dmap cfg fmt use cap)
            l (inl ov) = inl ov' ->
  exists l' : list (string * node Value),
    ov' = set_all fst snd l' ov /\
    forall kv, In kv l' -> String.prefix "UTSK_" (fst kv) = true.
Proof.
  induction l as [|d l IH]; intros ov ov'; cbn [fold_left].
  - intros [= <-]. exists []. split; [reflexivity|intros ? []].
  - cbn [date_block_step].
    destruct (format_date_value libc_directive text_of d fmt cap) as [f|e].
    + intros H. apply IH in H as (l' & H & Hl').
      eexists ((_, _) :: l'). split; [exact H|].
      intros kv [<-|Hin]; [|now apply Hl'].
      cbn [fst]. apply prefix_append.
    + rewrite date_steps_raise. discriminate.
Qed.

(** Every assignment of the text blocks is to a key that starts with
    [UTSK_]. *)
Lemma text_blocks_sets cs (ids : list Z) (dmap : dict (list (option Z)))
    (ov ov' : dict (node Value)) :
  text_blocks libc_directive str_of_value truthy text_of cs ids dmap ov
    = inl ov' ->
  exists l : list (string * node Value),
    ov' = set_all fst snd l ov /\
    forall kv, In kv l -> String.prefix "UTSK_" (fst kv) = true.
Proof.
  rewrite text_blocks_unfold.
  destruct (text_enabled truthy cs && negb (is_nil ids)).
  2:{ intros [= <-]. exists []. split; [reflexivity|intros ? []]. }
  destruct (negb (is_nil dmap)).
  2:{ intros [= <-]. eexists [(_, _)]. split; [reflexivity|].
      intros kv [<-|[]]. reflexivity. }
  apply date_steps_sets.
Qed.

Lemma utsk_not_backdrop (k : string) :
  String.prefix "UTSK_" k = true -> k <> "backdrop".
Proof. intros H ->. discriminate. Qed.

Lemma date_steps_inr (dmap : dict (list (option Z)))
    (cfg : dict Value) (fmt : option Value) (use : string) (cap : bool)
    (l : list string) :
  forall (ov : dict (node Value)) (e : OverlayError),
  fold_left (date_block_step libc_directive text_of dmap cfg fmt use cap)
            l (inl ov) = inr e ->
  exists d, In d l /\
            format_date_value libc_directive text_of d fmt cap = inr e.
Proof.
  induction l as [|d l IH]; intros ov e; cbn [fold_left]; [discriminate|].
  cbn [date_block_step].
  destruct (format_date_value libc_directive text_of d fmt cap) as [f|e0] eqn:E.
  - intros H. apply IH in H as (d' & Hin & Hd').
    exists d'. split; [now right|exact Hd'].
  - rewrite date_steps_raise. intros [= <-].
    exists d. split; [now left|exact E].
Qed.

Lemma date_steps_inl (dmap : dict (list (option Z)))
    (cfg : dict Value) (fmt : option Value) (use : string) (cap : bool)
    (l : list string) (ov ov' : dict (node Value)) :
  fold_left (date_block_step libc_directive text_of dmap cfg fmt use cap)
            l (inl ov) = inl ov' ->
  forall d, In d l ->
    exists f, format_date_value libc_directive text_of d fmt cap = inl f.
Proof.
  intros H d Hin.
  destruct (format_date_value libc_directive text_of d fmt cap) as [f|e] eqn:E.
  - now exists f.
  - destruct (date_steps_fail dmap cfg fmt use cap l d e Hin E (inl ov))
      as [e' He'].
    congruence.
Qed.

Lemma format_date_none (d fmt : string) (cap : bool) :
  format_date libc_directive d fmt cap = None <-> strptime_ymd d = None.
Proof.
  unfold format_date. destruct (strptime_ymd d) as [dt|]; [|tauto].
  destruct (strftime libc_directive dt (strftime_format dt fmt));
    split; discriminate.
Qed.

Lemma render_fails (d : string) (fmt : option Value) (cap : bool) :
  (exists e, format_date_value libc_directive text_of d fmt cap = inr e) <->
  strptime_ymd d = None \/ (exists v, fmt = Some v /\ text_of v = None).
Proof.
  unfold format_date_value.
  destruct fmt as [v|]; [destruct (text_of v) as [t|] eqn:Ht|].
  - rewrite <- (format_date_none d t cap).
    destruct (format_date libc_directive d t cap); split.
    + intros [e He]. discriminate He.
    + intros [H|(v' & Hv & H)]; [discriminate H|]. congruence.
    + now left.
    + intros _. now exists DateValueError.
  - split.
    + intros _. right. now exists v.
    + intros _. destruct (strptime_ymd d); eexists; reflexivity.
  - rewrite <- (format_date_none d "yyyy-mm-dd" cap).
    destruct (format_date libc_directive d "yyyy-mm-dd" cap); split.
    + intros [e He]. discriminate He.
    + intros [H|(v' & Hv & _)]; [discriminate H|discriminate Hv].
    + now left.
    + intros _. now exists DateValueError.
Qed.

Lemma date_ids_grouped (shows : list Show) (d : string) :
  d <> "" ->
  date_ids_str (snd (grouped shows)) d =
  join ", " (map str_of_Z (sorted_Z (truthy_ids (ids_on d shows)))).
Proof.
  intros Hd. rewrite <- (grouped_dates_lookup shows d Hd). reflexivity.
Qed.

Lemma set_all_ext {A V} (key key' : A -> string) (val val' : A -> V)
    (l : list A) :
  forall d : dict V,
  (forall y, In y l -> key y = key' y /\ val y = val' y) ->
  set_all key val l d = set_all key' val' l d.
Proof.
  unfold set_all. induction l as [|x l IH]; intros d H; [reflexivity|].
  cbn [fold_left]. destruct (H x (or_introl eq_refl)) as [-> ->].
  apply IH. intros y Hy. apply H. now right.
Qed.

Lemma tvdb_ids_shows (shows : list Show) :
  tvdb_ids_of shows <> [] -> is_nil shows = false.
Proof. destruct shows; [now cbn|reflexivity]. Qed.

(** X14 ([create_overlay_yaml], shows without identifier).  When no show has
    an identifier that counts as true, the document has no block at all,
    whatever the settings and the air dates are: nothing is formatted, so
    nothing is raised.  For no show at all the file holds the one line
    [#No matching shows found]; otherwise it holds [overlays] with an empty
    mapping. *)
Theorem overlay_without_ids (shows : list Show) cs :
  tvdb_ids_of shows = [] ->
  overlay shows cs =
  inl (if is_nil shows
       then Text "#No matching shows found"
       else overlays_document []).
Proof.
  intros Hids. rewrite overlay_unfold.
  destruct (is_nil shows); [reflexivity|]. cbv zeta.
  rewrite text_blocks_unfold. unfold backdrop_block.
  rewrite grouped_ids_nil, Hids. cbn [is_nil negb].
  now rewrite !andb_false_r.
Qed.

(** A document that is written holds the backdrop block, if any, and then
    what the text blocks assign, under keys that start with [UTSK_]. *)
Lemma written_overlays (shows : list Show) cs (doc : node Value) :
  overlay shows cs = inl (Dump doc) ->
  exists l : list (string * node Value),
    doc = map_node
            [("overlays",
              map_node (set_all fst snd l
                          (backdrop_block truthy cs (fst (grouped shows)) [])))]
    /\ forall kv, In kv l -> fst kv <> "backdrop".
Proof.
  rewrite overlay_unfold.
  destruct (is_nil shows); [discriminate|]. cbv zeta.
  destruct (text_blocks _ _ _ _ _ _ _ _) as [ov'|e] eqn:Htext; [|discriminate].
  intros [= <-].
  apply text_blocks_sets in Htext as (l & -> & Hl).
  exists l. split; [reflexivity|].
  intros kv Hin. apply utsk_not_backdrop. now apply Hl.
Qed.

Lemma all_ids_str_sorted (shows : list Show) :
  all_ids_str (fst (grouped shows)) =
  join ", " (map str_of_Z (sorted_Z (fst (grouped shows)))).
Proof.
  unfold all_ids_str. rewrite filter_all; [reflexivity|].
  intros n Hn. apply negb_true_iff, Z.eqb_neq.
  apply (tvdb_ids_nonzero shows). apply grouped_ids_In.
  apply (Permutation_in n (Permutation_sym (sorted_Z_perm _)) Hn).
Qed.

(** X15 ([create_overlay_yaml], the backdrop block).  In a document that is
    written, the block [backdrop] is there exactly when the backdrop is
    enabled (or says nothing about it) and some show has an identifier; it
    is then the first block and the only one of that name, its overlay is
    the settings without [enable] and with the name [backdrop], and its
    [tvdb_show] lists every identifier of the shows once, in increasing
    order, whatever the text blocks are. *)
Theorem overlay_backdrop_block (shows : list Show) cs (doc : node Value) :
  overlay shows cs = inl (Dump doc) ->
  exists overlays_dict,
    doc = map_node [("overlays", map_node overlays_dict)] /\
    if backdrop_enabled truthy cs && negb (is_nil (tvdb_ids_of shows))
    then exists ids rest,
        overlays_dict =
          ("backdrop",
           overlay_block (named_config (backdrop_settings cs) "backdrop")
                         (join ", " (map str_of_Z ids))) :: rest
        /\ Sorted Z.lt ids
        /\ (forall n, In n ids <-> In n (tvdb_ids_of shows))
        /\ dict_lookup rest "backdrop" = None
    else dict_lookup overlays_dict "backdrop" = None.
Proof.
  intros Hdoc. apply written_overlays in Hdoc as (l & -> & Hkeys).
  eexists. split; [reflexivity|].
  unfold backdrop_block. fold (backdrop_enabled truthy cs).
  fold (backdrop_settings cs). rewrite grouped_ids_nil.
  destruct (backdrop_enabled truthy cs && negb (is_nil (tvdb_ids_of shows))).
  - exists (sorted_Z (fst (grouped shows))), (set_all fst snd l []).
    assert (Hperm := sorted_Z_perm (fst (grouped shows))).
    split; [|split; [|split]].
    + cbn [dict_set]. rewrite set_all_head by exact Hkeys.
      now rewrite all_ids_str_sorted.
    + apply sorted_strict; [apply sorted_Z_sorted|].
      apply (Permutation_NoDup Hperm), grouped_ids_NoDup.
    + intros n. rewrite <- grouped_ids_In. split.
      * apply Permutation_in. now apply Permutation_sym.
      * now apply Permutation_in.
    + now rewrite set_all_other by exact Hkeys.
  - now rewrite set_all_other by exact Hkeys.
Qed.

(** X16 ([create_overlay_yaml], the default date format).  When some show
    has an identifier, the text blocks are enabled, [date_format] is missing
    or is [yyyy-mm-dd], and every air date is the ISO text of a date of the
    calendar, the document is written, and after the backdrop block, if
    any, it holds exactly one text block per air date, in increasing order
    of the dates: the block of a date has the key [UTSK_] followed by the
    date, the name [text(<use_text> <date>)], and the sorted identifiers of
    the shows of that date. *)
Theorem overlay_default_blocks (shows : list Show) cs :
  tvdb_ids_of shows <> [] ->
  text_enabled truthy cs = true ->
  match date_format_of cs with
  | None => True
  | Some v => text_of v = Some "yyyy-mm-dd"
  end ->
  (forall s, In s shows ->
     exists d, valid_date d = true /\ 1000 <= year d
               /\ airDate s = isoformat d) ->
  exists dates backdrop_items,
    StronglySorted str_le dates /\ NoDup dates /\
    (forall d, In d dates <-> exists s, In s shows /\ airDate s = d) /\
    (backdrop_items = [] \/ exists b, backdrop_items = [("backdrop", b)]) /\
    overlay shows cs =
    inl (overlays_document
           (app backdrop_items
              (map (fun d =>
                      ("UTSK_" ++ d, date_block str_of_value cs shows d d))
                   dates))).
Proof.
  intros Hids Henabled Hfmt Hdates.
  exists (sorted_str (keys (snd (grouped shows)))),
         (backdrop_block truthy cs (fst (grouped shows)) []).
  assert (Hin : forall d, In d (sorted_str (keys (snd (grouped shows)))) <->
                          exists s, In s shows /\ airDate s = d).
  { intros d. rewrite sorted_str_In, grouped_dates_In. split.
    - now intros [_ H].
    - intros (s & Hs & <-). split; [|now exists s].
      destruct (Hdates s Hs) as (dd & _ & _ & ->). apply isoformat_not_empty. }
  assert (Hnd : NoDup (sorted_str (keys (snd (grouped shows))))).
  { apply sorted_str_NoDup, grouped_dates_NoDup. }
  split; [apply sorted_str_sorted|]. split; [exact Hnd|].
  split; [exact Hin|]. split.
  { unfold backdrop_block. destruct (_ && _); [right|now left].
    eexists. reflexivity. }
  rewrite overlay_unfold, (tvdb_ids_shows shows Hids). cbv zeta.
  rewrite text_blocks_unfold, Henabled, grouped_ids_nil.
  apply is_nil_false in Hids. rewrite Hids. cbn [negb andb].
  assert (Hdated : is_nil (snd (grouped shows)) = false).
  { rewrite grouped_dates_nil. apply negb_false_iff, existsb_exists.
    destruct shows as [|s shows']; [discriminate|].
    exists s. split; [now left|].
    destruct (Hdates s (or_introl eq_refl)) as (dd & _ & _ & Hs).
    unfold has_air_date. apply negb_true_iff, String.eqb_neq.
    rewrite Hs. apply isoformat_not_empty. }
  rewrite Hdated. cbn [negb].
  assert (Hrender : forall d, In d (sorted_str (keys (snd (grouped shows)))) ->
            format_date_value libc_directive text_of d (date_format_of cs)
              (capitalize_of truthy cs) = inl d).
  { intros d Hd. apply Hin in Hd as (s & Hs & <-).
    destruct (Hdates s Hs) as (dd & Hvalid & _ & ->).
    pose proof (format_date_default_parsed libc_directive (isoformat dd)
                  (capitalize_of truthy cs) dd
                  (strptime_isoformat dd Hvalid)) as Hdef.
    unfold format_date_value.
    destruct (date_format_of cs) as [v|]; [rewrite Hfmt|]; now rewrite Hdef. }
  rewrite date_steps_ok by (intros d Hd; exists d; now apply Hrender).
  f_equal. f_equal.
  rewrite (set_all_ext _ (fun d => "UTSK_" ++ d) _
             (fun d => date_block str_of_value cs shows d d)).
  - apply set_all_fresh.
    + apply NoDup_map_injective; [|exact Hnd].
      intros a b [= H]. exact H.
    + intros d _ Hk. unfold backdrop_block in Hk.
      destruct (_ && _); [|destruct Hk].
      destruct Hk as [Hk|[]]. discriminate Hk.
  - intros d Hd. rewrite (Hrender d Hd). cbn [text_or_empty].
    split; [reflexivity|]. unfold date_block.
    rewrite date_ids_grouped; [reflexivity|].
    apply Hin in Hd as (s & Hs & <-).
    destruct (Hdates s Hs) as (dd & _ & _ & ->). apply isoformat_not_empty.
Qed.

(** X17 ([create_overlay_yaml], dates that are formatted alike).  The key of
    a text block is the formatted date, so the dates that a [date_format]
    formats to the same text share one block, and the block is the one of
    the latest of them: in a document that is written, for a show with an
    air date that is formatted to [f] while no later air date of the shows
    is, the block [UTSK_f] holds the identifiers of the shows of that date
    only. *)
Theorem overlay_latest_date_wins (shows : list Show) cs (doc : node Value)
    (s : Show) (f : string) :
  overlay shows cs = inl (Dump doc) ->
  tvdb_ids_of shows <> [] ->
  text_enabled truthy cs = true ->
  In s shows ->
  airDate s <> "" ->
  render cs (airDate s) = inl f ->
  (forall s', In s' shows ->
     String.leb (airDate s) (airDate s') = true ->
     airDate s' <> airDate s ->
     render cs (airDate s') <> inl f) ->
  exists overlays_dict,
    doc = map_node [("overlays", map_node overlays_dict)] /\
    dict_lookup overlays_dict ("UTSK_" ++ f) =
    Some (date_block str_of_value cs shows (airDate s) f).
Proof.
  intros Hdoc Hids Henabled Hs Hdate Hf Hlater.
  rewrite overlay_unfold, (tvdb_ids_shows shows Hids) in Hdoc.
  cbv zeta in Hdoc.
  destruct (text_blocks _ _ _ _ _ _ _ _) as [ov'|e] eqn:Htext;
    [|discriminate].
  injection Hdoc as <-. exists ov'. split; [reflexivity|].
  rewrite text_blocks_unfold, Henabled, grouped_ids_nil in Htext.
  apply is_nil_false in Hids. rewrite Hids in Htext. cbn [negb andb] in Htext.
  assert (Hkey : In (airDate s) (sorted_str (keys (snd (grouped shows))))).
  { apply sorted_str_In, grouped_dates_In. split; [exact Hdate|now exists s]. }
  assert (Hdated : is_nil (snd (grouped shows)) = false).
  { rewrite grouped_dates_nil. apply negb_false_iff, existsb_exists.
    exists s. split; [exact Hs|].
    unfold has_air_date. now apply negb_true_iff, String.eqb_neq. }
  rewrite Hdated in Htext. cbn [negb] in Htext.
  pose proof (date_steps_inl _ _ _ _ _ _ _ _ Htext) as Hall.
  rewrite date_steps_ok in Htext by exact Hall.
  injection Htext as <-.
  pose proof (sorted_str_sorted (keys (snd (grouped shows)))) as Hsorted.
  pose proof (sorted_str_NoDup _ (grouped_dates_NoDup shows)) as Hnd.
  assert (Hmem : forall d, In d (sorted_str (keys (snd (grouped shows)))) ->
                           exists s', In s' shows /\ airDate s' = d).
  { intros d Hd. apply sorted_str_In, grouped_dates_In in Hd. now destruct Hd. }
  destruct (in_split _ _ Hkey) as (before & after & Hsplit).
  rewrite Hsplit in *.
  match goal with
  | |- dict_lookup (set_all ?key ?val _ _) _ = _ =>
      pose proof (set_all_last key val before after (airDate s)) as Hlast
  end.
  cbv beta in Hlast. rewrite Hf in Hlast. cbn [text_or_empty] in Hlast.
  rewrite Hlast.
  - unfold date_block. now rewrite date_ids_grouped by exact Hdate.
  - intros y Hy Heq. apply (f_equal (drop 5)) in Heq. cbn [drop String.append] in Heq.
    destruct (sorted_later before after (airDate s) y Hsorted Hnd Hy)
      as [Hle Hne].
    destruct (Hmem y) as (s' & Hs' & <-);
      [apply in_or_app; right; now right|].
    apply (Hlater s' Hs' Hle Hne).
    destruct (Hall (airDate s')) as [f' Hf'];
      [apply in_or_app; right; now right|].
    rewrite Hf' in Heq |- *. cbn [text_or_empty] in Heq. now rewrite Heq.
Qed.

Lemma overlay_raises_when (shows : list Show) cs :
  (exists e, overlay shows cs = inr e) <->
  text_enabled truthy cs = true /\ tvdb_ids_of shows <> [] /\
  exists s, In s shows /\ airDate s <> "" /\
    (strptime_ymd (airDate s) = None \/
     exists v, date_format_of cs = Some v /\ text_of v = None).
Proof.
  rewrite overlay_unfold. split.
  - intros [e He].
    destruct (is_nil shows); [discriminate|]. cbv zeta in He.
    destruct (text_blocks _ _ _ _ _ _ _ _) as [ov'|e'] eqn:Htext;
      [discriminate|].
    rewrite text_blocks_unfold, grouped_ids_nil in Htext.
    destruct (text_enabled truthy cs); [|discriminate].
    destruct (is_nil (tvdb_ids_of shows)) eqn:Hids; [discriminate|].
    cbn [negb andb] in Htext.
    destruct (is_nil (snd (grouped shows))); [discriminate|].
    cbn [negb] in Htext.
    apply date_steps_inr in Htext as (d & Hd & Hrender).
    apply sorted_str_In, grouped_dates_In in Hd as (Hne & s & Hs & <-).
    split; [reflexivity|]. split; [now apply is_nil_false|].
    exists s. split; [exact Hs|]. split; [exact Hne|].
    apply (render_fails (airDate s) (date_format_of cs)
             (capitalize_of truthy cs)).
    now exists e'.
  - intros (Henabled & Hids & s & Hs & Hdate & Hfail).
    rewrite (tvdb_ids_shows shows Hids). cbv zeta.
    rewrite text_blocks_unfold, Henabled, grouped_ids_nil.
    apply is_nil_false in Hids. rewrite Hids. cbn [negb andb].
    assert (Hdated : is_nil (snd (grouped shows)) = false).
    { rewrite grouped_dates_nil. apply negb_false_iff, existsb_exists.
      exists s. split; [exact Hs|].
      unfold has_air_date. now apply negb_true_iff, String.eqb_neq. }
    rewrite Hdated. cbn [negb].
    apply (render_fails _ _ (capitalize_of truthy cs)) in Hfail as [e He].
    destruct (date_steps_fail (snd (grouped shows)) (text_settings cs)
                (date_format_of cs) (use_text_of str_of_value cs)
                (capitalize_of truthy cs)
                (sorted_str (keys (snd (grouped shows)))) (airDate s) e)
      with (st := inl (backdrop_block truthy cs (fst (grouped shows)) [])
                  : dict (node Value) + OverlayError)
      as [e' He']; [|exact He|].
    + apply sorted_str_In, grouped_dates_In. split; [exact Hdate|now exists s].
    + exists e'. now rewrite He'.
Qed.

(** X18 ([create_overlay_yaml], what it raises).  The call raises, and
    writes nothing, exactly when the text blocks are enabled, some show has
    an identifier, and some show has an air date while [strptime] does not
    read that date or [date_format] is not a text.  With a [date_format]
    that is a text or is missing, what is raised is the [ValueError] of
    [strptime]. *)
Theorem overlay_raises_iff (shows : list Show) cs :
  ((exists e, overlay shows cs = inr e) <->
   text_enabled truthy cs = true /\ tvdb_ids_of shows <> [] /\
   exists s, In s shows /\ airDate s <> "" /\
     (strptime_ymd (airDate s) = None \/
      exists v, date_format_of cs = Some v /\ text_of v = None)) /\
  (match date_format_of cs with
   | None => True
   | Some v => text_of v <> None
   end ->
   forall e, overlay shows cs = inr e -> e = DateValueError).
Proof.
  split; [apply overlay_raises_when|].
  rewrite overlay_unfold. intros Hfmt e He.
  destruct (is_nil shows); [discriminate|]. cbv zeta in He.
  destruct (text_blocks _ _ _ _ _ _ _ _) as [ov'|e'] eqn:Htext;
    [discriminate|].
  injection He as ->.
  rewrite text_blocks_unfold in Htext.
  destruct (_ && _); [|discriminate].
  destruct (negb _); [|discriminate].
  apply date_steps_inr in Htext as (d & _ & Hrender).
  unfold format_date_value in Hrender.
  destruct (date_format_of cs) as [v|].
  - destruct (text_of v); [|congruence].
    destruct (format_date _ _ _ _); congruence.
  - destruct (format_date _ _ _ _); congruence.
Qed.

End OverlayProofs.

Lemma overlay_without_ids_witness :
  create_overlay_yaml glibc_directive setting_str setting_truthy setting_text
    sample_anonymous_shows sample_sections =
  inl (overlays_document []).
Proof.
  exact (overlay_without_ids glibc_directive Setting setting_str
           setting_truthy setting_text sample_anonymous_shows sample_sections
           eq_refl).
Defined.

Lemma overlay_backdrop_block_witness :
  exists overlays_dict,
    sample_overlay_document = map_node [("overlays", map_node overlays_dict)] /\
    exists ids rest,
      overlays_dict =
        ("backdrop",
         overlay_block
           (named_config (backdrop_settings sample_sections) "backdrop")
           (join ", " (map str_of_Z ids))) :: rest
      /\ Sorted Z.lt ids
      /\ (forall n, In n ids <-> In n (tvdb_ids_of sample_dated_shows))
      /\ dict_lookup rest "backdrop" = None.
Proof.
  exact (overlay_backdrop_block glibc_directive Setting setting_str
           setting_truthy setting_text sample_dated_shows sample_sections
           sample_overlay_document eq_refl).
Defined.

Lemma overlay_default_blocks_witness :
  exists dates backdrop_items,
    StronglySorted str_le dates /\ NoDup dates /\
    (forall d, In d dates <->
               exists s, In s sample_dated_shows /\ airDate s = d) /\
    (backdrop_items = [] \/ exists b, backdrop_items = [("backdrop", b)]) /\
    create_overlay_yaml glibc_directive setting_str setting_truthy setting_text
      sample_dated_shows sample_default_sections =
    inl (overlays_document
           (app backdrop_items
              (map (fun d =>
                      ("UTSK_" ++ d,
                       date_block setting_str sample_default_sections
                         sample_dated_shows d d))
                   dates))).
Proof.
  apply (overlay_default_blocks glibc_directive Setting setting_str
           setting_truthy setting_text sample_dated_shows
           sample_default_sections).
  - discriminate.
  - reflexivity.
  - exact I.
  - intros s [<-|[<-|[<-|[<-|[]]]]].
    + exists (mkdate 2025 3 21). repeat split; cbn; lia.
    + exists (mkdate 2025 3 7). repeat split; cbn; lia.
    + exists (mkdate 2025 3 7). repeat split; cbn; lia.
    + exists (mkdate 2025 4 1). repeat split; cbn; lia.
Defined.

Lemma overlay_latest_date_wins_witness :
  exists overlays_dict,
    sample_overlay_document = map_node [("overlays", map_node overlays_dict)] /\
    dict_lookup overlays_dict "UTSK_MARCH" =
    Some (overlay_block
            [("font_size", Plain (SInt 45)); ("name", Str "text(New MARCH)")]
            "30").
Proof.
  apply (overlay_latest_date_wins glibc_directive Setting setting_str
           setting_truthy setting_text sample_dated_shows sample_sections
           sample_overlay_document
           (mkShow "A" (Some 30) "/tv/a" "" None "2025-03-21") "MARCH").
  - reflexivity.
  - discriminate.
  - reflexivity.
  - now left.
  - discriminate.
  - reflexivity.
  - intros s' [<-|[<-|[<-|[<-|[]]]]] Hle Hne; cbn in *;
      congruence || discriminate.
Defined.

(** The sample under the name of the month: the two dates of March share the
    block [UTSK_MARCH], which lists the show of the 21st and not the one of
    the 7th; under the default format each date has its block. *)
Example overlay_month_blocks :
  sample_overlay_document =
  map_node
    [("overlays",
      map_node
        [("backdrop",
          overlay_block
            [("back_color", Plain (SText "#000000")); ("name", Str "backdrop")]
            "10, 20, 30");
         ("UTSK_MARCH",
          overlay_block
            [("font_size", Plain (SInt 45)); ("name", Str "text(New MARCH)")]
            "30");
         ("UTSK_APRIL",
          overlay_block
            [("font_size", Plain (SInt 45)); ("name", Str "text(New APRIL)")]
            "10")])].
Proof. reflexivity. Qed.

(* ================================================================== *)
(** * Trailer files *)
(* ================================================================== *)





Section TrailerProofs.

Variable Disk : Type.
Variable file_exists : Disk -> string -> string -> bool.
Variable make_season_dir : Disk -> string -> option Disk.
Variable ydl_download :
  Disk -> string -> string -> string -> string -> bool * Disk.
Variable yt_search : string -> Run.
Variable skip_channels : list string.

Local Abbreviation download :=
  (download_trailer Disk file_exists make_season_dir ydl_download).
Local Abbreviation loop :=
  (process_shows Disk file_exists make_season_dir ydl_download yt_search
     skip_channels).
Local Abbreviation trailer_file disk show :=
  (file_exists disk (show_path show) (final_mp4_name (show_title show))).



Lemma process_show_counts (n n' : Counters) (disk disk' : Disk) (show : Show) :
  process_show Disk file_exists make_season_dir ydl_download yt_search
    skip_channels (n, disk) show = (inl n', disk') ->
  successful_downloads n' + failed_downloads n' =
    successful_downloads n + failed_downloads n + 1 /\
  successful_downloads n <= successful_downloads n' /\
  failed_downloads n <= failed_downloads n' /\
  skipped_existing n <= skipped_existing n' /\
  skipped_existing n' - skipped_existing n <=
    successful_downloads n' - successful_downloads n.
Proof.
  unfold process_show.
  destruct (negb (String.eqb (show_path show) "") && trailer_file disk show).
  - intros [= <- _]. cbn. lia.
  - destruct (search_trailer_on_youtube _ _ _ _) as [t|].
    + destruct (download disk show t) as [[[|]|e] d].
      * intros [= <- _]. cbn. lia.
      * intros [= <- _]. cbn. lia.
      * discriminate.
    + intros [= <- _]. cbn. lia.
Qed.

Lemma process_shows_counts (shows : list Show) :
  forall (n n' : Counters) (disk disk' : Disk),
  loop shows (n, disk) = (inl n', disk') ->
  successful_downloads n' + failed_downloads n' =
    successful_downloads n + failed_downloads n + Z.of_nat (length shows) /\
  successful_downloads n <= successful_downloads n' /\
  failed_downloads n <= failed_downloads n' /\
  skipped_existing n <= skipped_existing n' /\
  skipped_existing n' - skipped_existing n <=
    successful_downloads n' - successful_downloads n.
Proof.
  induction shows as [|show shows IH]; intros n n' disk disk';
    cbn [process_shows length].
  - intros [= <- _]. cbn [fst]. lia.
  - destruct (process_show _ _ _ _ _ _ (n, disk) show) as [[n1|e] d1] eqn:Hstep;
      [|discriminate].
    intros Hrest. apply process_show_counts in Hstep. apply IH in Hrest. lia.
Qed.

(** X21 ([main], the summary of the trailers).  When the loop over the
    upcoming shows ends, every show has been counted once, as successful or
    as failed; the shows whose trailer was there already are among the
    successful ones; no counter is negative. *)
Theorem trailer_summary_counts (shows : list Show) (disk disk' : Disk)
    (n : Counters) :
  process_trailers Disk file_exists make_season_dir ydl_download yt_search
    skip_channels shows disk = (inl n, disk') ->
  successful_downloads n + failed_downloads n = Z.of_nat (length shows) /\
  0 <= skipped_existing n <= successful_downloads n /\
  0 <= failed_downloads n.
Proof.
  unfold process_trailers. intros H.
  apply process_shows_counts in H. cbn in H. lia.
Qed.

Lemma process_shows_existing (shows : list Show) (disk : Disk) :
  (forall show, In show shows ->
     show_path show <> "" /\ trailer_file disk show = true) ->
  forall n,
  loop shows (n, disk) =
  (inl (mkCounters (successful_downloads n + Z.of_nat (length shows))
                   (failed_downloads n)
                   (skipped_existing n + Z.of_nat (length shows))), disk).
Proof.
  induction shows as [|show shows IH]; intros H n; cbn [process_shows length].
  - cbn [fst snd]. destruct n as [a b c]. cbn. now rewrite !Z.add_0_r.
  - destruct (H show (or_introl eq_refl)) as [Hpath Hfile].
    unfold process_show. rewrite Hfile.
    destruct (String.eqb_spec (show_path show) "") as [He|_]; [contradiction|].
    cbn [negb andb]. rewrite IH by (intros s Hs; apply H; now right).
    cbn [successful_downloads failed_downloads skipped_existing].
    do 3 f_equal; lia.
Qed.

(** X22 ([main], trailers that are there already).  When every upcoming
    show has a folder and its trailer file exists, the loop searches
    nothing and downloads nothing, whatever the backend and the downloader
    would answer: the disk is left as it is, and every show is counted as
    successful and as skipped. *)
Theorem trailers_all_existing (shows : list Show) (disk : Disk) :
  (forall show, In show shows ->
     show_path show <> "" /\ trailer_file disk show = true) ->
  process_trailers Disk file_exists make_season_dir ydl_download yt_search
    skip_channels shows disk =
  (inl (mkCounters (Z.of_nat (length shows)) 0 (Z.of_nat (length shows))),
   disk).
Proof.
  intros H. unfold process_trailers.
  now rewrite (process_shows_existing shows disk H).
Qed.

End TrailerProofs.

Lemma trailer_summary_counts_witness :
  2 + 1 = Z.of_nat (length sample_trailer_shows) /\ 0 <= 1 <= 2 /\ 0 <= 1.
Proof.
  exact (trailer_summary_counts sample_disk sample_exists sample_mkdir
           sample_download sample_search [] sample_trailer_shows sample_files
           (("/tv/foo", "Foo.S00E00.Trailer.mp4") :: sample_files)
           (mkCounters 2 1 1) eq_refl).
Defined.

Lemma trailers_all_existing_witness :
  process_trailers sample_disk sample_exists sample_mkdir sample_download
    sample_search []
    [mkShow "Foo" (Some 7) "/tv/old" "" None "2025-03-22"] sample_files =
  (inl (mkCounters 1 0 1), sample_files).
Proof.
  apply (trailers_all_existing sample_disk sample_exists sample_mkdir
           sample_download sample_search []
           [mkShow "Foo" (Some 7) "/tv/old" "" None "2025-03-22"]
           sample_files).
  intros show [<-|[]]. split; [discriminate|reflexivity].
Defined.

(* ================================================================== *)
(** * The air window: unreadable time stamps *)
(* ================================================================== *)

Section AirWindowErrors.

Variable fromisoformat : string -> option Z.
Variable sonarr : Tracker.
Variables (utc_offset : Q) (skip_unmonitored : bool).

(** One turn of the loop: it raises for an unreadable premiere, and
    otherwise appends the show of the series exactly when the series
    qualifies. *)
Lemma visit_series_cases (cutoff now_local : Z) (acc : list Show) (s : Series)
      (w : World) :
  visit_series fromisoformat sonarr cutoff now_local utc_offset
               skip_unmonitored acc s w =
  if unreadable_premiere fromisoformat sonarr skip_unmonitored s
  then (inr ValueError, w)
  else (inl (if qualifies fromisoformat sonarr cutoff now_local utc_offset
                          skip_unmonitored s
             then acc ++ [show_of fromisoformat sonarr utc_offset s]
             else acc)%list, w).
Proof.
  unfold visit_series, unreadable_premiere, qualifies, show_of, premiere,
    is_upcoming, is_monitored, timestamp_ok, air_instant.
  destruct (status s) as [st|]; [destruct (String.eqb st "upcoming")|];
    try reflexivity.
  destruct (first_episode (episodes_of sonarr (id s))) as [ep|].
  2: { destruct skip_unmonitored, (monitored s) as [[|]|]; reflexivity. }
  destruct (airDateUtc ep) as [[|c str]|].
  1, 3: destruct skip_unmonitored, (monitored s) as [[|]|]; reflexivity.
  cbn [String.eqb orb].
  unfold convert_utc_to_local, bind.
  destruct (fromisoformat (replace "Z" "" (String c str))) as [t|].
  - cbn [option_map negb]. unfold ret; cbn beta iota.
    destruct skip_unmonitored, (monitored s) as [[|]|]; cbn [andb negb orb];
      try reflexivity;
      destruct ((now_local <? t + timedelta_hours utc_offset)
                && (t + timedelta_hours utc_offset <=? cutoff)); reflexivity.
  - unfold raise, ret. cbn [negb].
    destruct skip_unmonitored, (monitored s) as [[|]|]; reflexivity.
Qed.

Lemma for_each_visit_cases (cutoff now_local : Z) (l : list Series) :
  forall (acc : list Show) (w : World),
  for_each l (visit_series fromisoformat sonarr cutoff now_local utc_offset
                           skip_unmonitored) acc w =
  if existsb (unreadable_premiere fromisoformat sonarr skip_unmonitored) l
  then (inr ValueError, w)
  else
    (inl (acc ++ map (show_of fromisoformat sonarr utc_offset)
                     (filter (qualifies fromisoformat sonarr cutoff now_local
                                        utc_offset skip_unmonitored) l))%list,
     w).
Proof.
  induction l as [|s l IH]; intros acc w.
  - cbn. now rewrite app_nil_r.
  - cbn [for_each existsb filter]. unfold bind at 1.
    rewrite visit_series_cases.
    destruct (unreadable_premiere fromisoformat sonarr skip_unmonitored s);
      [reflexivity|].
    cbn [orb]. rewrite IH.
    destruct (existsb _ l); [reflexivity|].
    destruct (qualifies fromisoformat sonarr cutoff now_local utc_offset
                        skip_unmonitored s).
    + cbn [map]. now rewrite <- app_assoc.
    + reflexivity.
Qed.

Lemma find_upcoming_shows_cases (future_days : Z) (w : World) :
  fst (find_upcoming_shows fromisoformat sonarr future_days utc_offset
                           skip_unmonitored w) =
  if existsb (unreadable_premiere fromisoformat sonarr skip_unmonitored)
             (all_series sonarr)
  then inr ValueError
  else inl (map (show_of fromisoformat sonarr utc_offset)
                (filter (qualifies fromisoformat sonarr
                           (clock w (reads w) + timedelta_days future_days)
                           (clock w (S (reads w)) + timedelta_hours utc_offset)
                           utc_offset skip_unmonitored)
                        (all_series sonarr)), []).
Proof.
  unfold find_upcoming_shows. unfold bind at 1.
  rewrite air_window_run. cbn [fst snd]. unfold bind.
  rewrite for_each_visit_cases.
  destruct (existsb _ (all_series sonarr)); reflexivity.
Qed.

(** X23 ([find_upcoming_shows], time stamps that cannot be read).  The call
    raises the [ValueError] of [fromisoformat], and returns no show at all,
    exactly when some series that the loop looks into (status [upcoming],
    and monitored unless unmonitored series are kept) has a first episode 1
    of season 1 with a time stamp that is not empty and that
    [fromisoformat] does not read, wherever the series is in the list and
    whether or not the shows before it were in the window.  Otherwise the
    shows of the series that qualify are returned: unreadable time stamps of
    other episodes and of series that are not looked into do no harm. *)
Theorem find_upcoming_shows_raises_iff (future_days : Z) (w : World) :
  let cutoff := clock w (reads w) + timedelta_days future_days in
  let now_local := clock w (S (reads w)) + timedelta_hours utc_offset in
  fst (find_upcoming_shows fromisoformat sonarr future_days utc_offset
                           skip_unmonitored w) =
  (if existsb (unreadable_premiere fromisoformat sonarr skip_unmonitored)
             (all_series sonarr)
   then inr ValueError
   else inl (map (show_of fromisoformat sonarr utc_offset)
                 (filter (qualifies fromisoformat sonarr cutoff now_local
                                    utc_offset skip_unmonitored)
                         (all_series sonarr)), []))
  /\ forall s,
       unreadable_premiere fromisoformat sonarr skip_unmonitored s = true <->
       status s = Some "upcoming"
       /\ (skip_unmonitored = false \/ monitored s <> Some false)
       /\ exists ep str,
            first_episode (episodes_of sonarr (id s)) = Some ep
            /\ airDateUtc ep = Some str /\ str <> ""
            /\ fromisoformat (replace "Z" "" str) = None.
Proof.
  intros cutoff now_local. split.
  - apply find_upcoming_shows_cases.
  - intros s. unfold unreadable_premiere, is_upcoming, is_monitored,
      timestamp_ok.
    rewrite !andb_true_iff, orb_true_iff, negb_true_iff. split.
    + intros [[Hst Hmon] Hts]. split; [|split].
      * destruct (status s) as [st|]; [|discriminate].
        apply String.eqb_eq in Hst. now subst.
      * destruct Hmon as [H|H]; [now left|right].
        destruct (monitored s) as [[|]|]; congruence.
      * destruct (first_episode (episodes_of sonarr (id s))) as [ep|];
          [|discriminate].
        destruct (airDateUtc ep) as [str|] eqn:Hstr; [|discriminate].
        apply negb_true_iff, orb_false_iff in Hts as [Hne Hread].
        exists ep, str. repeat split; trivial.
        -- now apply String.eqb_neq.
        -- now destruct (fromisoformat (replace "Z" "" str)).
    + intros (Hst & Hmon & ep & str & Hfirst & Hstr & Hne & Hread).
      rewrite Hst, Hfirst, Hstr, Hread. apply String.eqb_neq in Hne.
      rewrite Hne. cbn. split; [split; [reflexivity|]|reflexivity].
      destruct Hmon as [H|H]; [now left|right].
      destruct (monitored s) as [[|]|]; congruence.
Qed.

End AirWindowErrors.

(** The sample tracker with the broken series at its end: the show that was
    found before it is lost. *)
Example find_upcoming_shows_broken :
  fst (find_upcoming_shows fromisoformat_seconds sample_tracker 2 0 false
                           frozen_world) =
    inl ([mkShow "Foo" (Some 77) "/tv/Foo" "" (Some 2025) "1970-01-02";
          mkShow "Bar" (Some 78) "/tv/Bar" "" (Some 2025) "1970-01-02"], [])
  /\ fst (find_upcoming_shows fromisoformat_seconds sample_broken_tracker 2 0
                              false frozen_world) = inr ValueError.
Proof. split; vm_compute; reflexivity. Qed.

(* ================================================================== *)
(** * The two documents together *)
(* ================================================================== *)

Lemma sorted_permutation_eq (l l' : list Z) :
  StronglySorted Z.le l -> StronglySorted Z.le l' -> Permutation l l' ->
  l = l'.
Proof.
  revert l'. induction l as [|a l IH]; intros l' Hs Hs' Hp.
  - now apply Permutation_nil in Hp.
  - destruct l' as [|b l'].
    + apply Permutation_sym, Permutation_nil in Hp. discriminate.
    + inversion Hs as [|? ? Hl Hal]; subst.
      inversion Hs' as [|? ? Hl' Hbl]; subst.
      rewrite Forall_forall in Hal, Hbl.
      assert (Hab : a = b).
      { assert (Ha : In a (b :: l')).
        { apply (Permutation_in a Hp). now left. }
        assert (Hb : In b (a :: l)).
        { apply (Permutation_in b (Permutation_sym Hp)). now left. }
        destruct Ha as [Ha|Ha]; [congruence|].
        destruct Hb as [Hb|Hb]; [congruence|].
        apply Hal in Hb. apply Hbl in Ha. lia. }
      subst b. f_equal. apply IH; trivial.
      now apply Permutation_cons_inv in Hp.
Qed.

Lemma sorted_Z_unique (l l' : list Z) :
  Permutation l l' -> sorted_Z l = sorted_Z l'.
Proof.
  intros Hp. apply sorted_permutation_eq.
  - apply Sorted_StronglySorted; [exact Z.le_trans|apply sorted_Z_sorted].
  - apply Sorted_StronglySorted; [exact Z.le_trans|apply sorted_Z_sorted].
  - rewrite <- (sorted_Z_perm l), <- (sorted_Z_perm l'). exact Hp.
Qed.

Section Documents.

Variable libc_directive : date -> string -> option (string * nat).
Variable Value : Type.
Variable str_of_value : Value -> string.
Variable truthy : Value -> bool.
Variable text_of : Value -> option string.

Lemma collection_with_ids (shows : list Show) (config : Config Value) :
  tvdb_ids_of shows <> [] ->
  create_collection_yaml str_of_value shows config =
  Map [(Str "collections",
        Map [(collection_name_of config,
              map_node
                (ordered_collection_of str_of_value
                   (collection_config_of config)
                   (summary_of str_of_value config)
                   (tvdb_ids_str_of (tvdb_ids_of shows))))])].
Proof.
  intros Hids. unfold create_collection_yaml.
  destruct shows as [|s shows]; [now contradiction Hids|]. cbn [is_nil].
  destruct (tvdb_ids_of (s :: shows)) as [|n ns];
    [now contradiction Hids|]. reflexivity.
Qed.

Lemma ordered_collection_fixed (cfg : dict Value) (summary ids : string) :
  dict_lookup (ordered_collection_of str_of_value cfg summary ids) "tvdb_show"
    = Some (Str ids) /\
  dict_lookup (ordered_collection_of str_of_value cfg summary ids) "sync_mode"
    = Some (Str "sync").
Proof.
  unfold ordered_collection_of. cbv zeta. split.
  - rewrite dict_lookup_set_same. unfold lookup_node.
    now rewrite dict_lookup_set_same.
  - rewrite dict_lookup_set_other by discriminate.
    rewrite dict_lookup_set_same. unfold lookup_node.
    rewrite dict_lookup_set_other by discriminate.
    now rewrite dict_lookup_set_same.
Qed.

(** X24 ([create_collection_yaml], the keys that the settings cannot set).
    For shows of which one at least has an identifier, the body of the
    collection has [sync_mode] with the value [sync] and [tvdb_show] with
    the sorted identifiers of the shows, whatever the collection settings
    say under these two keys: what they say is overwritten. *)
Theorem collection_fixed_keys (shows : list Show) (config : Config Value) :
  tvdb_ids_of shows <> [] ->
  exists body,
    create_collection_yaml str_of_value shows config =
    Map [(Str "collections",
          Map [(collection_name_of config, map_node body)])] /\
    dict_lookup body "sync_mode" = Some (Str "sync") /\
    dict_lookup body "tvdb_show" =
    Some (Str (join ", " (map str_of_Z (sorted_Z (tvdb_ids_of shows))))).
Proof.
  intros Hids. eexists. split; [now apply collection_with_ids|].
  split; apply ordered_collection_fixed.
Qed.

(** X25 ([create_overlay_yaml] and [create_collection_yaml] together).  For
    shows whose identifiers are all different, the backdrop block of the
    overlay document and the collection list the same shows: the two
    [tvdb_show] texts are equal. *)
Theorem documents_list_same_shows (shows : list Show)
    (config : Config Value) (cs : Sections Value) (doc : node Value) :
  NoDup (tvdb_ids_of shows) ->
  tvdb_ids_of shows <> [] ->
  backdrop_enabled truthy cs = true ->
  create_overlay_yaml libc_directive str_of_value truthy text_of shows cs
    = inl (Dump doc) ->
  exists tvdb_show body overlays_dict,
    create_collection_yaml str_of_value shows config =
    Map [(Str "collections",
          Map [(collection_name_of config, map_node body)])] /\
    dict_lookup body "tvdb_show" = Some (Str tvdb_show) /\
    doc = map_node [("overlays", map_node overlays_dict)] /\
    dict_lookup overlays_dict "backdrop" =
    Some (overlay_block (named_config (backdrop_settings cs) "backdrop")
                        tvdb_show).
Proof.
  intros Hnd Hids Henabled Hdoc.
  apply written_overlays in Hdoc as (l & -> & Hkeys).
  exists (tvdb_ids_str_of (tvdb_ids_of shows)). eexists. eexists.
  split; [now apply collection_with_ids|].
  split; [apply ordered_collection_fixed|].
  split; [reflexivity|].
  rewrite set_all_other by exact Hkeys.
  unfold backdrop_block. fold (backdrop_enabled truthy cs).
  fold (backdrop_settings cs).
  rewrite Henabled, grouped_ids_nil.
  apply is_nil_false in Hids. rewrite Hids. cbn [negb andb].
  rewrite dict_lookup_set_same, all_ids_str_sorted.
  unfold tvdb_ids_str_of. do 4 f_equal.
  apply sorted_Z_unique, NoDup_Permutation.
  - apply grouped_ids_NoDup.
  - exact Hnd.
  - apply grouped_ids_In.
Qed.

End Documents.

Lemma collection_fixed_keys_witness :
  exists body,
    create_collection_yaml setting_str sample_dated_shows
      (mkConfig None
         (Some [("sync_mode", SText "append"); ("tvdb_show", SText "1")])) =
    Map [(Str "collections", Map [(Str "Upcoming Shows", map_node body)])] /\
    dict_lookup body "sync_mode" = Some (Str "sync") /\
    dict_lookup body "tvdb_show" = Some (Str "10, 20, 30").
Proof.
  apply (collection_fixed_keys Setting setting_str sample_dated_shows
           (mkConfig None
              (Some [("sync_mode", SText "append");
                     ("tvdb_show", SText "1")]))).
  discriminate.
Defined.

Lemma documents_list_same_shows_witness :
  exists tvdb_show body overlays_dict,
    create_collection_yaml setting_str sample_dated_shows (mkConfig None None)
    = Map [(Str "collections", Map [(Str "Upcoming Shows", map_node body)])] /\
    dict_lookup body "tvdb_show" = Some (Str tvdb_show) /\
    sample_overlay_document = map_node [("overlays", map_node overlays_dict)] /\
    dict_lookup overlays_dict "backdrop" =
    Some (overlay_block
            (named_config (backdrop_settings sample_sections) "backdrop")
            tvdb_show).
Proof.
  apply (documents_list_same_shows glibc_directive Setting setting_str
           setting_truthy setting_text sample_dated_shows (mkConfig None None)
           sample_sections sample_overlay_document).
  - repeat constructor; cbn; intuition discriminate.
  - discriminate.
  - reflexivity.
  - reflexivity.
Defined.

(** With an identifier that two shows have, the collection lists it twice
    and the backdrop block once. *)
Example documents_repeated_id :
  let shows := [ mkShow "A" (Some 5) "/a" "" None "2025-03-21";
                 mkShow "B" (Some 5) "/b" "" None "2025-03-22" ] in
  create_collection_yaml setting_str shows (mkConfig None None) =
  Map [(Str "collections",
        Map [(Str "Upcoming Shows",
              map_node
                [("summary",
                  Str "Shows with their first episode premiering within 30 days");
                 ("sync_mode", Str "sync");
                 ("tvdb_show", Str "5, 5")])])] /\
  create_overlay_yaml glibc_directive setting_str setting_truthy
    setting_text shows (mkSections None (Some [("enable", SBool false)])) =
  inl (overlays_document
         [("backdrop", overlay_block [("name", Str "backdrop")] "5")]).
Proof. split; reflexivity. Qed.

(* ================================================================== *)
(** * From the tracker to the overlay document *)
(* ================================================================== *)

Lemma all_from_check (f : Z -> bool) (count : nat) :
  forall first,
  all_from f first count = true ->
  forall z, first <= z < first + Z.of_nat count -> f z = true.
Proof.
  induction count as [|k IH]; intros first Hall z Hz; [lia|].
  cbn [all_from] in Hall. apply andb_true_iff in Hall as [Hf Hall].
  destruct (Z.eq_dec z first) as [->|Hne]; [exact Hf|].
  apply (IH (first + 1) Hall). lia.
Qed.

Lemma days_in_month_leap (y y' m : Z) :
  is_leap y = is_leap y' -> days_in_month y m = days_in_month y' m.
Proof. intros H. unfold days_in_month. now rewrite H. Qed.

Lemma days_before_month_leap (y y' m : Z) :
  is_leap y = is_leap y' -> days_before_month y m = days_before_month y' m.
Proof.
  intros H. unfold days_before_month. cbn [fold_left].
  now rewrite !(days_in_month_leap y y' _ H).
Qed.

Lemma year_day_ok_leap (y y' n : Z) :
  is_leap y = is_leap y' -> year_day_ok y n = year_day_ok y' n.
Proof.
  intros H. unfold year_day_ok, month_day. cbv zeta.
  rewrite (days_before_month_leap y y' _ H).
  rewrite (days_in_month_leap y y' (Z.shiftr (n + 50) 5 - 1) H).
  destruct (n <? days_before_month y' (Z.shiftr (n + 50) 5));
    cbn [month day]; now rewrite (days_in_month_leap y y' _ H).
Qed.

(** Every day of a year but the 366th is a date of that year. *)
Lemma year_days_ok (y n : Z) : 0 <= n < 365 -> year_day_ok y n = true.
Proof.
  intros Hn. destruct (is_leap y) eqn:Hleap.
  - rewrite (year_day_ok_leap y 4 n) by (rewrite Hleap; reflexivity).
    apply (all_from_check (year_day_ok 4) 365 0); [|lia].
    vm_compute. reflexivity.
  - rewrite (year_day_ok_leap y 1 n) by (rewrite Hleap; reflexivity).
    apply (all_from_check (year_day_ok 1) 365 0); [|lia].
    vm_compute. reflexivity.
Qed.

Lemma fromordinal_unfold (n : Z) :
  fromordinal n =
  let n400 := (n - 1) / 146097 in
  let r := (n - 1) mod 146097 in
  let n100 := r / 36524 in
  let r1 := r mod 36524 in
  let n4 := r1 / 1461 in
  let r2 := r1 mod 1461 in
  let n1 := r2 / 365 in
  let y := n400 * 400 + 1 + n100 * 100 + n4 * 4 + n1 in
  if (n1 =? 4) || (n100 =? 4)
  then mkdate (y - 1) 12 31
  else month_day y (r2 mod 365).
Proof. reflexivity. Qed.

(** [fromordinal] gives a date of the calendar for the ordinals of the
    years 1 to 9999. *)
Lemma fromordinal_valid (n : Z) :
  1 <= n <= 3652059 -> valid_date (fromordinal n) = true.
Proof.
  intros Hn. rewrite fromordinal_unfold. cbv zeta.
  pose proof (Z.div_mod (n - 1) 146097 ltac:(lia)) as E400.
  pose proof (Z.mod_pos_bound (n - 1) 146097 ltac:(lia)) as B400.
  set (n400 := (n - 1) / 146097) in *.
  set (r := (n - 1) mod 146097) in *.
  pose proof (Z.div_mod r 36524 ltac:(lia)) as E100.
  pose proof (Z.mod_pos_bound r 36524 ltac:(lia)) as B100.
  set (n100 := r / 36524) in *. set (r1 := r mod 36524) in *.
  pose proof (Z.div_mod r1 1461 ltac:(lia)) as E4.
  pose proof (Z.mod_pos_bound r1 1461 ltac:(lia)) as B4.
  set (n4 := r1 / 1461) in *. set (r2 := r1 mod 1461) in *.
  pose proof (Z.div_mod r2 365 ltac:(lia)) as E1.
  pose proof (Z.mod_pos_bound r2 365 ltac:(lia)) as B1.
  set (n1 := r2 / 365) in *. set (d := r2 mod 365) in *.
  assert (H400 : 0 <= n400) by lia.
  assert (H100 : 0 <= n100 <= 4) by lia.
  assert (H4 : 0 <= n4 <= 24) by lia.
  assert (H1 : 0 <= n1 <= 4) by lia.
  destruct ((n1 =? 4) || (n100 =? 4)) eqn:Hlast.
  - apply orb_true_iff in Hlast. rewrite !Z.eqb_eq in Hlast.
    unfold valid_date. cbn [year month day].
    change (days_in_month (n400 * 400 + 1 + n100 * 100 + n4 * 4 + n1 - 1) 12)
      with 31.
    rewrite !andb_true_iff, !Z.leb_le. lia.
  - apply orb_false_iff in Hlast. rewrite !Z.eqb_neq in Hlast.
    pose proof (year_days_ok (n400 * 400 + 1 + n100 * 100 + n4 * 4 + n1) d B1)
      as Hok.
    unfold year_day_ok in Hok. cbv zeta in Hok.
    unfold valid_date.
    assert (Hyear : year (month_day
                            (n400 * 400 + 1 + n100 * 100 + n4 * 4 + n1) d)
                    = n400 * 400 + 1 + n100 * 100 + n4 * 4 + n1).
    { unfold month_day. cbv zeta. now destruct (_ <? _). }
    rewrite Hyear.
    rewrite !andb_true_iff, !Z.leb_le in Hok |- *.
    destruct Hok as [[[Hm1 Hm2] Hd1] Hd2].
    repeat split; try assumption; lia.
Qed.

Lemma date_of_instant_valid (t : Z) :
  instant_in_range t = true -> valid_date (date_of_instant t) = true.
Proof.
  unfold instant_in_range, date_of_instant, us_per_day, epoch_ordinal.
  intros H. apply andb_true_iff in H as [Hlo Hhi].
  apply Z.leb_le in Hlo. apply Z.ltb_lt in Hhi.
  apply fromordinal_valid.
  assert (364878 - 719163 <= t / 86400000000).
  { apply Z.div_le_lower_bound; lia. }
  assert (t / 86400000000 < 3652060 - 719163).
  { apply Z.div_lt_upper_bound; lia. }
  lia.
Qed.

Section Pipeline.

Variable fromisoformat : string -> option Z.
Variable sonarr : Tracker.
Variables (utc_offset : Q) (skip_unmonitored : bool).
Variable libc_directive : date -> string -> option (string * nat).
Variable Value : Type.
Variable str_of_value : Value -> string.
Variable truthy : Value -> bool.
Variable text_of : Value -> option string.

(** X26 ([find_upcoming_shows] and [create_overlay_yaml] together, as
    [main] runs them).  When the premieres of the tracker fall in the years
    1000 to 9999, every show that [find_upcoming_shows] returns has, as its
    air date, the ISO text of a date of the calendar, which [strptime] reads
    back as that date; so [create_overlay_yaml] raises nothing on these
    shows and writes its file, for every settings whose [date_format] is a
    text or is missing. *)
Theorem upcoming_shows_overlay_written (future_days : Z) (w w' : World)
    (upcoming_shows skipped_shows : list Show) (cs : Sections Value) :
  find_upcoming_shows fromisoformat sonarr future_days utc_offset
                      skip_unmonitored w
    = (inl (upcoming_shows, skipped_shows), w') ->
  (forall s t, In s (all_series sonarr) ->
     premiere fromisoformat sonarr utc_offset s = Some t ->
     instant_in_range t = true) ->
  match date_format_of cs with
  | None => True
  | Some v => text_of v <> None
  end ->
  (forall show, In show upcoming_shows ->
     exists d, valid_date d = true /\ airDate show = isoformat d
               /\ strptime_ymd (airDate show) = Some d) /\
  exists written,
    create_overlay_yaml libc_directive str_of_value truthy text_of
      upcoming_shows cs = inl written.
Proof.
  intros Hrun Hrange Hfmt.
  assert (Hshows : forall show, In show upcoming_shows ->
            exists d, valid_date d = true /\ airDate show = isoformat d
                      /\ strptime_ymd (airDate show) = Some d).
  { pose proof (find_upcoming_shows_cases fromisoformat sonarr utc_offset
                  skip_unmonitored future_days w) as Hcases.
    rewrite Hrun in Hcases. cbn [fst] in Hcases.
    destruct (existsb _ (all_series sonarr)); [discriminate|].
    injection Hcases as -> _.
    intros show Hin. apply in_map_iff in Hin as (s & <- & Hs).
    apply filter_In in Hs as [Hs Hq].
    unfold qualifies in Hq. unfold show_of. cbn [airDate].
    destruct (premiere fromisoformat sonarr utc_offset s) as [t|] eqn:Ht.
    2:{ now rewrite andb_false_r in Hq. }
    pose proof (date_of_instant_valid t (Hrange s t Hs Ht)) as Hvalid.
    exists (date_of_instant t). split; [exact Hvalid|].
    split; [reflexivity|]. now apply strptime_isoformat. }
  split; [exact Hshows|].
  destruct (create_overlay_yaml libc_directive str_of_value truthy text_of
              upcoming_shows cs) as [written|e] eqn:Hwritten.
  - now exists written.
  - exfalso.
    destruct (proj1 (overlay_raises_when libc_directive Value str_of_value
                       truthy text_of upcoming_shows cs)
                    (ex_intro _ e Hwritten))
      as (_ & _ & s & Hs & _ & [Hbad|(v & Hv & Htext)]).
    + destruct (Hshows s Hs) as (d & _ & _ & Hread). congruence.
    + rewrite Hv in Hfmt. contradiction.
Qed.

End Pipeline.

Lemma upcoming_shows_overlay_written_witness :
  (forall show, In show sample_upcoming_shows ->
     exists d, valid_date d = true /\ airDate show = isoformat d
               /\ strptime_ymd (airDate show) = Some d) /\
  exists written,
    create_overlay_yaml glibc_directive setting_str setting_truthy
      setting_text sample_upcoming_shows sample_sections = inl written.
Proof.
  apply (upcoming_shows_overlay_written fromisoformat_seconds sample_tracker
           0 false glibc_directive Setting setting_str setting_truthy
           setting_text 2 frozen_world (mkWorld (fun _ => 0) 2)
           sample_upcoming_shows [] sample_sections).
  - vm_compute. reflexivity.
  - intros s t Hin.
    assert (Hp : premiere fromisoformat_seconds sample_tracker 0 s
                 = Some 171000000000).
    { destruct Hin as [<-|[<-|[<-|[]]]]; vm_compute; reflexivity. }
    rewrite Hp. intros [= <-]. vm_compute. reflexivity.
  - discriminate.
Defined.
